(** * Fleet data ingestion pipeline: normalization, validation, partitioning

    A shallow embedding of [pipeline/processors.py], [pipeline/validators.py],
    [pipeline/writers.py] and the parts of [pipeline/pipeline.py] and
    [pipeline/readers.py] that feed them, with the properties of section 8 of
    the specification that concern them.

    Conventions of the embedding.
    - A Python [str] is a [string]; a character is a code point below 256
      (Latin-1), classified and lower-cased as CPython does for that range.
    - A pandas DataFrame is a header (label and dtype per column) and a list
      of rows; a cell is [option value], [None] standing for NaN/None/NaT/NA.
      Labels may repeat, as pandas allows.
    - A number, in a cell or in a summary, is the rational it denotes; the
      rounding of floats is not modelled.
    - A Python exception is a [Raise] with its text; state that a method
      updates is passed in and returned.
    - Functions of the pandas and Python libraries whose results the
      properties do not inspect ([to_datetime], [describe], the text of
      numbers and of [repr]) are Section variables. *)

From Stdlib Require Import List Bool Arith Lia ZArith QArith.
From Stdlib Require Import Ascii String.
From Stdlib Require DecimalString DecimalNat DecimalFacts.
From Stdlib Require Import Permutation.
Import ListNotations.

Local Open Scope string_scope.
Local Open Scope list_scope.
Local Open Scope nat_scope.

(** ** Characters *)

Module Char.

Definition code (c : ascii) : nat := nat_of_ascii c.

Definition between (lo hi : nat) (c : ascii) : bool :=
  (lo <=? code c)%nat && (code c <=? hi)%nat.

(** [str.isspace] / regex [\s] on code points below 256. *)
Definition isspace (c : ascii) : bool :=
  between 9 13 c || between 28 32 c || (code c =? 133)%nat || (code c =? 160)%nat.

(** regex [\d]: the decimal digits (below 256 these are 0-9 only). *)
Definition isdigit (c : ascii) : bool := between 48 57 c.

Definition isunderscore (c : ascii) : bool := (code c =? 95)%nat.

(** [str.isalnum] on code points below 256: ASCII letters and digits, the
    Latin-1 letters, and the superscript digits and vulgar fractions, which
    Python counts as numeric. *)
Definition isalnum (c : ascii) : bool :=
  between 48 57 c || between 65 90 c || between 97 122 c
  || (code c =? 170)%nat || (code c =? 181)%nat || (code c =? 186)%nat
  || between 178 179 c || (code c =? 185)%nat || between 188 190 c
  || between 192 214 c || between 216 246 c || between 248 255 c.

(** regex [\w]. *)
Definition isword (c : ascii) : bool := isalnum c || isunderscore c.

(** [str.lower] on one code point below 256. *)
Definition lower (c : ascii) : ascii :=
  if between 65 90 c || (between 192 222 c && negb (code c =? 215)%nat)
  then ascii_of_nat (code c + 32)
  else c.

End Char.

(** ** Strings as character lists *)

Module Str.

Definition chars (s : string) : list ascii := list_ascii_of_string s.
Definition of_chars (l : list ascii) : string := string_of_list_ascii l.

(** [s.lower()] *)
Definition lower (l : list ascii) : list ascii := map Char.lower l.

(** [s.lstrip(...)], [s.rstrip(...)], [s.strip(...)] for a character class. *)
Fixpoint lstrip (p : ascii -> bool) (l : list ascii) : list ascii :=
  match l with
  | [] => []
  | c :: t => if p c then lstrip p t else l
  end.

Fixpoint rstrip (p : ascii -> bool) (l : list ascii) : list ascii :=
  match l with
  | [] => []
  | c :: t =>
      match rstrip p t with
      | [] => if p c then [] else [c]
      | t' => c :: t'
      end
  end.

Definition strip (p : ascii -> bool) (l : list ascii) : list ascii :=
  rstrip p (lstrip p l).

(** [re.sub(r'X+', r, s)] for a character class X and a one-character
    replacement: every maximal run of X becomes one [r].  [inrun] tells that
    the previous character belonged to a run already replaced. *)
Fixpoint sub_runs (p : ascii -> bool) (r : ascii) (inrun : bool)
         (l : list ascii) : list ascii :=
  match l with
  | [] => []
  | c :: t =>
      if p c
      then (if inrun then sub_runs p r true t else r :: sub_runs p r true t)
      else c :: sub_runs p r false t
  end.

(** [re.sub(r'[^X]', '', s)]: the characters outside the class are deleted. *)
Definition delete_outside (p : ascii -> bool) (l : list ascii) : list ascii :=
  filter p l.

(** [str(n)] for a natural number. *)
Definition of_nat (n : nat) : string := DecimalString.NilEmpty.string_of_uint (Nat.to_uint n).

(** [needle in s] *)
Fixpoint prefixb (p l : list ascii) : bool :=
  match p, l with
  | [], _ => true
  | _ :: _, [] => false
  | a :: p', b :: l' => Ascii.eqb a b && prefixb p' l'
  end.

Fixpoint containsb (needle l : list ascii) : bool :=
  prefixb needle l ||
  match l with
  | [] => false
  | _ :: t => containsb needle t
  end.

Definition contains (needle s : string) : bool :=
  containsb (chars needle) (chars s).

Definition startswith (s prefix : string) : bool :=
  prefixb (chars prefix) (chars s).

Definition endswith (s suffix : string) : bool :=
  prefixb (rev (chars suffix)) (rev (chars s)).

(** No two neighbours of a list in a class, and its head outside the class:
    what [sub_runs] establishes and what it leaves unchanged. *)
Fixpoint no_adjacent (p : ascii -> bool) (l : list ascii) : bool :=
  match l with
  | c1 :: t =>
      match t with
      | c2 :: _ => negb (p c1 && p c2) && no_adjacent p t
      | [] => true
      end
  | [] => true
  end.

Definition head_outside (p : ascii -> bool) (l : list ascii) : bool :=
  match l with
  | c :: _ => negb (p c)
  | [] => true
  end.

End Str.

(** ** processors.py: DataProcessor.clean_column_names *)

Definition underscore : ascii := "_"%char.

(** The body of the loop of [clean_column_names] for one label. *)
Definition clean_chars (col : list ascii) : list ascii :=
  let clean_col := Str.strip Char.isspace (Str.lower col) in
  let clean_col := Str.sub_runs Char.isspace underscore false clean_col in
  let clean_col := Str.delete_outside Char.isword clean_col in
  let clean_col := Str.sub_runs Char.isunderscore underscore false clean_col in
  Str.strip Char.isunderscore clean_col.

Definition clean_col (col : string) : string :=
  Str.of_chars (clean_chars (Str.chars col)).

Definition fallback_name (index : nat) : string := "col_" ++ Str.of_nat index.

(** [new_columns.append(clean_col if clean_col else f'col_{len(new_columns)}')] *)
Fixpoint clean_loop (cols : list string) (new_columns : list string) : list string :=
  match cols with
  | [] => new_columns
  | col :: rest =>
      let c := clean_col col in
      clean_loop rest
        (new_columns ++
           [if String.eqb c "" then fallback_name (List.length new_columns) else c])
  end.

Definition clean_names (cols : list string) : list string := clean_loop cols [].

(** What a canonical name looks like: word characters that [lower] leaves
    alone, no two underscores in a row, none at either end. *)
Definition canonical (l : list ascii) : Prop :=
  Forall (fun c => Char.isword c = true /\ Char.lower c = c) l
  /\ Str.no_adjacent Char.isunderscore l = true
  /\ Str.strip Char.isunderscore l = l.

(** The name the loop appends at position [index]. *)
Definition name_at (index : nat) (col : string) : string :=
  if String.eqb (clean_col col) "" then fallback_name index else clean_col col.

(** ** Tables *)

Inductive dtype : Type :=
| DObject | DString | DInt64 | DFloat64 | DBool | DDatetime.

Definition dtype_eqb (a b : dtype) : bool :=
  match a, b with
  | DObject, DObject | DString, DString | DInt64, DInt64
  | DFloat64, DFloat64 | DBool, DBool | DDatetime, DDatetime => true
  | _, _ => false
  end.

(** [select_dtypes(include=['number'])] keeps the integer and float columns. *)
Definition is_numeric (d : dtype) : bool :=
  match d with
  | DInt64 | DFloat64 => true
  | _ => false
  end.

(** A non-null cell.  A number is the rational it denotes; a timestamp is an
    instant counted from the epoch. *)
Inductive value : Type :=
| VStr (s : string)
| VNum (q : Q)
| VBool (b : bool)
| VTime (t : Z).

Definition cell : Type := option value.

Definition isnull (c : cell) : bool :=
  match c with
  | None => true
  | Some _ => false
  end.

Definition value_eqb (a b : value) : bool :=
  match a, b with
  | VStr s, VStr t => String.eqb s t
  | VNum p, VNum q => Qeq_bool p q
  | VBool x, VBool y => Bool.eqb x y
  | VTime s, VTime t => Z.eqb s t
  | _, _ => false
  end.

(** Equality of cells as [duplicated], [equals] and [groupby] see it: two
    nulls are the same. *)
Definition cell_eqb (a b : cell) : bool :=
  match a, b with
  | None, None => true
  | Some x, Some y => value_eqb x y
  | _, _ => false
  end.

Fixpoint list_eqb {A : Type} (eqb : A -> A -> bool) (l m : list A) : bool :=
  match l, m with
  | [], [] => true
  | a :: l', b :: m' => eqb a b && list_eqb eqb l' m'
  | _, _ => false
  end.

Record Series : Type := mkSeries {
  s_dtype : dtype;
  s_cells : list cell
}.

(** [a.equals(b)]: same dtype and the same elements, nulls matching nulls. *)
Definition series_equals (a b : Series) : bool :=
  dtype_eqb (s_dtype a) (s_dtype b) && list_eqb cell_eqb (s_cells a) (s_cells b).

Definition row : Type := list cell.

Record DataFrame : Type := mkDataFrame {
  columns : list (string * dtype);
  rows : list row
}.

Definition labels (df : DataFrame) : list string := map fst (columns df).
Definition dtypes (df : DataFrame) : list dtype := map snd (columns df).

(** [label in df.columns] *)
Definition has_column (df : DataFrame) (label : string) : bool :=
  existsb (String.eqb label) (labels df).

(** [len(df)] and [df.empty] (an axis of length zero). *)
Definition len (df : DataFrame) : nat := List.length (rows df).
Definition empty (df : DataFrame) : bool :=
  (List.length (columns df) =? 0)%nat || (len df =? 0)%nat.

(** The cell of a row at a position; a row shorter than the header reads as
    null there. *)
Definition cell_at (j : nat) (r : row) : cell := nth j r None.

Definition column_cells (j : nat) (df : DataFrame) : list cell :=
  map (cell_at j) (rows df).

(** Positions of the columns carrying a label (pandas allows several). *)
Fixpoint positions_from (label : string) (ls : list string) (j : nat) : list nat :=
  match ls with
  | [] => []
  | l :: t =>
      if String.eqb l label then j :: positions_from label t (S j)
      else positions_from label t (S j)
  end.

Definition positions (df : DataFrame) (label : string) : list nat :=
  positions_from label (labels df) 0.

Fixpoint select_mask {A : Type} (mask : list bool) (l : list A) : list A :=
  match mask, l with
  | b :: mask', a :: l' => if b then a :: select_mask mask' l' else select_mask mask' l'
  | _, _ => []
  end.

(** The row of a table read along its header. *)
Definition read_row (width : nat) (r : row) : row :=
  map (fun j => cell_at j r) (seq 0 width).

(** Python exceptions, by class name and text. *)
Inductive result (A : Type) : Type :=
| Ok (a : A)
| Raise (exception : string).
Arguments Ok {A} a.
Arguments Raise {A} exception.

Definition bind {A B : Type} (m : result A) (f : A -> result B) : result B :=
  match m with
  | Ok a => f a
  | Raise e => Raise e
  end.

Notation "x <- m ;; k" := (bind m (fun x => k))
  (at level 61, m at next level, right associativity).

(** [df[col]] for one label gives a Series only when the label is carried by
    exactly one column; with a repeated label it is a DataFrame, on which
    [.dtype] raises. *)
Definition get_series (df : DataFrame) (col : string) : result (nat * Series) :=
  match positions df col with
  | [j] => Ok (j, mkSeries (nth j (dtypes df) DObject) (column_cells j df))
  | [] => Raise "KeyError"
  | _ => Raise "AttributeError: 'DataFrame' object has no attribute 'dtype'"
  end.

Fixpoint replace_nth {A : Type} (j : nat) (a : A) (l : list A) : list A :=
  match l, j with
  | [], _ => []
  | _ :: t, O => a :: t
  | x :: t, S j' => x :: replace_nth j' a t
  end.

(** [df[col] = series] at the position of an existing, unrepeated column;
    the rows take the elements of the series by their index. *)
Definition set_series (df : DataFrame) (j : nat) (s : Series) : DataFrame :=
  let width := List.length (columns df) in
  mkDataFrame
    (replace_nth j (nth j (labels df) "", s_dtype s) (columns df))
    (map (fun '(i, r) => replace_nth j (nth i (s_cells s) None) (read_row width r))
         (combine (seq 0 (len df)) (rows df))).

(** [df[label] = scalar]: every column carrying the label is overwritten; if
    there is none, a column is appended. *)
Definition set_scalar (df : DataFrame) (label : string) (d : dtype) (v : cell)
  : DataFrame :=
  let width := List.length (columns df) in
  if has_column df label then
    mkDataFrame
      (map (fun '(l, t) => if String.eqb l label then (l, d) else (l, t)) (columns df))
      (map (fun r =>
              map (fun '(j, l) => if String.eqb l label then v else cell_at j r)
                  (combine (seq 0 width) (labels df)))
           (rows df))
  else
    mkDataFrame
      (columns df ++ [(label, d)])
      (map (fun r => read_row width r ++ [v]) (rows df)).

(** ** pandas: numeric parsing *)

Definition digit_value (c : ascii) : Z := Z.of_nat (Char.code c - 48).

Fixpoint take_digits (l : list ascii) (acc : Z) (count : nat)
  : Z * nat * list ascii :=
  match l with
  | c :: t =>
      if Char.isdigit c then take_digits t (10 * acc + digit_value c)%Z (S count)
      else (acc, count, l)
  | [] => (acc, count, [])
  end.

(** Decimal literals [digits], [digits.digits], [digits.] and [.digits].
    pandas reads more (exponents, [inf], hexadecimal); those spellings are
    outside this parser and come out as unparseable. *)
Definition parse_unsigned (l : list ascii) : option Q :=
  let '(i, ni, rest) := take_digits l 0%Z 0%nat in
  match rest with
  | [] => if (ni =? 0)%nat then None else Some (inject_Z i)
  | c :: t =>
      if Ascii.eqb c "."%char then
        let '(f, nf, rest') := take_digits t 0%Z 0%nat in
        match rest' with
        | [] =>
            if (ni + nf =? 0)%nat then None
            else
              let scale := (10 ^ Z.of_nat nf)%Z in
              Some (Qmake (i * scale + f) (Z.to_pos scale))
        | _ :: _ => None
        end
      else None
  end.

Definition parse_number (s : string) : option Q :=
  match Str.strip Char.isspace (Str.chars s) with
  | c :: t =>
      if Ascii.eqb c "-"%char then option_map Qopp (parse_unsigned t)
      else if Ascii.eqb c "+"%char then parse_unsigned t
      else parse_unsigned (c :: t)
  | [] => None
  end.

(** What [pd.to_numeric] makes of one element of an object Series. *)
Definition numeric_of_value (v : value) : option Q :=
  match v with
  | VStr s => parse_number s
  | VNum q => Some q
  | VBool b => Some (if b then 1%Q else 0%Q)
  | VTime _ => None
  end.

Definition is_integral (q : Q) : bool := (Zpos (Qden (Qred q)) =? 1)%Z.

Definition numeric_dtype (cells : list cell) : dtype :=
  if forallb (fun c => match c with
                       | Some (VNum q) => is_integral q
                       | _ => false
                       end) cells
  then DInt64 else DFloat64.

(** [pd.to_numeric(s, errors='coerce')]: what does not parse becomes NaN. *)
Definition to_numeric_coerce (s : Series) : Series :=
  let cells :=
    map (fun c => match c with
                  | None => None
                  | Some v => option_map VNum (numeric_of_value v)
                  end) (s_cells s) in
  mkSeries (numeric_dtype cells) cells.

(** [pd.to_numeric(s, errors='ignore')]: the input itself comes back when some
    element does not parse. *)
Definition to_numeric_ignore (s : Series) : Series :=
  if forallb (fun c => match c with
                       | None => true
                       | Some v => match numeric_of_value v with
                                   | Some _ => true
                                   | None => false
                                   end
                       end) (s_cells s)
  then to_numeric_coerce s
  else s.

(** ** Regular expressions of [extract_fleet_info] *)

Fixpoint take_while (p : ascii -> bool) (l : list ascii) : list ascii :=
  match l with
  | c :: t => if p c then c :: take_while p t else []
  | [] => []
  end.

(** [fleet\s*(\d+)] anchored at the head of [l]: the literal, the longest run
    of white space, then the longest run of digits, which is group 1 and must
    not be empty.  No digit is white space, so giving back white space never
    opens another match. *)
Definition match_fleet_at (l : list ascii) : option (list ascii) :=
  if Str.prefixb (Str.chars "fleet") l then
    match take_while Char.isdigit (Str.lstrip Char.isspace (skipn 5 l)) with
    | [] => None
    | d => Some d
    end
  else None.

(** [re.search]: the match at the leftmost position that has one. *)
Fixpoint search_fleet (l : list ascii) : option (list ascii) :=
  match match_fleet_at l with
  | Some d => Some d
  | None =>
      match l with
      | [] => None
      | _ :: t => search_fleet t
      end
  end.

(** [(\d{4})-(\d{4})] anchored at the head of [l]. *)
Definition match_range_at (l : list ascii) : option (list ascii * list ascii) :=
  match l with
  | a :: b :: c :: d :: m :: e :: f :: g :: h :: _ =>
      if forallb Char.isdigit [a; b; c; d] && Ascii.eqb m "-"%char
         && forallb Char.isdigit [e; f; g; h]
      then Some ([a; b; c; d], [e; f; g; h])
      else None
  | _ => None
  end.

Fixpoint search_range (l : list ascii) : option (list ascii * list ascii) :=
  match match_range_at l with
  | Some g => Some g
  | None =>
      match l with
      | [] => None
      | _ :: t => search_range t
      end
  end.

(** [re.search(r'fleet\s*(\d+)', source_file.lower())], group 1. *)
Definition fleet_match (source_file : string) : option string :=
  option_map Str.of_chars (search_fleet (Str.lower (Str.chars source_file))).

(** [re.search(r'(\d{4})-(\d{4})', source_file)], groups 1 and 2. *)
Definition bus_range_match (source_file : string) : option (string * string) :=
  option_map (fun '(a, b) => (Str.of_chars a, Str.of_chars b))
             (search_range (Str.chars source_file)).

(** ** Dictionaries in insertion order *)

Fixpoint dict_set {V : Type} (d : list (string * V)) (k : string) (v : V)
  : list (string * V) :=
  match d with
  | [] => [(k, v)]
  | (k', v') :: t =>
      if String.eqb k' k then (k, v) :: t else (k', v') :: dict_set t k v
  end.

Fixpoint dict_get {V : Type} (d : list (string * V)) (k : string) : option V :=
  match d with
  | [] => None
  | (k', v') :: t => if String.eqb k' k then Some v' else dict_get t k
  end.

Definition keys {V : Type} (d : list (string * V)) : list string := map fst d.

Definition is_nil {A : Type} (l : list A) : bool :=
  match l with
  | [] => true
  | _ :: _ => false
  end.

(** ** processors.py *)

(** [df.dropna(how='all')] *)
Definition dropna_rows_all (df : DataFrame) : DataFrame :=
  mkDataFrame (columns df)
              (filter (fun r => negb (forallb isnull (read_row (List.length (columns df)) r)))
                      (rows df)).

(** [df.dropna(axis=1, how='all')] *)
Definition dropna_columns_all (df : DataFrame) : DataFrame :=
  let width := List.length (columns df) in
  let mask := map (fun j => negb (forallb isnull (column_cells j df))) (seq 0 width) in
  mkDataFrame (select_mask mask (columns df))
              (map (fun r => select_mask mask (read_row width r)) (rows df)).

Definition remove_empty_rows_columns (df : DataFrame) : DataFrame :=
  let df := dropna_rows_all df in
  let df := dropna_columns_all df in
  df.

(** [df.columns = new_columns] after the loop. *)
Definition clean_column_names (df : DataFrame) : DataFrame :=
  let new_columns := clean_names (labels df) in
  mkDataFrame (combine new_columns (dtypes df)) (rows df).

Definition lower_str (s : string) : string := Str.of_chars (Str.lower (Str.chars s)).

Section Pipeline.

Set Default Proof Using "Type".

(** [pd.to_datetime(s, errors='ignore')] *)
Variable to_datetime_ignore : Series -> Series.
(** [str(v)] for a cell that is not a string already. *)
Variable py_str : value -> string.
(** [repr] of a list of strings, [f"{x:.2%}"], the text of a number, and
    [repr] of the dtype counts. *)
Variable repr_list : list string -> string.
Variable format_percent : Q -> string.
Variable format_number : Q -> string.
Variable repr_type_counts : list dtype -> string.
(** Statistics tables and the two [describe] calls. *)
Variable Stats : Type.
Variable describe : DataFrame -> Stats.
Variable groupby_describe : DataFrame -> string -> list string -> result Stats.
(** [filename_template.format(group=group_str)] *)
Variable format_template : string -> string -> string.

Fixpoint standardize_loop (cols : list string) (df : DataFrame) : result DataFrame :=
  match cols with
  | [] => Ok df
  | col :: rest =>
      if Str.startswith col "source_" || Str.endswith col "_timestamp"
      then standardize_loop rest df
      else
        js <- get_series df col ;;
        let '(j, s) := js in
        if dtype_eqb (s_dtype s) DObject then
          let numeric_converted := to_numeric_ignore s in
          if negb (series_equals numeric_converted s)
          then standardize_loop rest (set_series df j numeric_converted)
          else if Str.contains "date" (lower_str col) || Str.contains "time" (lower_str col)
          then
            let datetime_converted := to_datetime_ignore s in
            if negb (series_equals datetime_converted s)
            then standardize_loop rest (set_series df j datetime_converted)
            else standardize_loop rest df
          else standardize_loop rest df
        else standardize_loop rest df
  end.

Definition standardize_data_types (df : DataFrame) : result DataFrame :=
  standardize_loop (labels df) df.

Definition extract_fleet_info (df : DataFrame) (source_file : string) : DataFrame :=
  let df :=
    match fleet_match source_file with
    | Some fleet_number => set_scalar df "fleet_number" DObject (Some (VStr fleet_number))
    | None => set_scalar df "fleet_number" DObject None
    end in
  match bus_range_match source_file with
  | Some (start_bus, end_bus) =>
      let df := set_scalar df "bus_range_start" DObject (Some (VStr start_bus)) in
      set_scalar df "bus_range_end" DObject (Some (VStr end_bus))
  | None => df
  end.

Definition to_str (v : value) : string :=
  match v with
  | VStr s => s
  | _ => py_str v
  end.

(** [s.astype("string")] *)
Definition astype_string (s : Series) : Series :=
  mkSeries DString (map (option_map (fun v => VStr (to_str v))) (s_cells s)).

Fixpoint enforce_string_loop (cols : list string) (df : DataFrame) : result DataFrame :=
  match cols with
  | [] => Ok df
  | col :: rest =>
      js <- get_series df col ;;
      let '(j, s) := js in
      if dtype_eqb (s_dtype s) DObject
      then enforce_string_loop rest (set_series df j (astype_string s))
      else enforce_string_loop rest df
  end.

Definition process_dataframe (df : DataFrame) (source_file : string) : result DataFrame :=
  let df := remove_empty_rows_columns df in
  let df := clean_column_names df in
  df <- standardize_data_types df ;;
  let df := extract_fleet_info df source_file in
  enforce_string_loop (labels df) df.

Definition metric_keywords : list string :=
  ["performance"; "efficiency"; "utilization"; "availability";
   "mileage"; "hours"; "cost"; "maintenance"; "downtime";
   "fuel"; "emissions"; "reliability"; "rating"].

Definition identify_performance_metrics (df : DataFrame) : list string :=
  filter (fun col => existsb (fun keyword => Str.contains keyword (lower_str col))
                             metric_keywords)
         (labels df).

(** [df[labels]] *)
Definition select_columns (df : DataFrame) (ls : list string) : DataFrame :=
  let js := flat_map (positions df) ls in
  mkDataFrame (map (fun j => nth j (columns df) ("", DObject)) js)
              (map (fun r => map (fun j => cell_at j r) js) (rows df)).

(** [df.select_dtypes(include=['number'])] *)
Definition select_dtypes_number (df : DataFrame) : DataFrame :=
  let mask := map is_numeric (dtypes df) in
  mkDataFrame (select_mask mask (columns df))
              (map (fun r => select_mask mask (read_row (List.length (columns df)) r))
                   (rows df)).

(** Truth value of an optional string argument. *)
Definition truthy (o : option string) : bool :=
  match o with
  | Some s => negb (String.eqb s "")
  | None => false
  end.

Definition calculate_summary_stats (df : DataFrame) (group_by : option string)
  : result (list (string * Stats)) :=
  let metric_columns := identify_performance_metrics df in
  if is_nil metric_columns then Ok []
  else
    let summaries := [] in
    let numeric_df := select_dtypes_number (select_columns df metric_columns) in
    let summaries :=
      if negb (empty numeric_df)
      then dict_set summaries "overall" (describe numeric_df)
      else summaries in
    match group_by with
    | Some g =>
        if truthy group_by && has_column df g then
          by_group <- groupby_describe df g metric_columns ;;
          Ok (dict_set summaries "by_group" by_group)
        else Ok summaries
    | None => Ok summaries
    end.

(** ** validators.py *)

Definition context : Type := list (string * string).

Record RuleEntry : Type := mkRuleEntry {
  entry_passed : bool;
  entry_message : string;
  entry_description : string
}.

Record ValidationResults : Type := mkResults {
  res_context : context;
  res_shape : nat * nat;
  res_columns : list string;
  res_rules : list (string * RuleEntry);
  res_passed : bool;
  res_warnings : list string;
  res_errors : list string
}.

(** A rule returns its pair or raises an [Exception]. *)
Definition rule_func : Type := DataFrame -> context -> result (bool * string).

Record RuleInfo : Type := mkRuleInfo {
  func : rule_func;
  description : string
}.

Record DataValidator : Type := mkValidator {
  validation_rules : list (string * RuleInfo);
  validation_results : list ValidationResults
}.

Definition new_validator : DataValidator := mkValidator [] [].

Definition add_rule (self : DataValidator) (name : string) (rule : rule_func)
           (description : string) : DataValidator :=
  mkValidator (dict_set (validation_rules self) name (mkRuleInfo rule description))
              (validation_results self).

(** One turn of the loop over [self.validation_rules.items()]. *)
Definition apply_rule (df : DataFrame) (ctx : context) (results : ValidationResults)
           (rule_name : string) (rule_info : RuleInfo) : ValidationResults :=
  match func rule_info df ctx with
  | Ok (passed, message) =>
      let rules :=
        dict_set (res_rules results) rule_name
                 (mkRuleEntry passed message (description rule_info)) in
      if negb passed then
        if Str.contains "error" (lower_str message)
        then mkResults (res_context results) (res_shape results) (res_columns results)
                       rules false (res_warnings results)
                       (res_errors results ++ [(rule_name ++ ": " ++ message)%string])
        else mkResults (res_context results) (res_shape results) (res_columns results)
                       rules false
                       (res_warnings results ++ [(rule_name ++ ": " ++ message)%string])
                       (res_errors results)
      else mkResults (res_context results) (res_shape results) (res_columns results)
                     rules (res_passed results) (res_warnings results)
                     (res_errors results)
  | Raise e =>
      mkResults (res_context results) (res_shape results) (res_columns results)
                (dict_set (res_rules results) rule_name
                          (mkRuleEntry false ("Rule execution failed: " ++ e)%string
                                       (description rule_info)))
                false (res_warnings results)
                (res_errors results ++ [(rule_name ++ ": Rule execution failed")%string])
  end.

Fixpoint run_rules (rules : list (string * RuleInfo)) (df : DataFrame) (ctx : context)
         (results : ValidationResults) : ValidationResults :=
  match rules with
  | [] => results
  | (rule_name, rule_info) :: rest =>
      run_rules rest df ctx (apply_rule df ctx results rule_name rule_info)
  end.

Definition validate_dataframe (self : DataValidator) (df : DataFrame)
           (ctx : option context) : ValidationResults * DataValidator :=
  let ctx := match ctx with Some c => c | None => [] end in
  let results :=
    mkResults ctx (len df, List.length (columns df)) (labels df) [] true [] [] in
  let results := run_rules (validation_rules self) df ctx results in
  (results, mkValidator (validation_rules self) (validation_results self ++ [results])).

(** A Python number; a float stands for the real number its expression
    denotes. *)
Inductive pynum : Type :=
| PInt (z : Z)
| PFloat (q : Q).

Definition get_validation_summary (self : DataValidator) : list (string * pynum) :=
  if is_nil (validation_results self) then [("total_validations", PInt 0)]
  else
    let total := List.length (validation_results self) in
    let passed := List.length (filter res_passed (validation_results self)) in
    [("total_validations", PInt (Z.of_nat total));
     ("passed", PInt (Z.of_nat passed));
     ("failed", PInt (Z.of_nat total - Z.of_nat passed));
     ("pass_rate",
      if (0 <? total)%nat then PFloat (Z.of_nat passed # Pos.of_nat total) else PInt 0)].

(** *** The rules of [FleetDataValidator._setup_fleet_rules] *)

Definition has_required_columns : rule_func := fun df _ =>
  let required_cols := ["source_file"; "ingestion_timestamp"] in
  let missing_cols := filter (fun col => negb (has_column df col)) required_cols in
  if negb (is_nil missing_cols)
  then Ok (false, ("Missing required columns: " ++ repr_list missing_cols)%string)
  else Ok (true, "All required columns present").

Definition has_data : rule_func := fun df _ =>
  if empty df then Ok (false, "DataFrame is empty")
  else Ok (true, ("DataFrame has " ++ Str.of_nat (len df) ++ " rows")%string).

Definition has_valid_columns : rule_func := fun df _ =>
  let invalid_cols :=
    filter (fun col => is_nil (Str.strip Char.isspace (Str.chars col))) (labels df) in
  if negb (is_nil invalid_cols)
  then Ok (false, ("Invalid column names found: " ++ repr_list invalid_cols)%string)
  else Ok (true, "All column names are valid").

(** [df.duplicated().sum()]: the rows equal to an earlier row. *)
Fixpoint duplicated_count (seen rs : list row) : nat :=
  match rs with
  | [] => 0
  | r :: t =>
      (if existsb (list_eqb cell_eqb r) seen then 1 else 0)
      + duplicated_count (r :: seen) t
  end.

Definition reasonable_duplicates : rule_func := fun df _ =>
  if (len df =? 0)%nat then Ok (true, "Empty DataFrame, no duplicates")
  else
    let duplicate_count :=
      duplicated_count [] (map (read_row (List.length (columns df))) (rows df)) in
    let duplicate_rate := Z.of_nat duplicate_count # Pos.of_nat (len df) in
    if negb (Qle_bool duplicate_rate (1 # 2))
    then Ok (false, ("High duplicate rate: " ++ format_percent duplicate_rate)%string)
    else if negb (Qle_bool duplicate_rate (1 # 10))
    then Ok (true, ("Moderate duplicate rate: " ++ format_percent duplicate_rate)%string)
    else Ok (true, ("Low duplicate rate: " ++ format_percent duplicate_rate)%string).

Definition dropna (cells : list cell) : list cell :=
  filter (fun c => negb (isnull c)) cells.

Definition count_true (l : list bool) : nat := List.length (filter (fun b => b) l).

Definition numbers_of (cells : list cell) : list Q :=
  flat_map (fun c => match c with Some (VNum q) => [q] | _ => [] end) cells.

Definition Qmin_list (l : list Q) : Q :=
  match l with
  | [] => 0%Q
  | q :: t => fold_left (fun a b => if Qle_bool a b then a else b) t q
  end.

Definition Qmax_list (l : list Q) : Q :=
  match l with
  | [] => 0%Q
  | q :: t => fold_left (fun a b => if Qle_bool a b then b else a) t q
  end.

Definition valid_fleet_numbers : rule_func := fun df _ =>
  if negb (has_column df "fleet_number")
  then Ok (true, "No fleet_number column to validate")
  else
    match positions df "fleet_number" with
    | [j] =>
        let fleet_numbers :=
          mkSeries (nth j (dtypes df) DObject) (dropna (column_cells j df)) in
        if is_nil (s_cells fleet_numbers)
        then Ok (true, "No fleet numbers to validate")
        else
          let numeric_fleets := to_numeric_coerce fleet_numbers in
          let invalid_fleets := map isnull (s_cells numeric_fleets) in
          if existsb (fun b => b) invalid_fleets
          then Ok (false, ("Invalid fleet number format in "
                            ++ Str.of_nat (count_true invalid_fleets) ++ " rows")%string)
          else
            let out_of_range :=
              map (fun q => negb (Qle_bool 1 q) || negb (Qle_bool q 999))
                  (numbers_of (s_cells numeric_fleets)) in
            if existsb (fun b => b) out_of_range
            then Ok (false, ("Fleet numbers out of range (1-999): "
                              ++ Str.of_nat (count_true out_of_range) ++ " rows")%string)
            else Ok (true, ("All fleet numbers valid (range: "
                             ++ format_number (Qmin_list (numbers_of (s_cells numeric_fleets)))
                             ++ "-"
                             ++ format_number (Qmax_list (numbers_of (s_cells numeric_fleets)))
                             ++ ")")%string)
    | js =>
        (* a repeated label: [df['fleet_number']] is a DataFrame, [dropna()]
           keeps its rows without any null, and [pd.to_numeric] raises inside
           the rule's own [try] *)
        let width := List.length js in
        let kept :=
          filter (fun r => forallb (fun j => negb (isnull (cell_at j r))) js) (rows df) in
        if (width =? 0)%nat || is_nil kept
        then Ok (true, "No fleet numbers to validate")
        else Ok (false, ("Error validating fleet numbers: "
                          ++ "arg must be a list, tuple, 1-d array, or Series")%string)
    end.

Definition reasonable_data_types : rule_func := fun df _ =>
  let type_counts := repr_type_counts (dtypes df) in
  let object_cols := List.length (filter (fun d => dtype_eqb d DObject) (dtypes df)) in
  let total_cols := List.length (columns df) in
  if (total_cols =? 0)%nat then Raise "division by zero"
  else
    let object_ratio := Z.of_nat object_cols # Pos.of_nat total_cols in
    if negb (Qle_bool object_ratio (8 # 10))
    then Ok (false, ("High ratio of object columns: " ++ format_percent object_ratio)%string)
    else Ok (true, ("Data types appear reasonable: " ++ type_counts)%string).

Definition setup_fleet_rules (self : DataValidator) : DataValidator :=
  let self := add_rule self "required_columns" has_required_columns
                "Check that all required metadata columns are present" in
  let self := add_rule self "has_data" has_data
                "Check that DataFrame contains data" in
  let self := add_rule self "valid_columns" has_valid_columns
                "Check that all column names are valid" in
  let self := add_rule self "reasonable_duplicates" reasonable_duplicates
                "Check for reasonable duplicate row rates" in
  let self := add_rule self "valid_fleet_numbers" valid_fleet_numbers
                "Check that fleet numbers are in valid format and range" in
  add_rule self "reasonable_data_types" reasonable_data_types
           "Check for reasonable data type distribution".

Definition FleetDataValidator : DataValidator := setup_fleet_rules new_validator.

(** ** writers.py: PartitionedWriter.write_partitioned *)

Definition Path : Type := list string.

(** Order of group keys, as the sorted [groupby] lists them: strings by code
    point, numbers and instants by magnitude.  Keys of different kinds are
    ranked by kind, a case pandas leaves to the fallback of its sort. *)
Definition kind_rank (v : value) : nat :=
  match v with
  | VBool _ => 0
  | VNum _ => 1
  | VTime _ => 2
  | VStr _ => 3
  end.

Definition value_leb (a b : value) : bool :=
  match a, b with
  | VStr s, VStr t => String.leb s t
  | VNum p, VNum q => Qle_bool p q
  | VBool x, VBool y => implb x y
  | VTime s, VTime t => (s <=? t)%Z
  | _, _ => (kind_rank a <=? kind_rank b)%nat
  end.

Definition group_key : Type := list value.

Definition key_eqb (a b : group_key) : bool := list_eqb value_eqb a b.

Fixpoint key_leb (a b : group_key) : bool :=
  match a, b with
  | [], _ => true
  | _ :: _, [] => false
  | x :: a', y :: b' => if value_eqb x y then key_leb a' b' else value_leb x y
  end.

Fixpoint insert_key (k : group_key) (l : list group_key) : list group_key :=
  match l with
  | [] => [k]
  | h :: t => if key_leb k h then k :: l else h :: insert_key k t
  end.

Fixpoint sort_keys (l : list group_key) : list group_key :=
  match l with
  | [] => []
  | k :: t => insert_key k (sort_keys t)
  end.

(** The distinct keys, each at its first occurrence. *)
Fixpoint distinct_keys (seen l : list group_key) : list group_key :=
  match l with
  | [] => []
  | k :: t =>
      if existsb (key_eqb k) seen then distinct_keys seen t
      else k :: distinct_keys (k :: seen) t
  end.

(** The column each key label names; [groupby] wants the label present and
    one-dimensional. *)
Fixpoint key_positions (df : DataFrame) (cols : list string) : result (list nat) :=
  match cols with
  | [] => Ok []
  | col :: rest =>
      match positions df col with
      | [j] => js <- key_positions df rest ;; Ok (j :: js)
      | [] => Raise ("KeyError: " ++ col)%string
      | _ => Raise ("ValueError: Grouper for '" ++ col ++ "' not 1-dimensional")%string
      end
  end.

(** The key of a row; a null in any key column leaves the row without one
    ([dropna=True], the default of [groupby]). *)
Fixpoint row_key (js : list nat) (r : row) : option group_key :=
  match js with
  | [] => Some []
  | j :: rest =>
      match cell_at j r, row_key rest r with
      | Some v, Some k => Some (v :: k)
      | _, _ => None
      end
  end.

Definition has_key (js : list nat) (k : group_key) (r : row) : bool :=
  match row_key js r with
  | Some k' => key_eqb k k'
  | None => false
  end.

(** [df.groupby(partition_columns)], iterated: the keys in sorted order, each
    with the rows that carry it, in their order in [df]. *)
Definition groupby (df : DataFrame) (cols : list string)
  : result (list (group_key * DataFrame)) :=
  if is_nil cols then Raise "ValueError: No group keys passed!"
  else
    js <- key_positions df cols ;;
    let present := flat_map (fun r => match row_key js r with
                                      | Some k => [k]
                                      | None => []
                                      end) (rows df) in
    let ks := sort_keys (distinct_keys [] present) in
    Ok (map (fun k => (k, mkDataFrame (columns df) (filter (has_key js k) (rows df)))) ks).

Fixpoint join (sep : string) (l : list string) : string :=
  match l with
  | [] => ""
  | [s] => s
  | s :: t => s ++ sep ++ join sep t
  end.

(** One turn of the loop: the path of the partition and the table handed to
    [to_parquet]. *)
Definition write_group (output_dir : Path) (partition_columns : list string)
           (filename_template : string) (g : group_key * DataFrame)
  : Path * DataFrame :=
  let '(group_values, group_df) := g in
  let partition_path :=
    fold_left (fun partition_path '(col, val) =>
                 partition_path ++ [(col ++ "=" ++ to_str val)%string])
              (combine partition_columns group_values) output_dir in
  let group_str := join "_" (map to_str group_values) in
  let filename := format_template filename_template group_str in
  let output_path := partition_path ++ [(filename ++ ".parquet")%string] in
  (output_path, group_df).

(** The files written, in order: path and content. *)
Definition write_partitioned (output_dir : Path) (df : DataFrame)
           (partition_columns : list string) (filename_template : string)
  : result (list (Path * DataFrame)) :=
  grouped <- groupby df partition_columns ;;
  Ok (map (write_group output_dir partition_columns filename_template) grouped).

(** The rows of all partitions together. *)
Definition partition_rows (written : list (Path * DataFrame)) : list row :=
  flat_map (fun w => rows (snd w)) written.

(** ** pipeline.py: DataIngestionPipeline.process_single_file *)

Record ProcessingStats : Type := mkStats {
  files_processed : nat;
  sheets_processed : nat;
  total_rows : nat;
  errors : list string;
  validation_failures : nat
}.

(** The part of the pipeline object that processing a file reads and
    updates. *)
Record Pipeline : Type := mkPipeline {
  validator : DataValidator;
  processing_stats : ProcessingStats
}.

Definition new_pipeline : Pipeline :=
  mkPipeline FleetDataValidator (mkStats 0 0 0 [] 0).

(** What [reader.read_file] hands over: the sheets by name, or one table. *)
Inductive decoded : Type :=
| Sheets (sheets : list (string * DataFrame))
| SingleSheet (df : DataFrame).

(** The lists the method fills and returns (the file metadata, read from the
    file system, is left out). *)
Record FileResult : Type := mkFileResult {
  data : list DataFrame;
  summaries : list (string * list (string * Stats));
  file_validation_results : list ValidationResults
}.

(** The steps both branches of [process_single_file] take for a sheet.  An
    exception leaves the method; the validator and the counters keep what was
    done before it. *)
Definition process_sheet (self : Pipeline) (acc : FileResult) (sheet_df : DataFrame)
           (file_name sheet_label summary_key fleet_name : string)
  : result FileResult * Pipeline :=
  match process_dataframe sheet_df file_name with
  | Raise e => (Raise e, self)
  | Ok processed_df =>
      let '(v, validator) :=
        validate_dataframe (validator self) processed_df
          (Some [("file", file_name); ("sheet", sheet_label); ("fleet", fleet_name)]) in
      let stats := processing_stats self in
      let stats :=
        if negb (res_passed v)
        then mkStats (files_processed stats) (sheets_processed stats) (total_rows stats)
                     (errors stats) (validation_failures stats + 1)
        else stats in
      match calculate_summary_stats processed_df (Some "fleet_number") with
      | Raise e => (Raise e, mkPipeline validator stats)
      | Ok sheet_summaries =>
          let summaries :=
            if negb (is_nil sheet_summaries)
            then dict_set (summaries acc) summary_key sheet_summaries
            else summaries acc in
          let stats :=
            mkStats (files_processed stats) (sheets_processed stats + 1)
                    (total_rows stats + len processed_df)
                    (errors stats) (validation_failures stats) in
          (Ok (mkFileResult (data acc ++ [processed_df]) summaries
                            (file_validation_results acc ++ [v])),
           mkPipeline validator stats)
      end
  end.

Fixpoint process_sheets (self : Pipeline) (acc : FileResult)
         (sheets : list (string * DataFrame)) (file_name fleet_name : string)
  : result FileResult * Pipeline :=
  match sheets with
  | [] => (Ok acc, self)
  | (sheet_name, sheet_df) :: rest =>
      if empty sheet_df then process_sheets self acc rest file_name fleet_name
      else
        match process_sheet self acc sheet_df file_name sheet_name
                            (sheet_name ++ "_summary") fleet_name with
        | (Ok acc, self) => process_sheets self acc rest file_name fleet_name
        | (Raise e, self) => (Raise e, self)
        end
  end.

Definition process_single_file (self : Pipeline) (file_name : string)
           (excel_data : decoded) (fleet_name : string)
  : result FileResult * Pipeline :=
  let acc := mkFileResult [] [] [] in
  match excel_data with
  | Sheets sheets => process_sheets self acc sheets file_name fleet_name
  | SingleSheet df => process_sheet self acc df file_name "<single>" "summary" fleet_name
  end.

(** ** readers.py: ExcelReader.read_sheet_with_metadata *)

(** The four metadata columns, added to a decoded sheet. *)
Definition add_metadata (df : DataFrame) (file_name sheet_name file_path : string)
           (now : Z) : DataFrame :=
  let df := set_scalar df "source_file" DObject (Some (VStr file_name)) in
  let df := set_scalar df "source_sheet" DObject (Some (VStr sheet_name)) in
  let df := set_scalar df "source_path" DObject (Some (VStr file_path)) in
  set_scalar df "ingestion_timestamp" DDatetime (Some (VTime now)).

(** ** data_sources.py: DataSourceManager.group_files_by_fleet *)

(** A path as pathlib splits it: the anchor (root or drive, empty for a
    relative path) and the segments below it. *)
Record FilePath : Type := mkPath {
  anchor : string;
  segments : list string
}.

(** [path.parts], [path.name], [path.parent.name] and [str(path)]. *)
Definition parts (p : FilePath) : list string :=
  if String.eqb (anchor p) "" then segments p else anchor p :: segments p.

Definition path_name (p : FilePath) : string := last (segments p) "".

Definition parent_name (p : FilePath) : string := last (removelast (segments p)) "".

Definition path_str (p : FilePath) : string :=
  if String.eqb (anchor p) "" && is_nil (segments p) then "."
  else (anchor p ++ join "/" (segments p))%string.

(** The first part that starts with "fleet" in any letter case. *)
Fixpoint first_fleet_part (path_parts : list string) : option string :=
  match path_parts with
  | [] => None
  | part :: rest =>
      if Str.startswith (lower_str part) "fleet" then Some part
      else first_fleet_part rest
  end.

Definition fleet_name_of (file_path : FilePath) : string :=
  match first_fleet_part (parts file_path) with
  | Some fleet_name => fleet_name
  | None => parent_name file_path
  end.

(** [d[k].append(v)], with [d[k] = []] first when the key is new. *)
Fixpoint dict_append {V : Type} (d : list (string * list V)) (k : string) (v : V)
  : list (string * list V) :=
  match d with
  | [] => [(k, [v])]
  | (k', vs) :: t =>
      if String.eqb k' k then (k', vs ++ [v]) :: t else (k', vs) :: dict_append t k v
  end.

Definition group_files_by_fleet (files : list FilePath)
  : list (string * list FilePath) :=
  fold_left (fun fleet_groups file_path =>
               dict_append fleet_groups (fleet_name_of file_path) file_path)
            files [].

(** ** pathlib: the suffix of a name *)

(** [name.rfind(".")], scanning from the left: the position of the last
    full stop seen, from position [k] on. *)
Fixpoint rfind_dot (l : list ascii) (k : nat) (found : option nat) : option nat :=
  match l with
  | [] => found
  | c :: t => rfind_dot t (S k) (if Ascii.eqb c "." then Some k else found)
  end.

(** [PurePath.suffix] on the name: what starts at the last full stop, unless
    that is the first or the last character. *)
Definition suffix_of_name (name : string) : string :=
  let cs := Str.chars name in
  match rfind_dot cs 0 None with
  | Some i =>
      if (0 <? i) && (i <? List.length cs - 1) then Str.of_chars (skipn i cs) else ""
  | None => ""
  end.

(** ** validators.py: validate_file_before_processing *)

(** A path with what the file system says of it. *)
Record FileFacts : Type := mkFacts {
  file_path : FilePath;
  file_exists : bool;
  st_size : nat
}.

Definition file_suffix (file : FileFacts) : string :=
  suffix_of_name (path_name (file_path file)).

Definition excel_suffixes : list string := [".xlsx"; ".xls"].

Definition validate_file_before_processing (file : FileFacts) : bool * list string :=
  if negb (file_exists file)
  then (false, [("File does not exist: " ++ path_str (file_path file))%string])
  else if negb (0 <? st_size file)
  then (false, [("File is empty: " ++ path_str (file_path file))%string])
  else if negb (existsb (String.eqb (lower_str (file_suffix file))) excel_suffixes)
  then (false, [("Unsupported file extension: " ++ file_suffix file)%string])
  else (true, []).

(** ** readers.py: the choice of the reader and of its engine *)

(** [pd.read_excel] with the engine, the file and the sheet asked for. *)
Variable read_excel : string -> FileFacts -> option string -> result decoded.

(** [ExcelReader._get_engine], with the engines of the configuration. *)
Definition get_engine (suffix : string) : string :=
  if String.eqb (lower_str suffix) ".xls" then "xlrd" else "openpyxl".

(** [ExcelReader.read_file]: what the library raises is logged and raised
    again. *)
Definition excel_read_file (file : FileFacts) (sheet_name : option string)
  : result decoded :=
  read_excel (get_engine (file_suffix file)) file sheet_name.

(** [DataReader.read_file] *)
Definition reader_read_file (file : FileFacts) (sheet_name : option string)
  : result decoded :=
  let suffix := lower_str (file_suffix file) in
  if existsb (String.eqb suffix) excel_suffixes
  then excel_read_file file sheet_name
  else Raise ("Unsupported file format: " ++ suffix)%string.

(** ** writers.py: DataWriter *)

(** [df.to_parquet], [df.to_csv] and [df.to_excel]: the kind of file, the
    path and the table. *)
Variable write_table : string -> Path -> DataFrame -> result unit.

(** [PurePath.with_suffix] for a suffix that pathlib accepts, as the three
    of [write_dataframe] are: the old suffix of the name is replaced, a name
    without one is extended. *)
Definition with_suffix (path : Path) (suffix : string) : result Path :=
  let name := last path "" in
  if String.eqb name "" then Raise "PosixPath('.') has an empty name"
  else
    let old_suffix := suffix_of_name name in
    let name :=
      if String.eqb old_suffix "" then (name ++ suffix)%string
      else (Str.of_chars (firstn (String.length name - String.length old_suffix)
                                 (Str.chars name)) ++ suffix)%string in
    Ok (removelast path ++ [name]).

(** [write_dataframe], for a file name of one segment; the format of the
    configuration is "parquet". *)
Definition write_dataframe (output_dir : Path) (df : DataFrame) (filename : string)
           (format_type : option string) : result Path :=
  let format_type :=
    match format_type with
    | Some given => if String.eqb given "" then "parquet" else given
    | None => "parquet"
    end in
  let output_path := output_dir ++ [filename] in
  if String.eqb (lower_str format_type) "parquet" then
    df <- enforce_string_loop (labels df) df ;;
    output_path <- with_suffix output_path ".parquet" ;;
    done <- write_table "parquet" output_path df ;;
    Ok output_path
  else if String.eqb (lower_str format_type) "csv" then
    output_path <- with_suffix output_path ".csv" ;;
    done <- write_table "csv" output_path df ;;
    Ok output_path
  else if String.eqb (lower_str format_type) "excel" then
    output_path <- with_suffix output_path ".xlsx" ;;
    done <- write_table "excel" output_path df ;;
    Ok output_path
  else Raise ("Unsupported format: " ++ format_type)%string.

(** [pd.ExcelWriter] with the sheets written to it, and the flattening of a
    two-level header. *)
Variable write_workbook : Path -> list (string * Stats) -> result unit.
Variable flatten_columns : Stats -> Stats.

Definition write_multiple_sheets (output_dir : Path) (data_dict : list (string * Stats))
           (filename : string) : result Path :=
  let output_path := output_dir ++ [(filename ++ ".xlsx")%string] in
  done <- write_workbook output_path
            (map (fun '(sheet_name, df) => (substring 0 31 sheet_name, df)) data_dict) ;;
  Ok output_path.

(** A value of the summaries: a table, or anything else; the pipeline stores
    the mapping that [calculate_summary_stats] returns. *)
Inductive summary_value : Type :=
| Frame (summary_df : Stats)
| Mapping (sheet_summaries : list (string * Stats)).

Definition write_summary_report (output_dir : Path)
           (summaries : list (string * summary_value)) (fleet_name : string)
  : result (option Path) :=
  let report_data :=
    fold_left (fun report_data '(summary_type, summary_df) =>
                 match summary_df with
                 | Frame summary_df =>
                     dict_set report_data summary_type (flatten_columns summary_df)
                 | Mapping _ => report_data
                 end)
              summaries [] in
  if negb (is_nil report_data)
  then
    output_path <- write_multiple_sheets output_dir report_data (fleet_name ++ "_summary") ;;
    Ok (Some output_path)
  else Ok None.

(** ** pipeline.py: DataIngestionPipeline.process_fleet_files *)

(** [pd.concat(frames, ignore_index=True)], and the text of the error that
    [stat] raises for a path that does not exist. *)
Variable concat : list DataFrame -> result DataFrame.
Variable os_error : FilePath -> string.

(** The start of [process_single_file]: the metadata, which asks the file
    system for the size, and the reader; then the sheets. *)
Definition read_and_process (self : Pipeline) (file : FileFacts) (fleet_name : string)
  : result FileResult * Pipeline :=
  if negb (file_exists file) then (Raise (os_error (file_path file)), self)
  else
    match reader_read_file file None with
    | Raise e => (Raise e, self)
    | Ok excel_data =>
        process_single_file self (path_name (file_path file)) excel_data fleet_name
    end.

(** [d.update(other)] *)
Definition dict_update {V : Type} (d other : list (string * V)) : list (string * V) :=
  fold_left (fun d '(k, v) => dict_set d k v) other d.

(** The loop over the files of a fleet. *)
Fixpoint process_files (self : Pipeline) (fleet_data : list DataFrame)
         (fleet_summaries : list (string * list (string * Stats)))
         (files : list FileFacts) (fleet_name : string)
  : list DataFrame * list (string * list (string * Stats)) * Pipeline :=
  match files with
  | [] => (fleet_data, fleet_summaries, self)
  | file :: rest =>
      match read_and_process self file fleet_name with
      | (Ok file_result, self) =>
          let fleet_data := fleet_data ++ data file_result in
          let fleet_summaries :=
            if negb (is_nil (summaries file_result))
            then dict_update fleet_summaries (summaries file_result)
            else fleet_summaries in
          let stats := processing_stats self in
          let stats :=
            mkStats (files_processed stats + 1) (sheets_processed stats)
                    (total_rows stats) (errors stats) (validation_failures stats) in
          process_files (mkPipeline (validator self) stats) fleet_data fleet_summaries
                        rest fleet_name
      | (Raise e, self) =>
          let stats := processing_stats self in
          let stats :=
            mkStats (files_processed stats) (sheets_processed stats) (total_rows stats)
                    (errors stats ++ [(path_str (file_path file) ++ ": " ++ e)%string])
                    (validation_failures stats) in
          process_files (mkPipeline (validator self) stats) fleet_data fleet_summaries
                        rest fleet_name
      end
  end.

(** What the method returns: the entries of a completed fleet, or the
    status "no_data". *)
Inductive FleetResult : Type :=
| Completed (rows_processed : nat) (output_path : Path) (summary_path : option Path)
            (combined : list DataFrame)
| NoData.

Definition process_fleet_files (self : Pipeline) (output_dir : Path)
           (fleet_name : string) (files : list FileFacts)
  : result FleetResult * Pipeline :=
  let '(fleet_data, fleet_summaries, self) := process_files self [] [] files fleet_name in
  if negb (is_nil fleet_data)
  then
    (combined_df <- concat fleet_data ;;
     fleet_output_path <-
       write_dataframe output_dir combined_df (fleet_name ++ "_combined") None ;;
     summary_path <-
       (if negb (is_nil fleet_summaries)
        then write_summary_report output_dir
               (map (fun '(key, sheet_summaries) => (key, Mapping sheet_summaries))
                    fleet_summaries)
               fleet_name
        else Ok None) ;;
     Ok (Completed (len combined_df) fleet_output_path summary_path [combined_df]),
     self)
  else (Ok NoData, self).

(** ** Vocabulary of the statements *)

(** The registry entry a rule should leave: its own verdict, or a failure
    whose message starts with "Rule execution failed" when it raised. *)
Definition expected_entry (df : DataFrame) (ctx : context) (info : RuleInfo)
  : RuleEntry :=
  match func info df ctx with
  | Ok (passed, message) => mkRuleEntry passed message (description info)
  | Raise e => mkRuleEntry false ("Rule execution failed: " ++ e)%string (description info)
  end.

(** The columns that are metrics by name and numeric by dtype. *)
Definition numeric_metric_columns (df : DataFrame) : list (string * dtype) :=
  filter (fun '(col, d) =>
            existsb (fun keyword => Str.contains keyword (lower_str col)) metric_keywords
            && is_numeric d)
         (columns df).

(** A row has a key when none of its key cells is null. *)
Definition keyed (js : list nat) (r : row) : bool :=
  match row_key js r with
  | Some _ => true
  | None => false
  end.

(** A match of [fleet\s*(\d+)] in [l] that starts after [pre] and captures
    [digits]: the literal, white space, then digits up to the first character
    that is not one. *)
Definition fleet_match_after (l pre digits : list ascii) : Prop :=
  exists ws rest,
    l = pre ++ Str.chars "fleet" ++ ws ++ digits ++ rest
    /\ Forall (fun c => Char.isspace c = true) ws
    /\ Forall (fun c => Char.isdigit c = true) digits
    /\ digits <> []
    /\ Str.head_outside Char.isdigit rest = true.

(** A match of [(\d{4})-(\d{4})] in [l] that starts after [pre]. *)
Definition range_match_after (l pre first second : list ascii) : Prop :=
  exists rest,
    l = pre ++ first ++ "-"%char :: second ++ rest
    /\ List.length first = 4 /\ Forall (fun c => Char.isdigit c = true) first
    /\ List.length second = 4 /\ Forall (fun c => Char.isdigit c = true) second.

(** Every row of the table holds [v] in the column(s) labelled [label], and
    there is such a column. *)
Definition column_is (df : DataFrame) (label : string) (v : cell) : Prop :=
  has_column df label = true
  /\ forall j r, nth_error (labels df) j = Some label -> In r (rows df) ->
                 cell_at j r = v.

(** A decoded sheet of a fleet workbook: two columns, two rows. *)
Definition sheet_example : DataFrame :=
  mkDataFrame [("Bus", DObject); ("Mileage", DObject)]
              [[Some (VStr "7001"); Some (VStr "120")];
               [Some (VStr "7002"); Some (VStr "95")]].

(** A history of three validations of which two passed. *)
Definition result_example (passed : bool) : ValidationResults :=
  mkResults [] (2, 3) ["bus"; "mileage"; "fleet_number"] [] passed [] [].

Definition history_example : DataValidator :=
  mkValidator [] [result_example true; result_example false; result_example true].

(** A table whose [fleet_number] column holds "5", "1000" and "abc". *)
Definition fleet_numbers_example : DataFrame :=
  mkDataFrame [("bus", DInt64); ("fleet_number", DObject)]
              [[Some (VNum 1); Some (VStr "5")];
               [Some (VNum 2); Some (VStr "1000")];
               [Some (VNum 3); Some (VStr "abc")]].

(** A normalized table whose only metric column holds text. *)
Definition fuel_type_example : DataFrame :=
  mkDataFrame [("bus", DInt64); ("fuel_type", DString); ("fleet_number", DString)]
              [[Some (VNum 7001); Some (VStr "diesel"); Some (VStr "12")];
               [Some (VNum 7002); Some (VStr "hybrid"); Some (VStr "12")]].

(** A consolidated dataset of three fleet rows, and one with a row whose
    fleet number is null. *)
Definition dataset_example : DataFrame :=
  mkDataFrame [("fleet_number", DString); ("mileage", DInt64)]
              [[Some (VStr "1"); Some (VNum 10)];
               [Some (VStr "2"); Some (VNum 20)];
               [Some (VStr "1"); Some (VNum 30)]].

Definition dataset_with_null : DataFrame :=
  mkDataFrame [("fleet_number", DString); ("mileage", DInt64)]
              [[Some (VStr "1"); Some (VNum 10)];
               [None; Some (VNum 40)]].

(** A raw header with two labels of the same canonical form and one that is
    empty. *)
Definition raw_header_example : DataFrame :=
  mkDataFrame [("A", DObject); ("a", DObject); ("", DObject)] [].

(** A rule that raises, between two that return. *)
Definition registry_example : DataValidator :=
  let self := add_rule new_validator "first" (fun _ _ => Ok (true, "fine")) "returns" in
  let self := add_rule self "second" (fun _ _ => Raise "boom") "raises" in
  add_rule self "third" (fun _ _ => Ok (false, "too few rows")) "returns".

(** Stand-ins for the library functions, where a closed statement needs
    them; none of the results below depends on what they return. *)
Definition str_stub : value -> string := fun _ => "".
Definition number_stub : Q -> string := fun _ => "".
Definition template_stub : string -> string -> string := fun template _ => template.



(** The tables of a decoded workbook. *)
Definition sheets_of (excel_data : decoded) : list DataFrame :=
  match excel_data with
  | Sheets sheets => map snd sheets
  | SingleSheet df => [df]
  end.

(** The validations of a list that did not pass. *)
Definition failed_validations (history : list ValidationResults) : nat :=
  List.length (filter (fun v => negb (res_passed v)) history).

(** What processing sheets does to the pipeline and to the lists it fills:
    no file is counted and no error recorded, the rules stay, the history
    grows by [new], whose failures are counted; sheets and rows are counted
    for the tables added, and a step that raises leaves at most one
    validation without its table. *)
Definition accounted (before after : Pipeline) (acc : FileResult)
           (res : result FileResult) (new : list ValidationResults) (bound : nat) : Prop :=
  files_processed (processing_stats after) = files_processed (processing_stats before)
  /\ errors (processing_stats after) = errors (processing_stats before)
  /\ validation_rules (validator after) = validation_rules (validator before)
  /\ validation_results (validator after) = validation_results (validator before) ++ new
  /\ validation_failures (processing_stats after)
     = validation_failures (processing_stats before) + failed_validations new
  /\ match res with
     | Ok r =>
         file_validation_results r = file_validation_results acc ++ new
         /\ exists tables,
              data r = data acc ++ tables
              /\ List.length tables = List.length new
              /\ List.length tables <= bound
              /\ sheets_processed (processing_stats after)
                 = sheets_processed (processing_stats before) + List.length tables
              /\ total_rows (processing_stats after)
                 = total_rows (processing_stats before) + list_sum (map len tables)
     | Raise _ =>
         exists done,
           sheets_processed (processing_stats after)
           = sheets_processed (processing_stats before) + done
           /\ done <= List.length new <= done + 1
           /\ total_rows (processing_stats before) <= total_rows (processing_stats after)
     end.

(** No column of the sheet is called [source_file] once it is cleaned. *)
Definition lacks_source_file (df : DataFrame) : Prop :=
  existsb (String.eqb "source_file")
          (clean_names (labels (remove_empty_rows_columns df))) = false.

(** More stand-ins: a date parser that leaves every column as it is, a
    library that reads the example sheet under the name of the engine it was
    given, writers that succeed, and a concatenation that is right for one
    table. *)
Definition series_stub : Series -> Series := fun s => s.
Definition repr_stub : list string -> string := fun _ => "".
Definition counts_stub : list dtype -> string := fun _ => "".
Definition read_stub : string -> FileFacts -> option string -> result decoded :=
  fun engine _ _ => Ok (Sheets [(engine, sheet_example)]).
Definition write_stub : string -> Path -> DataFrame -> result unit := fun _ _ _ => Ok tt.
Definition workbook_stub : Path -> list (string * unit) -> result unit := fun _ _ => Ok tt.
Definition concat_stub : list DataFrame -> result DataFrame :=
  fun frames => Ok (hd sheet_example frames).
Definition os_error_stub : FilePath -> string := fun _ => "".

(** Two files that exist and are not empty: an old Excel workbook with its
    suffix in capitals, and a file that is no workbook. *)
Definition xls_file_example : FileFacts :=
  mkFacts (mkPath "" ["raw"; "Fleet 12"; "data.XLS"]) true 10.

Definition csv_file_example : FileFacts :=
  mkFacts (mkPath "" ["raw"; "notes.csv"]) true 10.


(** A table without columns. *)
Definition no_columns_example : DataFrame := mkDataFrame [] [[]; []].

(** * Properties *)

(** Proofs that do not concern the library functions drop them first. *)
Ltac without_library :=
  try clear os_error;
  try clear concat;
  try clear flatten_columns;
  try clear write_workbook;
  try clear write_table;
  try clear read_excel;
  try clear format_template; try clear groupby_describe; try clear describe;
  try clear Stats; try clear repr_type_counts; try clear format_number;
  try clear format_percent; try clear repr_list; try clear py_str;
  try clear to_datetime_ignore.


(** ** Characters *)

Lemma lower_idempotent (c : ascii) : Char.lower (Char.lower c) = Char.lower c.
Proof. destruct c as [[] [] [] [] [] [] [] []]; reflexivity. Qed.

Lemma isword_not_isspace (c : ascii) :
  Char.isword c = true -> Char.isspace c = false.
Proof. destruct c as [[] [] [] [] [] [] [] []]; vm_compute; congruence. Qed.

Lemma isunderscore_spec (c : ascii) :
  Char.isunderscore c = true <-> c = underscore.
Proof.
  split.
  - destruct c as [[] [] [] [] [] [] [] []]; vm_compute; congruence.
  - intros ->. reflexivity.
Qed.

Lemma isdigit_props (c : ascii) :
  Char.isdigit c = true ->
  Char.isword c = true /\ Char.lower c = c /\ Char.isunderscore c = false
  /\ Char.isspace c = false.
Proof. destruct c as [[] [] [] [] [] [] [] []]; vm_compute; intuition congruence. Qed.

(** ** Stripping and run replacement *)

Section StringLemmas.

Variable p : ascii -> bool.

Lemma lstrip_idempotent l : Str.lstrip p (Str.lstrip p l) = Str.lstrip p l.
Proof.
  induction l as [|c t IH]; simpl; auto.
  destruct (p c) eqn:E; auto. simpl. now rewrite E.
Qed.

Lemma rstrip_cons c t :
  Str.rstrip p (c :: t) =
  match Str.rstrip p t with
  | [] => if p c then [] else [c]
  | t' => c :: t'
  end.
Proof. reflexivity. Qed.

Lemma rstrip_idempotent l : Str.rstrip p (Str.rstrip p l) = Str.rstrip p l.
Proof.
  induction l as [|c t IH]; auto.
  rewrite rstrip_cons.
  destruct (Str.rstrip p t) as [|x r] eqn:E.
  - destruct (p c) eqn:Ec; auto. simpl. now rewrite Ec.
  - rewrite rstrip_cons, IH. reflexivity.
Qed.

Lemma lstrip_rstrip_comm l :
  Str.lstrip p (Str.rstrip p l) = Str.rstrip p (Str.lstrip p l).
Proof.
  induction l as [|c t IH]; auto.
  rewrite rstrip_cons. simpl Str.lstrip at 2.
  destruct (p c) eqn:Ec.
  - destruct (Str.rstrip p t) as [|x r] eqn:E.
    + simpl in IH. now rewrite <- IH.
    + rewrite <- IH. simpl. now rewrite Ec.
  - rewrite rstrip_cons.
    destruct (Str.rstrip p t) as [|x r] eqn:E; simpl; now rewrite Ec.
Qed.

Lemma strip_idempotent l : Str.strip p (Str.strip p l) = Str.strip p l.
Proof.
  unfold Str.strip.
  now rewrite lstrip_rstrip_comm, lstrip_idempotent, rstrip_idempotent.
Qed.

Lemma lstrip_none l :
  Forall (fun c => p c = false) l -> Str.lstrip p l = l.
Proof. destruct 1 as [|c t Hc _]; simpl; auto. now rewrite Hc. Qed.

Lemma rstrip_none l :
  Forall (fun c => p c = false) l -> Str.rstrip p l = l.
Proof.
  induction 1 as [|c t Hc _ IH]; auto.
  rewrite rstrip_cons, IH, Hc. now destruct t.
Qed.

Lemma strip_none l :
  Forall (fun c => p c = false) l -> Str.strip p l = l.
Proof.
  intros H. unfold Str.strip. rewrite (lstrip_none _ H). now apply rstrip_none.
Qed.

Variable P : ascii -> Prop.

Lemma Forall_lstrip l : Forall P l -> Forall P (Str.lstrip p l).
Proof.
  induction 1 as [|c t Hc Ht IH]; simpl; auto.
  destruct (p c); auto.
Qed.

Lemma Forall_rstrip l : Forall P l -> Forall P (Str.rstrip p l).
Proof.
  induction 1 as [|c t Hc Ht IH]; auto.
  rewrite rstrip_cons.
  destruct (Str.rstrip p t); [destruct (p c)|]; auto.
Qed.

Lemma Forall_strip l : Forall P l -> Forall P (Str.strip p l).
Proof. intros H. now apply Forall_rstrip, Forall_lstrip. Qed.

Lemma Forall_sub_runs r b l :
  P r -> Forall P l -> Forall P (Str.sub_runs p r b l).
Proof.
  intros Hr H. revert b.
  induction H as [|c t Hc Ht IH]; intros b; simpl; auto.
  destruct (p c); [destruct b|]; auto.
Qed.

Lemma sub_runs_none r b l :
  Forall (fun c => p c = false) l -> Str.sub_runs p r b l = l.
Proof.
  intros H. revert b.
  induction H as [|c t Hc Ht IH]; intros b; simpl; auto.
  now rewrite Hc, IH.
Qed.

Lemma sub_runs_no_adjacent r l :
  p r = true ->
  forall b, Str.no_adjacent p (Str.sub_runs p r b l) = true
            /\ (b = true -> Str.head_outside p (Str.sub_runs p r b l) = true).
Proof.
  intros Hr. induction l as [|c t IH]; intros b; simpl.
  - split; auto.
  - destruct (p c) eqn:Ec.
    + destruct b.
      * apply IH.
      * split; [|discriminate].
        destruct (IH true) as [H1 H2]. specialize (H2 eq_refl).
        simpl. destruct (Str.sub_runs p r true t) as [|x u]; auto.
        simpl in H2. rewrite Hr. apply negb_true_iff in H2. rewrite H2.
        simpl. exact H1.
    + split.
      * destruct (IH false) as [H1 _].
        simpl. destruct (Str.sub_runs p r false t) as [|x u]; auto.
        rewrite Ec. simpl. exact H1.
      * intros _. simpl. now rewrite Ec.
Qed.

Lemma sub_runs_fixed r l :
  (forall c, p c = true -> c = r) ->
  forall b, Str.no_adjacent p l = true -> (b = true -> Str.head_outside p l = true) ->
            Str.sub_runs p r b l = l.
Proof.
  intros Hp. induction l as [|c t IH]; intros b Hn Hh; auto.
  simpl. destruct (p c) eqn:Ec.
  - destruct b.
    + specialize (Hh eq_refl). simpl in Hh. rewrite Ec in Hh. discriminate.
    + f_equal; [symmetry; now apply Hp|].
      apply IH.
      * simpl in Hn. destruct t; auto. now apply andb_true_iff in Hn.
      * intros _. simpl in Hn. destruct t as [|x u]; auto.
        apply andb_true_iff in Hn. destruct Hn as [Hn _].
        rewrite Ec in Hn. simpl in *. exact Hn.
  - f_equal. apply IH.
    + simpl in Hn. destruct t; auto. now apply andb_true_iff in Hn.
    + discriminate.
Qed.

Lemma no_adjacent_tail c t : Str.no_adjacent p (c :: t) = true -> Str.no_adjacent p t = true.
Proof. simpl. destruct t; auto. intros H. now apply andb_true_iff in H. Qed.

Lemma no_adjacent_lstrip l :
  Str.no_adjacent p l = true -> Str.no_adjacent p (Str.lstrip p l) = true.
Proof.
  induction l as [|c t IH]; auto.
  intros H. simpl Str.lstrip. destruct (p c); auto.
  apply IH. now apply no_adjacent_tail in H.
Qed.

Lemma rstrip_head l x r :
  Str.rstrip p l = x :: r -> exists t, l = x :: t.
Proof.
  destruct l as [|c t]; [discriminate|].
  rewrite rstrip_cons.
  destruct (Str.rstrip p t); [destruct (p c)|]; intros H; inversion H; eauto.
Qed.

Lemma no_adjacent_rstrip l :
  Str.no_adjacent p l = true -> Str.no_adjacent p (Str.rstrip p l) = true.
Proof.
  induction l as [|c t IH]; auto.
  intros H. rewrite rstrip_cons.
  destruct (Str.rstrip p t) as [|x r] eqn:E.
  - now destruct (p c).
  - specialize (IH (no_adjacent_tail _ _ H)).
    destruct (rstrip_head _ _ _ E) as [u ->].
    simpl in H. apply andb_true_iff in H. destruct H as [H _].
    change (negb (p c && p x) && Str.no_adjacent p (x :: r) = true).
    now rewrite H, IH.
Qed.

End StringLemmas.

(** ** Canonical column names *)

Lemma Forall_filter_both (P : ascii -> Prop) (f : ascii -> bool) l :
  Forall P l -> Forall (fun c => f c = true /\ P c) (filter f l).
Proof.
  induction 1 as [|c t Hc Ht IH]; simpl; auto.
  destruct (f c) eqn:E; auto.
Qed.

Lemma filter_all (f : ascii -> bool) l :
  Forall (fun c => f c = true) l -> filter f l = l.
Proof.
  induction 1 as [|c t Hc Ht IH]; simpl; auto. now rewrite Hc, IH.
Qed.

Lemma clean_chars_canonical l : canonical (clean_chars l).
Proof.
  unfold clean_chars, Str.delete_outside, Str.lower.
  set (s1 := Str.strip Char.isspace (map Char.lower l)).
  set (s2 := Str.sub_runs Char.isspace underscore false s1).
  set (s3 := filter Char.isword s2).
  set (s4 := Str.sub_runs Char.isunderscore underscore false s3).
  assert (L1 : Forall (fun c => Char.lower c = c) s1).
  { apply Forall_strip. apply Forall_forall. intros c Hc.
    apply in_map_iff in Hc. destruct Hc as [x [<- _]]. apply lower_idempotent. }
  assert (L2 : Forall (fun c => Char.lower c = c) s2).
  { apply Forall_sub_runs; auto. }
  assert (L3 : Forall (fun c => Char.isword c = true /\ Char.lower c = c) s3).
  { now apply Forall_filter_both. }
  assert (L4 : Forall (fun c => Char.isword c = true /\ Char.lower c = c) s4).
  { apply Forall_sub_runs; auto. }
  repeat split.
  - now apply Forall_strip.
  - apply no_adjacent_rstrip, no_adjacent_lstrip.
    now apply sub_runs_no_adjacent.
  - apply strip_idempotent.
Qed.

Lemma clean_chars_fixed l : canonical l -> clean_chars l = l.
Proof.
  intros (Hw & Hadj & Hstrip).
  assert (Hlow : map Char.lower l = l).
  { clear Hadj Hstrip. induction Hw as [|c t [_ Hc] _ IH]; simpl; auto.
    now rewrite Hc, IH. }
  assert (Hsp : Forall (fun c => Char.isspace c = false) l).
  { eapply Forall_impl; [|exact Hw]. intros c [H _]. now apply isword_not_isspace. }
  assert (Hword : Forall (fun c => Char.isword c = true) l).
  { eapply Forall_impl; [|exact Hw]. now intros c [H _]. }
  unfold clean_chars, Str.delete_outside, Str.lower.
  rewrite Hlow, (strip_none _ _ Hsp), (sub_runs_none _ _ _ _ Hsp),
    (filter_all _ _ Hword).
  rewrite sub_runs_fixed; auto.
  - intros c Hc. now apply isunderscore_spec.
  - discriminate.
Qed.

Lemma clean_chars_idempotent l : clean_chars (clean_chars l) = clean_chars l.
Proof. apply clean_chars_fixed, clean_chars_canonical. Qed.

Lemma chars_of_chars l : Str.chars (Str.of_chars l) = l.
Proof. apply list_ascii_of_string_of_list_ascii. Qed.

Lemma of_chars_chars s : Str.of_chars (Str.chars s) = s.
Proof. apply string_of_list_ascii_of_string. Qed.

Lemma clean_col_fixed s : canonical (Str.chars s) -> clean_col s = s.
Proof.
  intros H. unfold clean_col. rewrite (clean_chars_fixed _ H). apply of_chars_chars.
Qed.

(** The digits of [str(n)]. *)
Lemma string_of_uint_digits d :
  Forall (fun c => Char.isdigit c = true) (Str.chars (DecimalString.NilEmpty.string_of_uint d)).
Proof. induction d; simpl; constructor; auto. Qed.

Lemma string_of_uint_nonempty d : d <> Decimal.Nil -> DecimalString.NilEmpty.string_of_uint d <> "".
Proof. destruct d; simpl; congruence. Qed.

Lemma to_uint_nonnil n : Nat.to_uint n <> Decimal.Nil.
Proof.
  pose proof (DecimalNat.Unsigned.to_of (Nat.to_uint n)) as H.
  rewrite DecimalNat.Unsigned.of_to in H. rewrite H. apply DecimalFacts.unorm_nonnil.
Qed.

Lemma of_nat_injective m n : Str.of_nat m = Str.of_nat n -> m = n.
Proof.
  unfold Str.of_nat. intros H.
  apply (f_equal DecimalString.NilEmpty.uint_of_string) in H.
  rewrite !DecimalString.NilEmpty.usu in H. injection H as H.
  apply (f_equal Nat.of_uint) in H. now rewrite !DecimalNat.Unsigned.of_to in H.
Qed.

Lemma chars_app s t : Str.chars (s ++ t) = Str.chars s ++ Str.chars t.
Proof.
  unfold Str.chars. induction s as [|c s IH]; simpl; auto. now rewrite IH.
Qed.

Lemma rstrip_app_outside p l c :
  p c = false -> forall m, Forall (fun x => p x = false) m ->
  Str.rstrip p (l ++ c :: m) = l ++ c :: m.
Proof.
  intros Hc m Hm. induction l as [|x l IH].
  - apply rstrip_none. constructor; auto.
  - rewrite <- app_comm_cons, rstrip_cons, IH. now destruct l.
Qed.

Lemma no_adjacent_outside p c t :
  p c = false -> Str.no_adjacent p (c :: t) = Str.no_adjacent p t.
Proof. intros H. simpl. rewrite H. now destruct t. Qed.

Lemma no_adjacent_before_outside p c1 c2 t :
  p c2 = false -> Str.no_adjacent p (c1 :: c2 :: t) = Str.no_adjacent p (c2 :: t).
Proof.
  intros H. change (negb (p c1 && p c2) && Str.no_adjacent p (c2 :: t)
                    = Str.no_adjacent p (c2 :: t)).
  rewrite H, andb_false_r. reflexivity.
Qed.

Lemma no_adjacent_none p l :
  Forall (fun c => p c = false) l -> Str.no_adjacent p l = true.
Proof.
  induction 1 as [|c t Hc _ IH]; auto. now rewrite no_adjacent_outside.
Qed.

Lemma fallback_name_canonical n : canonical (Str.chars (fallback_name n)).
Proof.
  unfold fallback_name. rewrite chars_app.
  pose proof (string_of_uint_digits (Nat.to_uint n)) as Hd.
  fold (Str.of_nat n) in Hd.
  assert (Hne : Str.chars (Str.of_nat n) <> []).
  { intros E. apply (f_equal Str.of_chars) in E. rewrite of_chars_chars in E.
    revert E. apply string_of_uint_nonempty, to_uint_nonnil. }
  destruct (Str.chars (Str.of_nat n)) as [|d ds]; [congruence|].
  assert (Hd' : Forall (fun c => Char.isword c = true /\ Char.lower c = c
                                 /\ Char.isunderscore c = false) (d :: ds)).
  { eapply Forall_impl; [|exact Hd]. intros c Hc.
    destruct (isdigit_props c Hc) as (? & ? & ? & ?). auto. }
  repeat split.
  - simpl. repeat (constructor; [split; reflexivity|]).
    eapply Forall_impl; [|exact Hd']. intros c (? & ? & ?). auto.
  - change (Str.chars "col_" ++ d :: ds)
      with ("c" :: "o" :: "l" :: "_" :: d :: ds)%char.
    assert (Hu : Forall (fun c => Char.isunderscore c = false) (d :: ds)).
    { eapply Forall_impl; [|exact Hd']. now intros c (_ & _ & ?). }
    rewrite !no_adjacent_outside by reflexivity.
    rewrite no_adjacent_before_outside by now inversion Hu.
    now apply no_adjacent_none.
  - change (Str.chars "col_" ++ d :: ds)
      with (("c" :: "o" :: "l" :: "_" :: nil)%char ++ d :: ds).
    inversion Hd' as [|? ? (_ & _ & Hu) Hds]; subst.
    unfold Str.strip.
    replace (Str.lstrip Char.isunderscore (["c"; "o"; "l"; "_"]%char ++ d :: ds))
      with (["c"; "o"; "l"; "_"]%char ++ d :: ds) by reflexivity.
    apply rstrip_app_outside; auto.
    eapply Forall_impl; [|exact Hds]. now intros c (_ & _ & ?).
Qed.

Lemma clean_loop_spec cols : forall acc,
  clean_loop cols acc =
  acc ++ map (fun '(i, col) => name_at i col)
             (combine (seq (List.length acc) (List.length cols)) cols).
Proof.
  induction cols as [|col rest IH]; intros acc; simpl.
  - now rewrite app_nil_r.
  - rewrite IH, length_app, <- app_assoc. simpl.
    now rewrite Nat.add_1_r.
Qed.

Lemma clean_names_spec cols :
  clean_names cols =
  map (fun '(i, col) => name_at i col) (combine (seq 0 (List.length cols)) cols).
Proof. unfold clean_names. now rewrite clean_loop_spec. Qed.

Lemma clean_names_length cols : List.length (clean_names cols) = List.length cols.
Proof.
  rewrite clean_names_spec, length_map, length_combine, length_seq.
  apply Nat.min_id.
Qed.

Lemma nth_indexed (A B : Type) (f : nat -> A -> B) (da : A) (db : B) l :
  forall start i, i < List.length l ->
  nth i (map (fun '(k, a) => f k a) (combine (seq start (List.length l)) l)) db
  = f (start + i) (nth i l da).
Proof.
  induction l as [|a l IH]; intros start i Hi; simpl in *; [lia|].
  destruct i as [|i].
  - now rewrite Nat.add_0_r.
  - rewrite IH by lia. f_equal. lia.
Qed.

Lemma clean_names_nth cols i :
  i < List.length cols ->
  nth i (clean_names cols) "" = name_at i (nth i cols "").
Proof.
  intros Hi. rewrite clean_names_spec.
  now rewrite (nth_indexed _ _ name_at "" "" cols 0 i Hi).
Qed.

Lemma labels_clean_column_names df :
  labels (clean_column_names df) = clean_names (labels df).
Proof.
  unfold labels at 1, clean_column_names. simpl.
  assert (H : List.length (clean_names (labels df)) = List.length (dtypes df)).
  { rewrite clean_names_length. unfold labels, dtypes. now rewrite !length_map. }
  revert H. generalize (clean_names (labels df)) (dtypes df).
  induction l as [|a l IH]; intros [|d ds] H; simpl in *; try discriminate; auto.
  f_equal. apply IH. lia.
Qed.

Lemma fallback_name_injective i j : fallback_name i = fallback_name j -> i = j.
Proof.
  unfold fallback_name. intros H.
  apply of_nat_injective.
  simpl in H. now repeat injection H as H.
Qed.

Lemma fallback_name_nonempty i : fallback_name i <> "".
Proof. unfold fallback_name. simpl. discriminate. Qed.

Lemma name_at_canonical i col :
  canonical (Str.chars (name_at i col)) /\ name_at i col <> "".
Proof.
  unfold name_at. destruct (String.eqb (clean_col col) "") eqn:E.
  - split; [apply fallback_name_canonical | apply fallback_name_nonempty].
  - split.
    + unfold clean_col. rewrite chars_of_chars. apply clean_chars_canonical.
    + now apply String.eqb_neq.
Qed.

Lemma name_at_fixed i s :
  canonical (Str.chars s) -> s <> "" -> name_at i s = s.
Proof.
  intros Hc Hne. unfold name_at. rewrite (clean_col_fixed _ Hc).
  apply String.eqb_neq in Hne. now rewrite Hne.
Qed.

Lemma clean_loop_fixed cols : forall acc,
  Forall (fun s => canonical (Str.chars s) /\ s <> "") cols ->
  clean_loop cols acc = acc ++ cols.
Proof.
  induction cols as [|col rest IH]; intros acc H; simpl.
  - now rewrite app_nil_r.
  - inversion H as [|? ? [Hc Hne] Hrest]; subst.
    rewrite IH by assumption.
    fold (name_at (List.length acc) col).
    rewrite (name_at_fixed _ _ Hc Hne), <- app_assoc. reflexivity.
Qed.

Lemma clean_names_canonical cols :
  Forall (fun s => canonical (Str.chars s) /\ s <> "") (clean_names cols).
Proof.
  rewrite clean_names_spec. apply Forall_forall. intros s Hs.
  apply in_map_iff in Hs. destruct Hs as [[i col] [<- _]].
  apply name_at_canonical.
Qed.

(** C9. Canonicalizing a column name twice gives what canonicalizing it once
    gives: for every label [s], [clean_col (clean_col s) = clean_col s]; and
    the same holds for the whole header, fallback names included. *)
Theorem clean_col_idempotent :
  (forall s : string, clean_col (clean_col s) = clean_col s)
  /\ (forall cols : list string, clean_names (clean_names cols) = clean_names cols).
Proof.
  split.
  - intros s. unfold clean_col. rewrite chars_of_chars.
    now rewrite clean_chars_idempotent.
  - intros cols. unfold clean_names at 1.
    now rewrite clean_loop_fixed by apply clean_names_canonical.
Qed.

(** C5, as the code has it. The header keeps its length and order; position
    [i] gets the canonical form of its label, or [col_<i>] when that form is
    empty; two fallback names never coincide.  Labels with the same canonical
    form are not told apart. *)
Theorem clean_column_names_labels (df : DataFrame) :
  let old := labels df in
  let new := labels (clean_column_names df) in
  List.length new = List.length old
  /\ (forall i, i < List.length old -> nth i new "" = name_at i (nth i old ""))
  /\ (forall i j, i < List.length old -> j < List.length old -> i <> j ->
        clean_col (nth i old "") = "" -> clean_col (nth j old "") = "" ->
        nth i new "" <> nth j new "").
Proof.
  cbv zeta. rewrite labels_clean_column_names.
  split; [apply clean_names_length|]. split.
  - intros i Hi. now apply clean_names_nth.
  - intros i j Hi Hj Hij Ei Ej.
    rewrite !clean_names_nth by assumption.
    unfold name_at. rewrite Ei, Ej. simpl.
    intros H. apply Hij. now apply fallback_name_injective.
Qed.

(** ** Validation summary *)

(** C2, as the code has it. With [n > 0] results in the history, [p] of them
    passed, the summary is total [n], passed [p], failed [n - p] and pass rate
    [p / n]; with an empty history it is the single entry
    [total_validations = 0], without [passed], [failed] or [pass_rate]. *)
Theorem get_validation_summary_spec (self : DataValidator) :
  let n := List.length (validation_results self) in
  let p := List.length (filter res_passed (validation_results self)) in
  (0 < n ->
   get_validation_summary self =
   [("total_validations", PInt (Z.of_nat n));
    ("passed", PInt (Z.of_nat p));
    ("failed", PInt (Z.of_nat n - Z.of_nat p));
    ("pass_rate", PFloat (Z.of_nat p # Pos.of_nat n))])
  /\ (n = 0 ->
      get_validation_summary self = [("total_validations", PInt 0)]
      /\ dict_get (get_validation_summary self) "pass_rate" = None).
Proof.
  cbv zeta. unfold get_validation_summary.
  destruct (validation_results self) as [|r rs] eqn:E.
  - split; [simpl; lia|]. intros _. split; reflexivity.
  - split; [|discriminate]. intros _.
    cbv [is_nil].
    replace (0 <? List.length (r :: rs)) with true; [reflexivity|].
    symmetry. apply Nat.ltb_lt. simpl. lia.
Qed.

(** ** The fleet number rule *)

Lemma existsb_positions_from label ls : forall k,
  existsb (String.eqb label) ls = negb (is_nil (positions_from label ls k)).
Proof.
  induction ls as [|l t IH]; intros k; cbn [existsb positions_from]; auto.
  rewrite (String.eqb_sym label l).
  destruct (String.eqb l label); auto.
Qed.

Lemma has_column_positions df label :
  has_column df label = negb (is_nil (positions df label)).
Proof. apply existsb_positions_from. Qed.

Lemma valid_fleet_numbers_unparsed df ctx j cells :
  positions df "fleet_number" = [j] ->
  dropna (column_cells j df) = cells ->
  cells <> [] ->
  existsb (fun b => b) (map isnull (s_cells (to_numeric_coerce (mkSeries (nth j (dtypes df) DObject) cells)))) = true ->
  valid_fleet_numbers df ctx =
  Ok (false,
      ("Invalid fleet number format in "
         ++ Str.of_nat (count_true (map isnull (s_cells (to_numeric_coerce (mkSeries (nth j (dtypes df) DObject) cells)))))
         ++ " rows")%string).
Proof.
  intros Hpos Hcells Hne Hbad.
  unfold valid_fleet_numbers.
  assert (Hhas : has_column df "fleet_number" = true).
  { now rewrite has_column_positions, Hpos. }
  rewrite Hhas, Hpos. cbn [negb]. rewrite Hcells.
  cbn [s_cells]. destruct cells as [|c cs]; [congruence|]. cbn [is_nil].
  rewrite Hbad. reflexivity.
Qed.

(** C3, as the code has it. On a table whose [fleet_number] column holds the
    non-null values "5", "1000" and "abc", the rule fails at its format check
    and reports one row, the one that is not a number; the range check is
    reached only when every value parses. *)
Theorem valid_fleet_numbers_example (df : DataFrame) (ctx : context) (j : nat) :
  positions df "fleet_number" = [j] ->
  dropna (column_cells j df)
  = [Some (VStr "5"); Some (VStr "1000"); Some (VStr "abc")] ->
  valid_fleet_numbers df ctx = Ok (false, "Invalid fleet number format in 1 rows").
Proof.
  intros Hpos Hcells.
  rewrite (valid_fleet_numbers_unparsed df ctx j _ Hpos Hcells); [reflexivity| |].
  - discriminate.
  - reflexivity.
Qed.

(** ** Summary statistics *)

Lemma positions_from_spec label ls : forall k j,
  In j (positions_from label ls k) ->
  k <= j /\ nth_error ls (j - k) = Some label.
Proof.
  induction ls as [|l t IH]; intros k j H; cbn [positions_from] in H; [easy|].
  destruct (String.eqb l label) eqn:E.
  - destruct H as [<- | H].
    + rewrite Nat.sub_diag. apply String.eqb_eq in E. subst. auto.
    + apply IH in H. destruct H as [Hle Hn]. split; [lia|].
      replace (j - k) with (S (j - S k)) by lia. exact Hn.
  - apply IH in H. destruct H as [Hle Hn]. split; [lia|].
    replace (j - k) with (S (j - S k)) by lia. exact Hn.
Qed.

Lemma positions_spec df label j :
  In j (positions df label) -> nth_error (labels df) j = Some label.
Proof.
  intros H. apply positions_from_spec in H. now rewrite Nat.sub_0_r in H.
Qed.

Lemma nth_error_labels df j label :
  nth_error (labels df) j = Some label ->
  exists d, nth_error (columns df) j = Some (label, d).
Proof.
  unfold labels. rewrite nth_error_map.
  destruct (nth_error (columns df) j) as [[l d]|]; simpl; [|discriminate].
  intros H. injection H as ->. eauto.
Qed.

Lemma select_mask_all_false (A : Type) (mask : list bool) (l : list A) :
  Forall (fun b => b = false) mask -> select_mask mask l = [].
Proof.
  intros H. revert l. induction H as [|b m Hb _ IH]; intros [|a l]; simpl; auto.
  now rewrite Hb.
Qed.

Lemma no_numeric_metric_empty df :
  numeric_metric_columns df = [] ->
  empty (select_dtypes_number (select_columns df (identify_performance_metrics df))) = true.
Proof.
  intros Hnone. unfold empty, select_dtypes_number. cbn [columns].
  rewrite select_mask_all_false; [reflexivity|].
  apply Forall_forall. intros b Hb.
  apply in_map_iff in Hb. destruct Hb as [d [<- Hd]].
  unfold dtypes, select_columns in Hd. cbn [columns] in Hd.
  apply in_map_iff in Hd. destruct Hd as [[l d'] [Hsnd Hin]]. simpl in Hsnd. subst d'.
  apply in_map_iff in Hin. destruct Hin as [j [Hnth Hj]].
  apply in_flat_map in Hj. destruct Hj as [col [Hcol Hj]].
  apply positions_spec in Hj.
  destruct (nth_error_labels _ _ _ Hj) as [d0 Hc].
  rewrite (nth_error_nth _ _ _ Hc) in Hnth. injection Hnth as H1 H2. subst l d0.
  unfold identify_performance_metrics in Hcol. apply filter_In in Hcol.
  destruct Hcol as [_ Hmetric].
  destruct (is_numeric d) eqn:En; auto.
  assert (Hin : In (col, d) (numeric_metric_columns df)).
  { unfold numeric_metric_columns. apply filter_In. split.
    - eapply nth_error_In; eauto.
    - now rewrite Hmetric, En. }
  rewrite Hnone in Hin. destruct Hin.
Qed.

(** C4, as the code has it. On a table without a numeric metric column the
    result has no "overall" entry; it is the empty mapping when no column is
    a metric by name, and when no group column is supplied or the one
    supplied is not a column of the table.  No call that can fail is made in
    these cases. *)
Theorem calculate_summary_stats_no_numeric (df : DataFrame) (group_by : option string) :
  numeric_metric_columns df = [] ->
  (forall summaries,
      calculate_summary_stats df group_by = Ok summaries ->
      dict_get summaries "overall" = None)
  /\ (identify_performance_metrics df = [] ->
      calculate_summary_stats df group_by = Ok [])
  /\ (match group_by with
      | Some g => truthy group_by && has_column df g
      | None => false
      end = false ->
      calculate_summary_stats df group_by = Ok []).
Proof.
  intros Hnone. pose proof (no_numeric_metric_empty df Hnone) as Hempty.
  unfold calculate_summary_stats.
  destruct (identify_performance_metrics df) as [|m ms] eqn:Em.
  - cbn [is_nil]. repeat split; auto.
    intros s H. injection H as <-. reflexivity.
  - cbn [is_nil]. rewrite Hempty. cbn [negb]. repeat split.
    + intros s. destruct group_by as [g|].
      * destruct (truthy (Some g) && has_column df g).
        -- destruct (groupby_describe df g (m :: ms)); simpl; [|discriminate].
           intros H. injection H as <-. reflexivity.
        -- intros H. injection H as <-. reflexivity.
      * intros H. injection H as <-. reflexivity.
    + discriminate.
    + destruct group_by as [g|]; auto. now intros ->.
Qed.

(** ** The rule engine *)

Lemma dict_set_fresh (V : Type) (d : list (string * V)) k v :
  ~ In k (keys d) -> dict_set d k v = d ++ [(k, v)].
Proof.
  induction d as [|[k' v'] t IH]; intros H; simpl; auto.
  destruct (String.eqb k' k) eqn:E.
  - apply String.eqb_eq in E. subst. exfalso. apply H. now left.
  - rewrite IH; auto. intros Hin. apply H. now right.
Qed.

Lemma apply_rule_rules df ctx results name info :
  res_rules (apply_rule df ctx results name info)
  = dict_set (res_rules results) name (expected_entry df ctx info).
Proof.
  unfold apply_rule, expected_entry.
  destruct (func info df ctx) as [[passed message]|e]; [|reflexivity].
  destruct passed; cbn [negb]; [reflexivity|].
  now destruct (Str.contains "error" (lower_str message)).
Qed.

Lemma apply_rule_passed df ctx results name info :
  res_passed (apply_rule df ctx results name info)
  = res_passed results && entry_passed (expected_entry df ctx info).
Proof.
  unfold apply_rule, expected_entry.
  destruct (func info df ctx) as [[passed message]|e]; cbn.
  - destruct passed; cbn.
    + now rewrite andb_true_r.
    + destruct (Str.contains "error" (lower_str message)); cbn;
        now rewrite andb_false_r.
  - now rewrite andb_false_r.
Qed.

Lemma run_rules_spec df ctx rules : forall results,
  NoDup (keys rules) ->
  (forall k, In k (keys rules) -> ~ In k (keys (res_rules results))) ->
  res_rules (run_rules rules df ctx results)
  = res_rules results
      ++ map (fun '(name, info) => (name, expected_entry df ctx info)) rules
  /\ res_passed (run_rules rules df ctx results)
     = res_passed results
       && forallb (fun '(_, info) => entry_passed (expected_entry df ctx info)) rules.
Proof.
  induction rules as [|[name info] rest IH]; intros results Hnd Hfresh.
  - simpl. now rewrite app_nil_r, andb_true_r.
  - cbn [run_rules]. inversion Hnd as [|? ? Hnotin Hnd']; subst.
    assert (Hset : res_rules (apply_rule df ctx results name info)
                   = res_rules results ++ [(name, expected_entry df ctx info)]).
    { rewrite apply_rule_rules. apply dict_set_fresh. apply Hfresh. now left. }
    destruct (IH (apply_rule df ctx results name info) Hnd') as [H1 H2].
    { intros k Hk. rewrite Hset. unfold keys. rewrite map_app, in_app_iff.
      intros [Hin | [<- | []]].
      - apply (Hfresh k); [now right | exact Hin].
      - now apply Hnotin. }
    split.
    + rewrite H1, Hset, <- app_assoc. reflexivity.
    + rewrite H2, apply_rule_passed, <- andb_assoc. reflexivity.
Qed.

Lemma keys_dict_set (V : Type) (d : list (string * V)) k v :
  keys (dict_set d k v) = if existsb (String.eqb k) (keys d) then keys d else keys d ++ [k].
Proof.
  induction d as [|[k' v'] t IH]; cbn [dict_set keys map existsb fst]; auto.
  rewrite (String.eqb_sym k k').
  destruct (String.eqb k' k) eqn:E; cbn [orb keys map fst].
  - apply String.eqb_eq in E. now subst.
  - unfold keys in IH. rewrite IH.
    now destruct (existsb (String.eqb k) (map fst t)).
Qed.

(** A registry built by [add_rule] never holds a name twice. *)
Lemma add_rule_NoDup self name rule description :
  NoDup (keys (validation_rules self)) ->
  NoDup (keys (validation_rules (add_rule self name rule description))).
Proof.
  intros H. unfold add_rule. cbn [validation_rules]. rewrite keys_dict_set.
  destruct (existsb (String.eqb name) (keys (validation_rules self))) eqn:E; auto.
  apply NoDup_app; auto.
  - repeat constructor. intros [].
  - intros k Hk [Heq | []]. subst k.
    assert (existsb (String.eqb name) (keys (validation_rules self)) = true);
      [|congruence].
    apply existsb_exists. exists name. split; auto. apply String.eqb_refl.
Qed.

(** C6. Every registered rule is evaluated, in registration order: the rules
    of the result are the registry's names, each with the verdict of its
    rule, or with a failure whose message begins "Rule execution failed" when
    the rule raised; a raising rule does not stop the ones after it.  The
    overall [passed] is the conjunction of the entries, and the result is
    appended to the history. *)
Theorem validate_dataframe_spec (self : DataValidator) (df : DataFrame)
        (ctx : option context) :
  NoDup (keys (validation_rules self)) ->
  let c := match ctx with Some c => c | None => [] end in
  let results := fst (validate_dataframe self df ctx) in
  let self' := snd (validate_dataframe self df ctx) in
  res_rules results
  = map (fun '(name, info) => (name, expected_entry df c info)) (validation_rules self)
  /\ (forall name info e,
        In (name, info) (validation_rules self) ->
        func info df c = Raise e ->
        dict_get (res_rules results) name
        = Some (mkRuleEntry false ("Rule execution failed: " ++ e) (description info)))
  /\ res_passed results = forallb (fun '(_, entry) => entry_passed entry) (res_rules results)
  /\ validation_results self' = validation_results self ++ [results].
Proof.
  intros Hnd. cbv zeta. unfold validate_dataframe. cbn [fst snd].
  set (c := match ctx with Some c => c | None => [] end).
  set (init := mkResults c _ _ [] true [] []).
  destruct (run_rules_spec df c (validation_rules self) init Hnd) as [H1 H2].
  { intros k _ []. }
  cbn [res_rules res_passed init app andb] in H1, H2.
  repeat split.
  - exact H1.
  - intros name info e Hin Hraise. rewrite H1.
    clear H1 H2. induction (validation_rules self) as [|[n i] rest IH]; [easy|].
    cbn [map dict_get].
    inversion Hnd as [|? ? Hnotin Hnd']; subst.
    destruct Hin as [Heq | Hin].
    + injection Heq as -> ->. rewrite String.eqb_refl.
      unfold expected_entry. now rewrite Hraise.
    + destruct (String.eqb n name) eqn:E.
      * apply String.eqb_eq in E. subst. exfalso. apply Hnotin.
        unfold keys. apply in_map_iff. now exists (name, info).
      * now apply IH.
  - rewrite H2, H1. clear. induction (validation_rules self) as [|[n i] rest IH]; auto.
    cbn [map forallb]. now rewrite IH.
Qed.

(** ** The two patterns *)

Lemma prefixb_spec p : forall l,
  Str.prefixb p l = true <-> exists rest, l = p ++ rest.
Proof.
  induction p as [|a p IH]; intros l; simpl.
  - split; eauto.
  - destruct l as [|b l].
    + split; [discriminate | intros [rest H]; discriminate].
    + rewrite andb_true_iff, Ascii.eqb_eq, IH. split.
      * intros [-> [rest ->]]. eauto.
      * intros [rest H]. injection H as -> ->. eauto.
Qed.

Lemma lstrip_split p l :
  exists ws, l = ws ++ Str.lstrip p l
             /\ Forall (fun c => p c = true) ws
             /\ Str.head_outside p (Str.lstrip p l) = true.
Proof.
  induction l as [|c t (ws & H1 & H2 & H3)]; simpl.
  - exists []. auto.
  - destruct (p c) eqn:E.
    + exists (c :: ws). repeat split; auto. simpl. now f_equal.
    + exists []. repeat split; auto. simpl. now rewrite E.
Qed.

Lemma lstrip_app p ws l :
  Forall (fun c => p c = true) ws -> Str.head_outside p l = true ->
  Str.lstrip p (ws ++ l) = l.
Proof.
  induction 1 as [|c ws Hc _ IH]; intros Hl; simpl.
  - destruct l as [|x l]; auto. simpl in *. apply negb_true_iff in Hl. now rewrite Hl.
  - rewrite Hc. now apply IH.
Qed.

Lemma take_while_split p l :
  exists rest, l = take_while p l ++ rest
               /\ Forall (fun c => p c = true) (take_while p l)
               /\ Str.head_outside p rest = true.
Proof.
  induction l as [|c t (rest & H1 & H2 & H3)]; simpl.
  - exists []. auto.
  - destruct (p c) eqn:E.
    + exists rest. repeat split; auto. simpl. now f_equal.
    + exists (c :: t). repeat split; auto. simpl. now rewrite E.
Qed.

Lemma take_while_app p d rest :
  Forall (fun c => p c = true) d -> Str.head_outside p rest = true ->
  take_while p (d ++ rest) = d.
Proof.
  induction 1 as [|c d Hc _ IH]; intros Hr; simpl.
  - destruct rest as [|x r]; auto. simpl in *. apply negb_true_iff in Hr. now rewrite Hr.
  - rewrite Hc. f_equal. now apply IH.
Qed.

Lemma isdigit_not_isspace c : Char.isdigit c = true -> Char.isspace c = false.
Proof. intros H. now apply isdigit_props in H. Qed.

Lemma match_fleet_at_spec l d :
  match_fleet_at l = Some d <-> fleet_match_after l [] d.
Proof.
  unfold match_fleet_at, fleet_match_after. split.
  - destruct (Str.prefixb (Str.chars "fleet") l) eqn:Ep; [|discriminate].
    apply prefixb_spec in Ep. destruct Ep as [m ->].
    change (skipn 5 (Str.chars "fleet" ++ m)) with m.
    destruct (lstrip_split Char.isspace m) as (ws & H1 & H2 & _).
    destruct (take_while_split Char.isdigit (Str.lstrip Char.isspace m))
      as (rest & H3 & H4 & H5).
    destruct (take_while Char.isdigit (Str.lstrip Char.isspace m)) as [|x xs] eqn:E;
      [discriminate|].
    intros [= <-]. exists ws, rest. rewrite H3 in H1.
    repeat split; auto; try discriminate.
    change ([] ++ Str.chars "fleet" ++ ws ++ (x :: xs) ++ rest)
      with (Str.chars "fleet" ++ (ws ++ (x :: xs) ++ rest)).
    now rewrite <- H1.
  - intros (ws & rest & -> & Hws & Hd & Hne & Hrest). cbn [app].
    replace (Str.prefixb (Str.chars "fleet") (Str.chars "fleet" ++ ws ++ d ++ rest))
      with true by (symmetry; apply prefixb_spec; eauto).
    change (skipn 5 (Str.chars "fleet" ++ ws ++ d ++ rest)) with (ws ++ d ++ rest).
    rewrite lstrip_app; auto.
    + rewrite take_while_app; auto. destruct d; congruence.
    + destruct d as [|x d]; [congruence|]. simpl.
      inversion Hd; subst. now rewrite isdigit_not_isspace.
Qed.

Lemma fleet_match_after_cons c l pre d :
  fleet_match_after (c :: l) (c :: pre) d <-> fleet_match_after l pre d.
Proof.
  unfold fleet_match_after. split; intros (ws & rest & H & Hr);
    exists ws, rest; (split; [|exact Hr]).
  - now injection H.
  - now rewrite H.
Qed.

(** [search_fleet] finds the match of the pattern that starts leftmost, and
    finds none exactly when the pattern matches nowhere. *)
Lemma search_fleet_spec l :
  match search_fleet l with
  | Some d =>
      exists pre, fleet_match_after l pre d
                  /\ forall pre' d', fleet_match_after l pre' d' ->
                                     List.length pre <= List.length pre'
  | None => forall pre d, ~ fleet_match_after l pre d
  end.
Proof.
  induction l as [|c t IH]; cbn [search_fleet].
  - destruct (match_fleet_at []) as [d|] eqn:E; [discriminate|].
    intros pre d (ws & rest & H & _). now destruct pre.
  - destruct (match_fleet_at (c :: t)) as [d|] eqn:E.
    + apply match_fleet_at_spec in E. exists []. split; auto. intros; simpl; lia.
    + assert (Hnone : forall d, ~ fleet_match_after (c :: t) [] d).
      { intros d H. apply match_fleet_at_spec in H. congruence. }
      destruct (search_fleet t) as [d|].
      * destruct IH as (pre & Hm & Hmin). exists (c :: pre). split.
        -- now apply fleet_match_after_cons.
        -- intros [|c' pre'] d' H'; [now apply Hnone in H'|].
           assert (c' = c) as ->.
           { destruct H' as (? & ? & H & _). now injection H. }
           apply fleet_match_after_cons, Hmin in H'. simpl. lia.
      * intros [|c' pre'] d H'; [now apply Hnone in H'|].
        assert (c' = c) as ->.
        { destruct H' as (? & ? & H & _). now injection H. }
        apply fleet_match_after_cons in H'. now apply IH in H'.
Qed.

Lemma match_range_at_spec l a b :
  match_range_at l = Some (a, b) <-> range_match_after l [] a b.
Proof.
  unfold match_range_at, range_match_after. split.
  - destruct l as [|c1 [|c2 [|c3 [|c4 [|m [|c5 [|c6 [|c7 [|c8 rest]]]]]]]]];
      try discriminate.
    destruct (forallb Char.isdigit [c1; c2; c3; c4]) eqn:E1; [|discriminate].
    destruct (Ascii.eqb m "-") eqn:E2; [|discriminate].
    destruct (forallb Char.isdigit [c5; c6; c7; c8]) eqn:E3; [|discriminate].
    apply Ascii.eqb_eq in E2. subst m.
    rewrite forallb_forall in E1, E3. intros [= <- <-].
    exists rest. repeat split; auto; apply Forall_forall; auto.
  - intros (rest & -> & La & Ha & Lb & Hb).
    destruct a as [|c1 [|c2 [|c3 [|c4 [|]]]]]; try discriminate.
    destruct b as [|c5 [|c6 [|c7 [|c8 [|]]]]]; try discriminate.
    cbn [app].
    replace (forallb Char.isdigit [c1; c2; c3; c4]) with true
      by (symmetry; apply forallb_forall; now apply Forall_forall).
    replace (forallb Char.isdigit [c5; c6; c7; c8]) with true
      by (symmetry; apply forallb_forall; now apply Forall_forall).
    reflexivity.
Qed.

Lemma range_match_after_cons c l pre a b :
  range_match_after (c :: l) (c :: pre) a b <-> range_match_after l pre a b.
Proof.
  unfold range_match_after. split; intros (rest & H & Hr);
    exists rest; (split; [|exact Hr]).
  - now injection H.
  - now rewrite H.
Qed.

Lemma search_range_spec l :
  match search_range l with
  | Some (a, b) =>
      exists pre, range_match_after l pre a b
                  /\ forall pre' a' b', range_match_after l pre' a' b' ->
                                        List.length pre <= List.length pre'
  | None => forall pre a b, ~ range_match_after l pre a b
  end.
Proof.
  induction l as [|c t IH]; cbn [search_range].
  - destruct (match_range_at []) as [[a b]|] eqn:E; [discriminate|].
    intros pre a b (rest & H & La & _).
    destruct pre; destruct a; simpl in *; discriminate.
  - destruct (match_range_at (c :: t)) as [[a b]|] eqn:E.
    + apply match_range_at_spec in E. exists []. split; auto. intros; simpl; lia.
    + assert (Hnone : forall a b, ~ range_match_after (c :: t) [] a b).
      { intros a b H. apply match_range_at_spec in H. congruence. }
      destruct (search_range t) as [[a b]|].
      * destruct IH as (pre & Hm & Hmin). exists (c :: pre). split.
        -- now apply range_match_after_cons.
        -- intros [|c' pre'] a' b' H'; [now apply Hnone in H'|].
           assert (c' = c) as ->.
           { destruct H' as (? & H & _). now injection H. }
           apply range_match_after_cons, Hmin in H'. simpl. lia.
      * intros [|c' pre'] a b H'; [now apply Hnone in H'|].
        assert (c' = c) as ->.
        { destruct H' as (? & H & _). now injection H. }
        apply range_match_after_cons in H'. now apply IH in H'.
Qed.

(** ** Scalar assignment and key derivation *)

Lemma has_column_In df label : has_column df label = true <-> In label (labels df).
Proof.
  unfold has_column. rewrite existsb_exists. split.
  - intros [x [Hx E]]. apply String.eqb_eq in E. now subst.
  - intros H. exists label. split; auto. apply String.eqb_refl.
Qed.

Lemma labels_set_scalar df l d v :
  labels (set_scalar df l d v)
  = if has_column df l then labels df else labels df ++ [l].
Proof.
  unfold set_scalar. destruct (has_column df l); unfold labels; cbn [columns].
  - rewrite map_map. apply map_ext. intros [l' t]. now destruct (String.eqb l' l).
  - now rewrite map_app.
Qed.

Lemma len_set_scalar df l d v : len (set_scalar df l d v) = len df.
Proof.
  unfold set_scalar, len. destruct (has_column df l); cbn [rows]; apply length_map.
Qed.

Lemma has_column_set_scalar df l d v : has_column (set_scalar df l d v) l = true.
Proof.
  apply has_column_In. rewrite labels_set_scalar.
  destruct (has_column df l) eqn:E.
  - now apply has_column_In.
  - apply in_or_app. right. now left.
Qed.

Lemma has_column_set_scalar_other df l d v l' :
  l' <> l -> has_column (set_scalar df l d v) l' = has_column df l'.
Proof.
  without_library.
  intros Hne. apply eq_true_iff_eq. rewrite !has_column_In, labels_set_scalar.
  destruct (has_column df l); [reflexivity|].
  rewrite in_app_iff. simpl. intuition congruence.
Qed.

Lemma nth_read_row width r j : j < width -> nth j (read_row width r) None = cell_at j r.
Proof.
  intros H. unfold read_row.
  rewrite (nth_indep _ None (cell_at 0 r)) by now rewrite length_map, length_seq.
  rewrite (map_nth (fun j => cell_at j r)), seq_nth; auto.
Qed.

Lemma length_read_row width r : List.length (read_row width r) = width.
Proof. unfold read_row. now rewrite length_map, length_seq. Qed.

Lemma length_labels df : List.length (labels df) = List.length (columns df).
Proof. apply length_map. Qed.

Lemma set_scalar_rows df l d v r :
  In r (rows (set_scalar df l d v)) ->
  exists r0, In r0 (rows df)
  /\ forall j l', nth_error (labels (set_scalar df l d v)) j = Some l' ->
                  cell_at j r = if String.eqb l' l then v else cell_at j r0.
Proof.
  rewrite labels_set_scalar. unfold set_scalar.
  destruct (has_column df l) eqn:Hhas; cbn [rows]; intros Hr;
    apply in_map_iff in Hr; destruct Hr as [r0 [<- Hr0]]; exists r0; split; auto;
    intros j l' Hj.
  - assert (Hlt : j < List.length (labels df)) by (apply nth_error_Some; congruence).
    unfold cell_at at 1. rewrite <- length_labels.
    rewrite (nth_indexed _ _ (fun j l' => if String.eqb l' l then v else cell_at j r0)
                         "" None (labels df) 0 j Hlt).
    now rewrite (nth_error_nth _ _ _ Hj).
  - assert (Hlt : j < List.length (labels df ++ [l])) by (apply nth_error_Some; congruence).
    rewrite length_app in Hlt. simpl in Hlt. rewrite length_labels in Hlt.
    unfold cell_at at 1.
    destruct (Nat.eq_dec j (List.length (columns df))) as [-> | Hne].
    + rewrite nth_error_app2 in Hj by (rewrite length_labels; lia).
      rewrite length_labels, Nat.sub_diag in Hj. simpl in Hj. injection Hj as <-.
      rewrite String.eqb_refl.
      rewrite app_nth2 by (rewrite length_read_row; lia).
      now rewrite length_read_row, Nat.sub_diag.
    + rewrite nth_error_app1 in Hj by (rewrite length_labels; lia).
      rewrite app_nth1 by (rewrite length_read_row; lia).
      rewrite nth_read_row by lia.
      destruct (String.eqb l' l) eqn:E; auto.
      apply String.eqb_eq in E. subst l'.
      apply nth_error_In, has_column_In in Hj. congruence.
Qed.

Lemma set_scalar_column_is df l d v : column_is (set_scalar df l d v) l v.
Proof.
  split; [apply has_column_set_scalar|].
  intros j r Hj Hr. destruct (set_scalar_rows _ _ _ _ _ Hr) as [r0 [_ H]].
  rewrite (H j l Hj). now rewrite String.eqb_refl.
Qed.

Lemma nth_error_set_scalar_other df l d v j l' :
  l' <> l ->
  nth_error (labels (set_scalar df l d v)) j = Some l' ->
  nth_error (labels df) j = Some l'.
Proof.
  intros Hne. rewrite labels_set_scalar. destruct (has_column df l); auto.
  intros H.
  destruct (Nat.lt_ge_cases j (List.length (labels df))) as [Hlt | Hge].
  - now rewrite nth_error_app1 in H.
  - rewrite nth_error_app2 in H by assumption.
    destruct (j - List.length (labels df)) as [|k]; simpl in H.
    + congruence.
    + now destruct k.
Qed.

Lemma set_scalar_preserves df l d v l' v' :
  l' <> l -> column_is df l' v' -> column_is (set_scalar df l d v) l' v'.
Proof.
  intros Hne [Hhas Hcol]. split.
  - now rewrite has_column_set_scalar_other.
  - intros j r Hj Hr. destruct (set_scalar_rows _ _ _ _ _ Hr) as [r0 [Hr0 H]].
    rewrite (H j l' Hj).
    apply String.eqb_neq in Hne. rewrite Hne.
    apply Hcol; auto. apply String.eqb_neq in Hne.
    now apply (nth_error_set_scalar_other df l d v).
Qed.

(** The columns [extract_fleet_info] sets, by the outcome of the two
    searches. *)
Lemma extract_fleet_info_columns (df : DataFrame) (source_file : string) :
  let out := extract_fleet_info df source_file in
  column_is out "fleet_number"
            match fleet_match source_file with
            | Some digits => Some (VStr digits)
            | None => None
            end
  /\ match bus_range_match source_file with
     | Some (first, second) =>
         column_is out "bus_range_start" (Some (VStr first))
         /\ column_is out "bus_range_end" (Some (VStr second))
     | None =>
         has_column out "bus_range_start" = has_column df "bus_range_start"
         /\ has_column out "bus_range_end" = has_column df "bus_range_end"
         /\ List.length (labels out)
            = List.length (labels df) + (if has_column df "fleet_number" then 0 else 1)
     end
  /\ len out = len df.
Proof.
  cbv zeta. unfold extract_fleet_info.
  destruct (fleet_match source_file) as [digits|];
    destruct (bus_range_match source_file) as [[first second]|].
  1, 3: split; [|split; [split|]];
    [ do 2 (apply set_scalar_preserves; [discriminate|]); apply set_scalar_column_is
    | apply set_scalar_preserves; [discriminate|]; apply set_scalar_column_is
    | apply set_scalar_column_is
    | now rewrite !len_set_scalar ].
  all: split; [apply set_scalar_column_is|];
    (split; [|apply len_set_scalar]);
    (split; [|split]);
    [ now apply has_column_set_scalar_other
    | now apply has_column_set_scalar_other
    | rewrite labels_set_scalar; destruct (has_column df "fleet_number"); [lia|];
      rewrite length_app; reflexivity ].
Qed.

Lemma app_same_length (A : Type) (a b x y : list A) :
  List.length a = List.length b -> a ++ x = b ++ y -> a = b /\ x = y.
Proof.
  revert b. induction a as [|c a IH]; intros [|d b] Hl H; simpl in *;
    try discriminate; auto.
  injection H as -> H. injection Hl as Hl.
  destruct (IH b Hl H) as [-> ->]. auto.
Qed.

Lemma fleet_match_after_shift pre l d :
  fleet_match_after (pre ++ l) pre d <-> fleet_match_after l [] d.
Proof.
  induction pre as [|c pre IH]; [reflexivity|].
  rewrite <- IH. apply fleet_match_after_cons.
Qed.

Lemma range_match_after_shift pre l a b :
  range_match_after (pre ++ l) pre a b <-> range_match_after l [] a b.
Proof.
  induction pre as [|c pre IH]; [reflexivity|].
  rewrite <- IH. apply range_match_after_cons.
Qed.

Lemma fleet_match_after_prefix l pre d :
  fleet_match_after l pre d -> exists l', l = pre ++ l'.
Proof. intros (ws & rest & -> & _). eauto. Qed.

Lemma range_match_after_prefix l pre a b :
  range_match_after l pre a b -> exists l', l = pre ++ l'.
Proof. intros (rest & -> & _). eauto. Qed.

(** The leftmost match is the one [search_fleet] returns. *)
Lemma search_fleet_leftmost l pre d :
  fleet_match_after l pre d ->
  (forall pre' d', fleet_match_after l pre' d' -> List.length pre <= List.length pre') ->
  search_fleet l = Some d.
Proof.
  intros Hm Hmin. pose proof (search_fleet_spec l) as Hs.
  destruct (search_fleet l) as [d0|]; [|now apply Hs in Hm].
  destruct Hs as (pre0 & Hm0 & Hmin0). f_equal.
  assert (Hlen : List.length pre0 = List.length pre).
  { apply Nat.le_antisymm; eauto. }
  destruct (fleet_match_after_prefix _ _ _ Hm) as [x Hx].
  destruct (fleet_match_after_prefix _ _ _ Hm0) as [x0 Hx0].
  destruct (app_same_length _ pre0 pre x0 x Hlen) as [-> ->]; [congruence|].
  subst l. apply fleet_match_after_shift, match_fleet_at_spec in Hm, Hm0. congruence.
Qed.

Lemma search_range_leftmost l pre a b :
  range_match_after l pre a b ->
  (forall pre' a' b', range_match_after l pre' a' b' ->
                      List.length pre <= List.length pre') ->
  search_range l = Some (a, b).
Proof.
  intros Hm Hmin. pose proof (search_range_spec l) as Hs.
  destruct (search_range l) as [[a0 b0]|]; [|now apply Hs in Hm].
  destruct Hs as (pre0 & Hm0 & Hmin0). f_equal.
  assert (Hlen : List.length pre0 = List.length pre).
  { apply Nat.le_antisymm; eauto. }
  destruct (range_match_after_prefix _ _ _ _ Hm) as [x Hx].
  destruct (range_match_after_prefix _ _ _ _ Hm0) as [x0 Hx0].
  destruct (app_same_length _ pre0 pre x0 x Hlen) as [-> ->]; [congruence|].
  subst l. apply range_match_after_shift, match_range_at_spec in Hm, Hm0. congruence.
Qed.

Lemma search_fleet_none l :
  (forall pre d, ~ fleet_match_after l pre d) -> search_fleet l = None.
Proof.
  intros H. pose proof (search_fleet_spec l) as Hs.
  destruct (search_fleet l) as [d|]; auto.
  destruct Hs as (pre & Hm & _). now apply H in Hm.
Qed.

Lemma search_range_none l :
  (forall pre a b, ~ range_match_after l pre a b) -> search_range l = None.
Proof.
  intros H. pose proof (search_range_spec l) as Hs.
  destruct (search_range l) as [[a b]|]; auto.
  destruct Hs as (pre & Hm & _). now apply H in Hm.
Qed.

(** C7. When the lower-cased file name matches [fleet\s*(\d+)], every row's
    [fleet_number] is the digit string captured by the leftmost match; when
    it matches nowhere, [fleet_number] is null in every row.  Independently,
    when the file name matches [(\d{4})-(\d{4})], [bus_range_start] and
    [bus_range_end] hold the two groups of the leftmost match in every row;
    when it matches nowhere, neither column is added. *)
Theorem extract_fleet_info_spec (df : DataFrame) (source_file : string) :
  let out := extract_fleet_info df source_file in
  let name := Str.chars source_file in
  (forall pre digits,
      fleet_match_after (Str.lower name) pre digits ->
      (forall pre' d', fleet_match_after (Str.lower name) pre' d' ->
                       List.length pre <= List.length pre') ->
      column_is out "fleet_number" (Some (VStr (Str.of_chars digits))))
  /\ ((forall pre digits, ~ fleet_match_after (Str.lower name) pre digits) ->
      column_is out "fleet_number" None)
  /\ (forall pre first second,
         range_match_after name pre first second ->
         (forall pre' a' b', range_match_after name pre' a' b' ->
                             List.length pre <= List.length pre') ->
         column_is out "bus_range_start" (Some (VStr (Str.of_chars first)))
         /\ column_is out "bus_range_end" (Some (VStr (Str.of_chars second))))
  /\ ((forall pre first second, ~ range_match_after name pre first second) ->
      has_column out "bus_range_start" = has_column df "bus_range_start"
      /\ has_column out "bus_range_end" = has_column df "bus_range_end"
      /\ List.length (labels out)
         = List.length (labels df) + (if has_column df "fleet_number" then 0 else 1))
  /\ len out = len df.
Proof.
  cbv zeta.
  destruct (extract_fleet_info_columns df source_file) as (Hfleet & Hrange & Hlen).
  unfold fleet_match in Hfleet. unfold bus_range_match in Hrange.
  split; [|split; [|split; [|split; [|exact Hlen]]]].
  - intros pre digits Hm Hmin.
    now rewrite (search_fleet_leftmost _ _ _ Hm Hmin) in Hfleet.
  - intros Hnone. now rewrite (search_fleet_none _ Hnone) in Hfleet.
  - intros pre first second Hm Hmin.
    now rewrite (search_range_leftmost _ _ _ _ Hm Hmin) in Hrange.
  - intros Hnone. now rewrite (search_range_none _ Hnone) in Hrange.
Qed.


(** ** Grouping *)

Lemma value_eqb_refl v : value_eqb v v = true.
Proof.
  destruct v; simpl.
  - apply String.eqb_refl.
  - apply Qeq_bool_refl.
  - apply Bool.eqb_reflx.
  - apply Z.eqb_refl.
Qed.

Lemma value_eqb_sym a b : value_eqb a b = true -> value_eqb b a = true.
Proof.
  destruct a, b; simpl; try discriminate.
  - now rewrite String.eqb_sym.
  - apply Qeq_bool_sym.
  - now destruct b0, b.
  - now rewrite Z.eqb_sym.
Qed.

Lemma value_eqb_trans a b c :
  value_eqb a b = true -> value_eqb b c = true -> value_eqb a c = true.
Proof.
  destruct a, b, c; simpl; try discriminate.
  - rewrite !String.eqb_eq. congruence.
  - apply Qeq_bool_trans.
  - rewrite !Bool.eqb_true_iff. congruence.
  - rewrite !Z.eqb_eq. congruence.
Qed.

Lemma key_eqb_refl k : key_eqb k k = true.
Proof.
  unfold key_eqb. induction k as [|v k IH]; simpl; auto.
  now rewrite value_eqb_refl.
Qed.

Lemma key_eqb_sym a : forall b, key_eqb a b = true -> key_eqb b a = true.
Proof.
  unfold key_eqb.
  induction a as [|x a IH]; intros [|y b]; simpl; auto; try discriminate.
  intros H. apply andb_true_iff in H. destruct H as [H1 H2].
  now rewrite (value_eqb_sym _ _ H1), (IH _ H2).
Qed.

Lemma key_eqb_trans a : forall b c,
  key_eqb a b = true -> key_eqb b c = true -> key_eqb a c = true.
Proof.
  unfold key_eqb.
  induction a as [|x a IH]; intros [|y b] [|z c]; simpl; auto; try discriminate.
  intros H1 H2. apply andb_true_iff in H1, H2.
  destruct H1 as [H1 H1'], H2 as [H2 H2'].
  now rewrite (value_eqb_trans _ _ _ H1 H2), (IH _ _ H1' H2').
Qed.

Lemma filter_split (A : Type) (f : A -> bool) l :
  Permutation (filter f l ++ filter (fun a => negb (f a)) l) l.
Proof.
  induction l as [|a l IH]; simpl; auto.
  destruct (f a); simpl.
  - now constructor.
  - apply Permutation_sym, Permutation_cons_app, Permutation_sym, IH.
Qed.

Lemma filter_filter (A : Type) (f g : A -> bool) l :
  filter f (filter g l) = filter (fun a => f a && g a) l.
Proof.
  induction l as [|a l IH]; simpl; auto.
  destruct (g a); simpl; rewrite ?andb_true_r, ?andb_false_r.
  - destruct (f a); now rewrite IH.
  - exact IH.
Qed.

Lemma flat_map_ext_in (A B : Type) (f g : A -> list B) l :
  (forall a, In a l -> f a = g a) -> flat_map f l = flat_map g l.
Proof.
  induction l as [|a l IH]; intros H; simpl; auto.
  rewrite H by now left. f_equal. apply IH. intros b Hb. apply H. now right.
Qed.

Section Grouping.

Variable js : list nat.

Lemma has_key_keyed k r : has_key js k r = true -> keyed js r = true.
Proof. unfold has_key, keyed. now destruct (row_key js r). Qed.

Lemma has_key_exclusive k k' r :
  key_eqb k k' = false -> has_key js k' r = true -> has_key js k r = false.
Proof.
  unfold has_key. destruct (row_key js r) as [kr|]; auto.
  intros Hne H'. destruct (key_eqb k kr) eqn:E; auto.
  rewrite <- Hne. symmetry.
  eapply key_eqb_trans; eauto. now apply key_eqb_sym.
Qed.

(** Pairwise different keys that cover the rows split them. *)
Lemma groups_permutation ks : forall l,
  ForallOrdPairs (fun a b => key_eqb a b = false) ks ->
  (forall r, In r l -> exists k, In k ks /\ has_key js k r = true) ->
  Permutation (flat_map (fun k => filter (has_key js k) l) ks) l.
Proof.
  induction ks as [|k ks IH]; intros l Hd Hcover.
  - destruct l as [|r l]; auto.
    destruct (Hcover r (or_introl eq_refl)) as [k [[] _]].
  - inversion Hd as [|? ? Hk Hd']; subst. cbn [flat_map].
    set (l' := filter (fun r => negb (has_key js k r)) l).
    assert (E : flat_map (fun k0 => filter (has_key js k0) l) ks
                = flat_map (fun k0 => filter (has_key js k0) l') ks).
    { apply flat_map_ext_in. intros k' Hk'. unfold l'. rewrite filter_filter.
      apply filter_ext. intros r.
      destruct (has_key js k' r) eqn:E'; auto.
      rewrite (has_key_exclusive k k' r); auto.
      rewrite Forall_forall in Hk. now apply Hk. }
    rewrite E.
    eapply Permutation_trans; [|apply (filter_split _ (has_key js k))].
    apply Permutation_app_head. apply IH; auto.
    intros r Hr. unfold l' in Hr. apply filter_In in Hr. destruct Hr as [Hr Hn].
    destruct (Hcover r Hr) as [k0 [[<- | Hin] Hk0]].
    + rewrite Hk0 in Hn. discriminate.
    + eauto.
Qed.

End Grouping.

Lemma insert_key_permutation k l : Permutation (insert_key k l) (k :: l).
Proof.
  induction l as [|h t IH]; simpl; auto.
  destruct (key_leb k h); auto.
  eapply Permutation_trans; [apply perm_skip, IH|]. apply perm_swap.
Qed.

Lemma sort_keys_permutation l : Permutation (sort_keys l) l.
Proof.
  induction l as [|k t IH]; simpl; auto.
  eapply Permutation_trans; [apply insert_key_permutation|]. now constructor.
Qed.

Lemma distinct_keys_spec l : forall seen,
  ForallOrdPairs (fun a b => key_eqb a b = false) (distinct_keys seen l)
  /\ (forall k s, In k (distinct_keys seen l) -> In s seen -> key_eqb s k = false)
  /\ (forall x, In x l ->
        exists k, In k (seen ++ distinct_keys seen l) /\ key_eqb k x = true).
Proof.
  induction l as [|k t IH]; intros seen; cbn [distinct_keys].
  - repeat split; try constructor; intros; contradiction.
  - destruct (existsb (key_eqb k) seen) eqn:E.
    + destruct (IH seen) as (H1 & H2 & H3). repeat split; auto.
      intros x [<- | Hx]; auto.
      apply existsb_exists in E. destruct E as [s [Hs Hks]].
      exists s. split; [apply in_or_app; now left | now apply key_eqb_sym].
    + destruct (IH (k :: seen)) as (H1 & H2 & H3). repeat split.
      * constructor; auto. apply Forall_forall. intros k' Hk'.
        apply (H2 k' k Hk'). now left.
      * intros k' s [<- | Hk'] Hs.
        -- destruct (key_eqb s k) eqn:Es; auto.
           assert (existsb (key_eqb k) seen = true); [|congruence].
           apply existsb_exists. exists s. split; auto. now apply key_eqb_sym.
        -- apply (H2 k' s Hk'). now right.
      * intros x [<- | Hx].
        -- exists k. split; [|apply key_eqb_refl].
           apply in_or_app. right. now left.
        -- destruct (H3 x Hx) as [k' [Hk' Hx']]. exists k'. split; auto.
           apply in_app_iff in Hk'. apply in_app_iff.
           destruct Hk' as [[<- | Hs] | Hk']; [right; now left | now left | right; now right].
Qed.

Lemma groupby_rows df cols js :
  cols <> [] ->
  key_positions df cols = Ok js ->
  exists groups,
    groupby df cols = Ok groups
    /\ Permutation (flat_map (fun g => rows (snd g)) groups)
                   (filter (keyed js) (rows df))
    /\ Forall (fun g => columns (snd g) = columns df) groups.
Proof.
  intros Hne Hjs. unfold groupby.
  destruct cols as [|c cs]; [congruence|]. cbn [is_nil].
  rewrite Hjs. cbn [bind].
  set (present := flat_map _ (rows df)).
  eexists. split; [reflexivity|]. split.
  - rewrite flat_map_concat_map, map_map, <- flat_map_concat_map. cbn [snd rows].
    eapply Permutation_trans.
    { apply Permutation_flat_map, sort_keys_permutation. }
    destruct (distinct_keys_spec present []) as (Hd & _ & Hc). cbn [app] in Hc.
    rewrite (flat_map_ext_in _ _ _
               (fun k => filter (has_key js k) (filter (keyed js) (rows df)))).
    + apply groups_permutation; auto.
      intros r Hr. apply filter_In in Hr. destruct Hr as [Hr Hk].
      unfold keyed in Hk. destruct (row_key js r) as [kr|] eqn:Er; [|discriminate].
      destruct (Hc kr) as [k [Hin Heq]].
      { unfold present. apply in_flat_map. exists r. split; auto.
        rewrite Er. now left. }
      exists k. split; auto. unfold has_key. now rewrite Er.
    + intros k _. rewrite filter_filter. apply filter_ext. intros r.
      destruct (has_key js k r) eqn:E; auto.
      now rewrite (has_key_keyed _ _ _ E).
  - apply Forall_forall. intros g Hg. apply in_map_iff in Hg.
    now destruct Hg as [k [<- _]].
Qed.

Lemma partition_rows_write output_dir cols template groups :
  partition_rows (map (write_group output_dir cols template) groups)
  = flat_map (fun g => rows (snd g)) groups.
Proof.
  unfold partition_rows. induction groups as [|[k d] t IH]; simpl; auto.
  now rewrite IH.
Qed.

Lemma row_key_none js r :
  row_key js r = None <-> exists j, In j js /\ cell_at j r = None.
Proof.
  induction js as [|j js IH]; cbn [row_key].
  - split; [discriminate | intros [j [[] _]]].
  - destruct (cell_at j r) as [v|] eqn:E.
    + destruct (row_key js r) as [k|].
      * split; [discriminate|]. intros [j' [[<- | Hin] Hc]]; [congruence|].
        assert (H : Some k = None) by (apply (proj2 IH); eauto).
        discriminate.
      * split; auto. intros _. destruct (proj1 IH eq_refl) as [j' [Hin Hc]].
        exists j'. split; auto. now right.
    + split; auto. intros _. exists j. split; auto. now left.
Qed.

Lemma filter_length_lt (A : Type) (f : A -> bool) l a :
  In a l -> f a = false -> List.length (filter f l) < List.length l.
Proof.
  induction l as [|x l IH]; intros Hin Hf; [destruct Hin|].
  simpl. destruct Hin as [-> | Hin].
  - rewrite Hf. pose proof (filter_length_le f l). lia.
  - specialize (IH Hin Hf). destruct (f x); simpl; lia.
Qed.

(** Without key columns, or with a key label that names no column or
    several, [groupby] raises and nothing is written. *)
Lemma write_partitioned_raises output_dir df partition_columns filename_template :
  partition_columns = [] \/ (exists e, key_positions df partition_columns = Raise e) ->
  exists e,
    write_partitioned output_dir df partition_columns filename_template = Raise e.
Proof.
  unfold write_partitioned, groupby. intros [-> | [e H]].
  - eexists. reflexivity.
  - destruct partition_columns as [|c cs]; [discriminate|].
    cbn [is_nil]. rewrite H. eexists. reflexivity.
Qed.

(** C10. A row with a null in a partition column goes to no partition: the
    rows written are, up to order, exactly the rows whose key cells are all
    non-null, so the partitions together have fewer rows than the dataset as
    soon as one key cell is null. *)
Theorem write_partitioned_drops_null_keys
        (output_dir : Path) (df : DataFrame) (partition_columns : list string)
        (filename_template : string) (js : list nat) :
  partition_columns <> [] ->
  key_positions df partition_columns = Ok js ->
  exists written,
    write_partitioned output_dir df partition_columns filename_template = Ok written
    /\ Permutation (partition_rows written) (filter (keyed js) (rows df))
    /\ (forall r j, In j js -> cell_at j r = None -> ~ In r (partition_rows written))
    /\ ((exists r j, In r (rows df) /\ In j js /\ cell_at j r = None) ->
        List.length (partition_rows written) < List.length (rows df)).
Proof.
  intros Hne Hjs.
  destruct (groupby_rows df partition_columns js Hne Hjs) as (groups & Hg & Hperm & _).
  unfold write_partitioned. rewrite Hg. cbn [bind].
  eexists. split; [reflexivity|].
  rewrite partition_rows_write. split; [exact Hperm|]. split.
  - intros r j Hj Hnull Hin.
    apply (Permutation_in _ Hperm), filter_In in Hin. destruct Hin as [_ Hk].
    unfold keyed in Hk.
    assert (Hnone : row_key js r = None) by (apply row_key_none; eauto).
    now rewrite Hnone in Hk.
  - intros (r & j & Hr & Hj & Hnull).
    rewrite (Permutation_length Hperm).
    apply (filter_length_lt _ _ _ r); auto.
    unfold keyed.
    assert (Hnone : row_key js r = None) by (apply row_key_none; eauto).
    now rewrite Hnone.
Qed.

Lemma permutation_three (A : Type) (a b c x y : A) :
  Permutation [a; b; c] [x; x; y] ->
  (a = x /\ b = x /\ c = y) \/ (a = x /\ b = y /\ c = x) \/ (a = y /\ b = x /\ c = x).
Proof.
  intros H.
  assert (Ha : In a [x; x; y]) by (apply (Permutation_in _ H); now left).
  destruct Ha as [Ha | [Ha | [Ha | []]]]; subst a.
  - apply Permutation_cons_inv, Permutation_length_2 in H. intuition.
  - apply Permutation_cons_inv, Permutation_length_2 in H. intuition.
  - assert (H' : Permutation (y :: [b; c]) (y :: [x; x])).
    { eapply Permutation_trans; [exact H|].
      apply Permutation_sym. change [x; x; y] with ([x; x] ++ [y]).
      apply Permutation_cons_append. }
    apply Permutation_cons_inv, Permutation_length_2 in H'. intuition.
Qed.

Lemma has_key_single j v r :
  has_key [j] [v] r
  = match cell_at j r with
    | Some v' => value_eqb v v'
    | None => false
    end.
Proof.
  unfold has_key. cbn [row_key]. destruct (cell_at j r); auto.
  unfold key_eqb. simpl. now rewrite andb_true_r.
Qed.

(** C8. A dataset whose [fleet_number] column holds "1", "1" and "2", in any
    order of its rows, is written as exactly two partitions, for "1" and for
    "2" in that order, with two rows and one row; their rows together are the
    rows of the dataset up to order. *)
Theorem write_partitioned_example
        (output_dir : Path) (df : DataFrame) (filename_template : string) (j : nat) :
  positions df "fleet_number" = [j] ->
  Permutation (column_cells j df)
              [Some (VStr "1"); Some (VStr "1"); Some (VStr "2")] ->
  exists rows1 rows2,
    write_partitioned output_dir df ["fleet_number"] filename_template
    = Ok [((output_dir ++ ["fleet_number=1"])
             ++ [(format_template filename_template "1" ++ ".parquet")%string],
           mkDataFrame (columns df) rows1);
          ((output_dir ++ ["fleet_number=2"])
             ++ [(format_template filename_template "2" ++ ".parquet")%string],
           mkDataFrame (columns df) rows2)]
    /\ List.length rows1 = 2
    /\ List.length rows2 = 1
    /\ Permutation (rows1 ++ rows2) (rows df).
Proof.
  intros Hpos Hperm. unfold column_cells in Hperm.
  pose proof (Permutation_length Hperm) as Hlen. rewrite length_map in Hlen.
  destruct (rows df) as [|a [|b [|c [|]]]] eqn:Erows; try discriminate.
  cbn [map] in Hperm.
  unfold write_partitioned, groupby. cbn [is_nil key_positions].
  rewrite Hpos. cbn [bind]. rewrite Erows. cbn [flat_map row_key filter].
  destruct (permutation_three _ _ _ _ _ _ Hperm)
    as [(Ha & Hb & Hc) | [(Ha & Hb & Hc) | (Ha & Hb & Hc)]];
    rewrite Ha, Hb, Hc; cbn -[has_key];
    rewrite !has_key_single, Ha, Hb, Hc; cbn.
  - exists [a; b], [c]. repeat split; auto.
  - exists [a; c], [b]. repeat split; auto. simpl. constructor. apply perm_swap.
  - exists [b; c], [a]. repeat split; auto.
    change [a; b; c] with ([a] ++ [b; c]). apply Permutation_app_comm.
Qed.

(** ** Normalization and the metadata columns *)

Lemma map_fst_replace_nth (l : list (string * dtype)) : forall j d,
  map fst (replace_nth j (nth j (map fst l) "", d) l) = map fst l.
Proof.
  induction l as [|[a t] l IH]; intros [|j] d; simpl; auto.
  now rewrite IH.
Qed.

Lemma labels_set_series df j s : labels (set_series df j s) = labels df.
Proof. unfold labels, set_series. cbn [columns]. apply map_fst_replace_nth. Qed.

Lemma labels_standardize_loop cols : forall df out,
  standardize_loop cols df = Ok out -> labels out = labels df.
Proof.
  induction cols as [|col rest IH]; intros df out; cbn [standardize_loop].
  - now intros [= <-].
  - destruct (Str.startswith col "source_" || Str.endswith col "_timestamp"); [apply IH|].
    destruct (get_series df col) as [[j s]|e]; cbn [bind]; [|discriminate].
    repeat match goal with
           | |- context [if ?b then _ else _] => destruct b
           end;
      intros H; apply IH in H; now rewrite ?labels_set_series in H.
Qed.

Lemma labels_enforce_string_loop cols : forall df out,
  enforce_string_loop cols df = Ok out -> labels out = labels df.
Proof.
  induction cols as [|col rest IH]; intros df out; cbn [enforce_string_loop].
  - now intros [= <-].
  - destruct (get_series df col) as [[j s]|e]; cbn [bind]; [|discriminate].
    destruct (dtype_eqb (s_dtype s) DObject);
      intros H; apply IH in H; now rewrite ?labels_set_series in H.
Qed.

Lemma has_column_labels df df' label :
  labels df = labels df' -> has_column df label = has_column df' label.
Proof. unfold has_column. now intros ->. Qed.

Lemma labels_extract_fleet_info df df' source_file :
  labels df = labels df' ->
  labels (extract_fleet_info df source_file)
  = labels (extract_fleet_info df' source_file).
Proof.
  intros H. unfold extract_fleet_info.
  assert (S : forall a b l d v, labels a = labels b ->
                labels (set_scalar a l d v) = labels (set_scalar b l d v)).
  { intros a b l d v E. rewrite !labels_set_scalar, (has_column_labels a b l E).
    now rewrite E. }
  destruct (fleet_match source_file), (bus_range_match source_file) as [[? ?]|];
    repeat apply S; exact H.
Qed.

(** The header of a normalized table: the canonical names of the columns that
    are not empty, then the derived key columns.  Nothing else is added. *)
Lemma process_dataframe_labels df source_file out :
  process_dataframe df source_file = Ok out ->
  labels out
  = labels (extract_fleet_info (clean_column_names (remove_empty_rows_columns df))
                               source_file).
Proof.
  unfold process_dataframe, standardize_data_types.
  destruct (standardize_loop _ _) as [df3|e] eqn:E3; cbn [bind]; [|discriminate].
  intros H. apply labels_enforce_string_loop in H. rewrite H.
  apply labels_extract_fleet_info.
  now apply labels_standardize_loop in E3.
Qed.

Lemma process_dataframe_has_column df source_file out label :
  process_dataframe df source_file = Ok out ->
  label <> "fleet_number" -> label <> "bus_range_start" -> label <> "bus_range_end" ->
  has_column out label
  = existsb (String.eqb label) (clean_names (labels (remove_empty_rows_columns df))).
Proof.
  intros H H1 H2 H3.
  rewrite (has_column_labels _ _ label (process_dataframe_labels _ _ _ H)).
  unfold extract_fleet_info.
  destruct (fleet_match source_file), (bus_range_match source_file) as [[? ?]|];
    rewrite ?has_column_set_scalar_other by assumption;
    unfold has_column; now rewrite labels_clean_column_names.
Qed.

Lemma validate_dataframe_rules self df ctx :
  NoDup (keys (validation_rules self)) ->
  let c := match ctx with Some c => c | None => [] end in
  let results := fst (validate_dataframe self df ctx) in
  res_rules results
  = map (fun '(name, info) => (name, expected_entry df c info)) (validation_rules self)
  /\ res_passed results
     = forallb (fun '(_, info) => entry_passed (expected_entry df c info))
               (validation_rules self).
Proof.
  intros Hnd. cbv zeta. unfold validate_dataframe. cbn [fst].
  set (c := match ctx with Some c => c | None => [] end).
  set (init := mkResults c (len df, List.length (columns df)) (labels df) [] true [] []).
  destruct (run_rules_spec df c (validation_rules self) init Hnd) as [H1 H2].
  { intros k _ []. }
  now split.
Qed.

Lemma FleetDataValidator_keys :
  keys (validation_rules FleetDataValidator)
  = ["required_columns"; "has_data"; "valid_columns"; "reasonable_duplicates";
     "valid_fleet_numbers"; "reasonable_data_types"].
Proof. reflexivity. Qed.

Lemma FleetDataValidator_NoDup : NoDup (keys (validation_rules FleetDataValidator)).
Proof.
  rewrite FleetDataValidator_keys.
  repeat (constructor; [simpl; intuition discriminate|]). constructor.
Qed.

(** A sheet none of whose columns is called [source_file] after
    canonicalization fails the [required_columns] rule once normalized. *)
Lemma normalized_fails_required_columns df source_file out ctx :
  process_dataframe df source_file = Ok out ->
  existsb (String.eqb "source_file")
          (clean_names (labels (remove_empty_rows_columns df))) = false ->
  exists message, has_required_columns out ctx = Ok (false, message).
Proof.
  intros Hout Hnone. unfold has_required_columns. cbn [filter].
  rewrite (process_dataframe_has_column df source_file out "source_file" Hout)
    by discriminate.
  rewrite Hnone. cbn [negb].
  destruct (negb (has_column out "ingestion_timestamp")); cbn [is_nil negb]; eauto.
Qed.

Lemma apply_rule_columns df ctx results name info :
  res_columns (apply_rule df ctx results name info) = res_columns results.
Proof.
  unfold apply_rule.
  destruct (func info df ctx) as [[passed message]|e]; [|reflexivity].
  destruct passed; cbn [negb]; [reflexivity|].
  now destruct (Str.contains "error" (lower_str message)).
Qed.

Lemma run_rules_columns df ctx rules : forall results,
  res_columns (run_rules rules df ctx results) = res_columns results.
Proof.
  induction rules as [|[n i] rest IH]; intros results; cbn [run_rules]; auto.
  now rewrite IH, apply_rule_columns.
Qed.

Lemma validate_dataframe_columns self df ctx :
  res_columns (fst (validate_dataframe self df ctx)) = labels df.
Proof. unfold validate_dataframe. cbn [fst]. now rewrite run_rules_columns. Qed.

Lemma validate_dataframe_history self df ctx :
  validation_results (snd (validate_dataframe self df ctx))
  = validation_results self ++ [fst (validate_dataframe self df ctx)].
Proof. reflexivity. Qed.

Lemma process_sheet_state self acc sheet_df file_name sheet_label summary_key
      fleet_name processed_df :
  process_dataframe sheet_df file_name = Ok processed_df ->
  let ctx := Some [("file", file_name); ("sheet", sheet_label); ("fleet", fleet_name)] in
  let v := fst (validate_dataframe (validator self) processed_df ctx) in
  let self' :=
    snd (process_sheet self acc sheet_df file_name sheet_label summary_key fleet_name) in
  validator self' = snd (validate_dataframe (validator self) processed_df ctx)
  /\ validation_failures (processing_stats self')
     = validation_failures (processing_stats self) + (if res_passed v then 0 else 1).
Proof.
  intros H. cbv zeta. unfold process_sheet. rewrite H.
  destruct (validate_dataframe _ _ _) as [v validator'] eqn:E. cbn [fst snd].
  destruct (calculate_summary_stats processed_df (Some "fleet_number"));
    cbn [snd validator processing_stats];
    (split; [reflexivity|]);
    destruct (res_passed v); cbn [negb validation_failures]; lia.
Qed.

Lemma process_single_sheet_state self file_name sheet_name sheet_df fleet_name :
  empty sheet_df = false ->
  snd (process_single_file self file_name (Sheets [(sheet_name, sheet_df)]) fleet_name)
  = snd (process_sheet self (mkFileResult [] [] []) sheet_df file_name sheet_name
                       (sheet_name ++ "_summary") fleet_name).
Proof.
  intros H. unfold process_single_file. cbn [process_sheets]. rewrite H.
  now destruct (process_sheet _ _ _ _ _ _ _) as [[acc|e] self'].
Qed.

(** C1, on a decoded workbook. The sheet read by [reader.read_file] and
    normalized has the canonical names of its own columns and [fleet_number],
    none of the four metadata columns; the [required_columns] rule fails on
    it and the validation failure is counted.  The same sheet with the
    columns of [read_sheet_with_metadata] added keeps them through
    normalization and passes the rule. *)
Theorem process_single_file_lacks_metadata :
  (let self' :=
     snd (process_single_file new_pipeline "Fleet 12 - data.xlsx"
                              (Sheets [("Sheet1", sheet_example)]) "fleet12") in
   exists v,
     validation_results (validator self') = [v]
     /\ res_columns v = ["bus"; "mileage"; "fleet_number"]
     /\ option_map entry_passed (dict_get (res_rules v) "required_columns") = Some false
     /\ res_passed v = false
     /\ validation_failures (processing_stats self') = 1)
  /\ (let self' :=
        snd (process_single_file
               new_pipeline "Fleet 12 - data.xlsx"
               (Sheets [("Sheet1",
                         add_metadata sheet_example "Fleet 12 - data.xlsx" "Sheet1"
                                      "raw/Fleet 12 - data.xlsx" 0%Z)])
               "fleet12") in
      exists v,
        validation_results (validator self') = [v]
        /\ res_columns v
           = ["bus"; "mileage"; "source_file"; "source_sheet"; "source_path";
              "ingestion_timestamp"; "fleet_number"]
        /\ option_map entry_passed (dict_get (res_rules v) "required_columns")
           = Some true).
Proof.
  split; cbv zeta.
  - rewrite process_single_sheet_state by reflexivity.
    match goal with
    | |- context [process_sheet ?s ?a ?d ?f ?l ?k ?n] =>
        edestruct (process_sheet_state s a d f l k n) as [Hv Hf];
          [vm_compute; reflexivity|]
    end.
    cbv zeta in Hv, Hf. rewrite Hv, Hf. clear Hv Hf.
    match goal with
    | |- context [validate_dataframe ?s ?d ?c] =>
        destruct (validate_dataframe_rules s d c FleetDataValidator_NoDup) as [Hr Hp];
          cbv zeta in Hr, Hp;
          exists (fst (validate_dataframe s d c))
    end.
    rewrite validate_dataframe_history, validate_dataframe_columns, Hr, Hp.
    repeat split; vm_compute; reflexivity.
  - rewrite process_single_sheet_state by reflexivity.
    match goal with
    | |- context [process_sheet ?s ?a ?d ?f ?l ?k ?n] =>
        edestruct (process_sheet_state s a d f l k n) as [Hv _];
          [vm_compute; reflexivity|]
    end.
    cbv zeta in Hv. rewrite Hv. clear Hv.
    match goal with
    | |- context [validate_dataframe ?s ?d ?c] =>
        destruct (validate_dataframe_rules s d c FleetDataValidator_NoDup) as [Hr _];
          cbv zeta in Hr;
          exists (fst (validate_dataframe s d c))
    end.
    rewrite validate_dataframe_history, validate_dataframe_columns, Hr.
    repeat split; vm_compute; reflexivity.
Qed.

(** ** Empty rows and columns *)

Lemma map_nth_seq (A : Type) (d : A) (l : list A) :
  map (fun j => nth j l d) (seq 0 (List.length l)) = l.
Proof.
  apply (nth_ext _ _ d d).
  - now rewrite length_map, length_seq.
  - intros n Hn. rewrite length_map, length_seq in Hn.
    rewrite (nth_indep _ d (nth 0 l d)) by now rewrite length_map, length_seq.
    rewrite (map_nth (fun j => nth j l d)), seq_nth; auto.
Qed.

Lemma read_row_id r : read_row (List.length r) r = r.
Proof. apply map_nth_seq. Qed.

Lemma select_mask_map_filter (A : Type) (f : A -> bool) (l : list A) :
  select_mask (map f l) l = filter f l.
Proof.
  induction l as [|a l IH]; simpl; auto. now rewrite IH.
Qed.

Lemma select_mask_seq_ge (mask : list bool) : forall s n j,
  In j (select_mask mask (seq s n)) -> s <= j.
Proof.
  induction mask as [|b mask IH]; intros s [|n] j; simpl; try easy.
  destruct b; simpl; intros H.
  - destruct H as [<- | H]; [lia|]. apply IH in H. lia.
  - apply IH in H. lia.
Qed.

Lemma select_mask_indices (A : Type) (d : A) (mask : list bool) : forall (l : list A) s,
  select_mask mask l
  = map (fun j => nth (j - s) l d) (select_mask mask (seq s (List.length l))).
Proof.
  induction mask as [|b mask IH]; intros [|a l] s; simpl; auto.
  rewrite (IH l (S s)).
  assert (E : map (fun j => nth (j - S s) l d) (select_mask mask (seq (S s) (List.length l)))
              = map (fun j => nth (j - s) (a :: l) d)
                    (select_mask mask (seq (S s) (List.length l)))).
  { apply map_ext_in. intros j Hj. apply select_mask_seq_ge in Hj.
    replace (j - s) with (S (j - S s)) by lia. reflexivity. }
  destruct b; simpl; rewrite E; [|reflexivity].
  now rewrite Nat.sub_diag.
Qed.

(** The column positions [dropna(axis=1, how='all')] keeps. *)
Lemma dropna_columns_all_spec df :
  let kept := filter (fun j => negb (forallb isnull (column_cells j df)))
                     (seq 0 (List.length (columns df))) in
  dropna_columns_all df
  = mkDataFrame (map (fun j => nth j (columns df) ("", DObject)) kept)
                (map (fun r => map (fun j => cell_at j r) kept) (rows df)).
Proof.
  unfold dropna_columns_all. cbv zeta.
  set (w := List.length (columns df)).
  set (f := fun j => negb (forallb isnull (column_cells j df))).
  assert (Hkept : forall (A : Type) (d : A) (l : list A),
             List.length l = w ->
             select_mask (map f (seq 0 w)) l = map (fun j => nth j l d) (filter f (seq 0 w))).
  { intros A d l Hl. rewrite (select_mask_indices A d _ l 0), Hl, select_mask_map_filter.
    apply map_ext. intros j. now rewrite Nat.sub_0_r. }
  f_equal.
  - now apply Hkept.
  - apply map_ext. intros r. rewrite (Hkept cell None) by apply length_read_row.
    apply map_ext_in. intros j Hj. apply filter_In in Hj. destruct Hj as [Hj _].
    apply in_seq in Hj. apply nth_read_row. lia.
Qed.

Lemma forallb_isnull_false (l : list cell) :
  forallb isnull l = false <-> exists v, In (Some v) l.
Proof.
  induction l as [|[v|] l IH]; simpl.
  - split; [discriminate | intros [v []]].
  - split; eauto.
  - rewrite IH. split; intros [v H]; exists v; auto.
    destruct H as [H | H]; [discriminate | auto].
Qed.

Lemma remove_empty_rows_columns_trimmed (df : DataFrame) :
  let out := remove_empty_rows_columns df in
  Forall (fun r => List.length r = List.length (columns out)
                   /\ forallb isnull r = false) (rows out)
  /\ (forall k, k < List.length (columns out) ->
                forallb isnull (column_cells k out) = false).
Proof.
  cbv zeta. unfold remove_empty_rows_columns.
  set (df1 := dropna_rows_all df).
  rewrite (dropna_columns_all_spec df1).
  set (kept := filter _ (seq 0 (List.length (columns df1)))).
  assert (Hkept : forall j, In j kept ->
            j < List.length (columns df)
            /\ exists r v, In r (rows df1) /\ cell_at j r = Some v).
  { intros j Hj. apply filter_In in Hj. destruct Hj as [Hj Hn].
    apply in_seq in Hj. split; [simpl in Hj; lia|].
    apply negb_true_iff, forallb_isnull_false in Hn. destruct Hn as [v Hv].
    apply in_map_iff in Hv. destruct Hv as [r [Hc Hr]]. eauto. }
  cbn [rows columns]. rewrite !length_map.
  split.
  - apply Forall_forall. intros r' Hr'. apply in_map_iff in Hr'.
    destruct Hr' as [r [<- Hr]]. split; [now rewrite length_map|].
    pose proof Hr as Hr1. apply filter_In in Hr. destruct Hr as [_ Hn].
    apply negb_true_iff, forallb_isnull_false in Hn. destruct Hn as [v Hv].
    apply in_map_iff in Hv. destruct Hv as [j [Hc Hj]]. apply in_seq in Hj.
    apply forallb_isnull_false. exists v. apply in_map_iff. exists j. split; auto.
    apply filter_In. split; [apply in_seq; simpl; lia|].
    apply negb_true_iff, forallb_isnull_false. exists v.
    apply in_map_iff. exists r. auto.
  - intros k Hk. apply forallb_isnull_false.
    destruct (Hkept (nth k kept 0)) as [_ (r & v & Hr & Hv)]; [now apply nth_In|].
    exists v. unfold column_cells. cbn [rows]. rewrite map_map.
    apply in_map_iff. exists r. split; auto.
    unfold cell_at at 1.
    rewrite (nth_indep _ None (cell_at 0 r)) by now rewrite length_map.
    now rewrite (map_nth (fun j => cell_at j r)).
Qed.

Lemma filter_id (A : Type) (f : A -> bool) (l : list A) :
  (forall a, In a l -> f a = true) -> filter f l = l.
Proof.
  induction l as [|a l IH]; intros H; simpl; auto.
  rewrite H by now left. f_equal. apply IH. intros b Hb. apply H. now right.
Qed.

(** X1. Trimming never adds rows or columns, leaves every row as long as the
    header, and leaves no row and no column whose cells are all null. *)
Theorem remove_empty_rows_columns_spec (df : DataFrame) :
  let out := remove_empty_rows_columns df in
  len out <= len df
  /\ List.length (columns out) <= List.length (columns df)
  /\ Forall (fun r => List.length r = List.length (columns out)
                      /\ forallb isnull r = false) (rows out)
  /\ (forall k, k < List.length (columns out) ->
                forallb isnull (column_cells k out) = false).
Proof.
  cbv zeta. split; [|split; [|apply (remove_empty_rows_columns_trimmed df)]].
  - unfold remove_empty_rows_columns. rewrite dropna_columns_all_spec. cbv zeta.
    unfold len. cbn [rows]. rewrite length_map. apply filter_length_le.
  - unfold remove_empty_rows_columns. rewrite dropna_columns_all_spec. cbv zeta.
    cbn [columns]. rewrite length_map.
    etransitivity; [apply filter_length_le|]. now rewrite length_seq.
Qed.

(** X2. Trimming a trimmed table changes nothing. *)
Theorem remove_empty_rows_columns_idempotent (df : DataFrame) :
  remove_empty_rows_columns (remove_empty_rows_columns df)
  = remove_empty_rows_columns df.
Proof.
  destruct (remove_empty_rows_columns_trimmed df) as (Hrows & Hcols).
  cbv zeta in Hrows, Hcols.
  set (out := remove_empty_rows_columns df) in *.
  rewrite Forall_forall in Hrows.
  unfold remove_empty_rows_columns at 1.
  assert (E1 : dropna_rows_all out = out).
  { unfold dropna_rows_all. rewrite filter_id; [now destruct out|].
    intros r Hr. destruct (Hrows r Hr) as [Hl Hn].
    now rewrite <- Hl, read_row_id, Hn. }
  rewrite E1, dropna_columns_all_spec.
  rewrite filter_id.
  - destruct out as [cols rs]. cbn [columns rows] in *. f_equal.
    + apply map_nth_seq.
    + rewrite <- (map_id rs) at 2. apply map_ext_in. intros r Hr.
      destruct (Hrows r Hr) as [<- _]. apply read_row_id.
  - intros j Hj. apply in_seq in Hj. rewrite Hcols; [reflexivity | lia].
Qed.

(** ** When normalization succeeds *)

Lemma positions_from_absent label ls : forall k,
  ~ In label ls -> positions_from label ls k = [].
Proof.
  induction ls as [|l t IH]; intros k H; cbn [positions_from]; auto.
  destruct (String.eqb l label) eqn:E.
  - apply String.eqb_eq in E. subst. exfalso. apply H. now left.
  - apply IH. intros Hin. apply H. now right.
Qed.

Lemma positions_from_present label ls : forall k,
  In label ls -> positions_from label ls k <> [].
Proof.
  induction ls as [|l t IH]; intros k H; cbn [positions_from]; [destruct H|].
  destruct (String.eqb l label) eqn:E; [discriminate|].
  destruct H as [-> | H]; [now rewrite String.eqb_refl in E | now apply IH].
Qed.

Lemma positions_from_NoDup label ls : forall k,
  NoDup ls -> In label ls -> exists j, positions_from label ls k = [j].
Proof.
  induction ls as [|l t IH]; intros k Hnd Hin; [destruct Hin|].
  inversion Hnd as [|? ? Hnotin Hnd']; subst. cbn [positions_from].
  destruct (String.eqb l label) eqn:E.
  - apply String.eqb_eq in E. subst. rewrite positions_from_absent by assumption. eauto.
  - destruct Hin as [-> | Hin]; [now rewrite String.eqb_refl in E | now apply IH].
Qed.

Lemma positions_from_single_NoDup ls : forall k,
  (forall label, In label ls -> exists j, positions_from label ls k = [j]) ->
  NoDup ls.
Proof.
  induction ls as [|l t IH]; intros k H; constructor.
  - destruct (H l (or_introl eq_refl)) as [j Hj]. cbn [positions_from] in Hj.
    rewrite String.eqb_refl in Hj. injection Hj as _ Hj.
    intros Hin. now apply (positions_from_present l t (S k)) in Hin.
  - apply (IH (S k)). intros label Hin.
    destruct (H label (or_intror Hin)) as [j Hj]. cbn [positions_from] in Hj.
    destruct (String.eqb l label); eauto.
    injection Hj as _ Hj. now apply (positions_from_present label t (S k)) in Hin.
Qed.

Lemma get_series_Ok df col :
  (exists j, positions df col = [j]) <-> (exists js, get_series df col = Ok js).
Proof.
  unfold get_series. split.
  - intros [j ->]. eauto.
  - intros [js H]. destruct (positions df col) as [|j [|]]; try discriminate. eauto.
Qed.

Lemma positions_labels df df' col :
  labels df = labels df' -> positions df col = positions df' col.
Proof. unfold positions. now intros ->. Qed.

Lemma standardize_loop_Ok cols : forall df,
  (forall col, In col cols -> exists j, positions df col = [j]) ->
  exists out, standardize_loop cols df = Ok out.
Proof.
  induction cols as [|col rest IH]; intros df H; cbn [standardize_loop]; eauto.
  assert (Hrest : forall df', labels df' = labels df ->
                    exists out, standardize_loop rest df' = Ok out).
  { intros df' E. apply IH. intros c Hc.
    rewrite (positions_labels df' df c E). apply H. now right. }
  destruct (Str.startswith col "source_" || Str.endswith col "_timestamp"); auto.
  destruct (proj1 (get_series_Ok df col) (H col (or_introl eq_refl))) as [[j s] ->].
  cbn [bind].
  repeat match goal with
         | |- context [if ?b then _ else _] => destruct b
         end; apply Hrest; auto using labels_set_series.
Qed.

Lemma enforce_string_loop_Ok cols : forall df,
  (forall col, In col cols -> exists j, positions df col = [j]) <->
  (exists out, enforce_string_loop cols df = Ok out).
Proof.
  induction cols as [|col rest IH]; intros df; cbn [enforce_string_loop].
  - split; eauto. intros _ col [].
  - split.
    + intros H.
      destruct (proj1 (get_series_Ok df col) (H col (or_introl eq_refl))) as [[j s] ->].
      cbn [bind].
      destruct (dtype_eqb (s_dtype s) DObject); apply IH; intros c Hc;
        [rewrite (positions_labels _ df c (labels_set_series df j _))|];
        apply H; now right.
    + intros [out H] c Hc.
      destruct (get_series df col) as [[j s]|e] eqn:E; cbn [bind] in H; [|discriminate].
      destruct Hc as [<- | Hc]; [apply get_series_Ok; eauto|].
      destruct (dtype_eqb (s_dtype s) DObject).
      * rewrite <- (positions_labels _ df c (labels_set_series df j (astype_string s))).
        apply (proj2 (IH _)); eauto.
      * apply (proj2 (IH _)); eauto.
Qed.

Lemma NoDup_labels_set_scalar df l d v :
  NoDup (labels (set_scalar df l d v)) <-> NoDup (labels df).
Proof.
  rewrite labels_set_scalar. destruct (has_column df l) eqn:E; [reflexivity|].
  split.
  - apply NoDup_app_remove_r.
  - intros H. apply NoDup_app; auto.
    + repeat constructor. intros [].
    + intros x Hx [<- | []]. apply has_column_In in Hx. congruence.
Qed.

Lemma NoDup_labels_extract_fleet_info df source_file :
  NoDup (labels (extract_fleet_info df source_file)) <-> NoDup (labels df).
Proof.
  unfold extract_fleet_info.
  destruct (fleet_match source_file), (bus_range_match source_file) as [[? ?]|];
    now rewrite ?NoDup_labels_set_scalar.
Qed.

(** X3. Normalization returns a table exactly when the canonical names of
    the columns that are not empty are pairwise different; two columns of the
    same canonical name make it raise. *)
Theorem process_dataframe_succeeds_iff (df : DataFrame) (source_file : string) :
  (exists out, process_dataframe df source_file = Ok out)
  <-> NoDup (clean_names (labels (remove_empty_rows_columns df))).
Proof.
  rewrite <- labels_clean_column_names.
  set (df2 := clean_column_names (remove_empty_rows_columns df)).
  unfold process_dataframe. fold df2. unfold standardize_data_types. split.
  - intros [out H].
    destruct (standardize_loop (labels df2) df2) as [df3|e] eqn:E3; cbn [bind] in H;
      [|discriminate].
    apply labels_standardize_loop in E3.
    assert (Hpos : forall col, In col (labels (extract_fleet_info df3 source_file)) ->
                     exists j, positions (extract_fleet_info df3 source_file) col = [j]).
    { apply enforce_string_loop_Ok. eauto. }
    apply positions_from_single_NoDup in Hpos.
    apply NoDup_labels_extract_fleet_info in Hpos. now rewrite E3 in Hpos.
  - intros Hnd.
    destruct (standardize_loop_Ok (labels df2) df2) as [df3 E3].
    { intros col Hc. now apply positions_from_NoDup. }
    rewrite E3. cbn [bind]. apply labels_standardize_loop in E3.
    apply enforce_string_loop_Ok. intros col Hc. apply positions_from_NoDup; auto.
    apply NoDup_labels_extract_fleet_info. now rewrite E3.
Qed.

(** ** What a normalized table looks like *)

Lemma len_set_series df j s : len (set_series df j s) = len df.
Proof.
  unfold set_series, len. cbn [rows].
  rewrite length_map, length_combine, length_seq. apply Nat.min_id.
Qed.

Lemma dtypes_set_series df j s :
  dtypes (set_series df j s) = replace_nth j (s_dtype s) (dtypes df).
Proof.
  unfold dtypes, set_series. cbn [columns].
  generalize (nth j (labels df) ""). generalize (columns df). clear.
  intros l. revert j. induction l as [|[a t] l IH]; intros [|j] lab; simpl; auto.
  now rewrite IH.
Qed.

Lemma nth_replace_nth (A : Type) (d a : A) (l : list A) : forall j k,
  nth k (replace_nth j a l) d
  = if (k =? j) && (j <? List.length l) then a else nth k l d.
Proof.
  induction l as [|x l IH]; intros [|j] [|k]; simpl; rewrite ?andb_false_r; auto.
Qed.

Lemma positions_from_complete label ls : forall k j,
  nth_error ls j = Some label -> In (k + j) (positions_from label ls k).
Proof.
  induction ls as [|l t IH]; intros k [|j] H; simpl in H; try discriminate.
  - injection H as ->. cbn [positions_from]. rewrite String.eqb_refl.
    left. lia.
  - cbn [positions_from]. specialize (IH (S k) j H).
    replace (k + S j) with (S k + j) by lia.
    destruct (String.eqb l label); [now right | assumption].
Qed.

Lemma positions_complete df label j :
  nth_error (labels df) j = Some label -> In j (positions df label).
Proof. intros H. apply (positions_from_complete label (labels df) 0 j H). Qed.

Lemma len_standardize_loop cols : forall df out,
  standardize_loop cols df = Ok out -> len out = len df.
Proof.
  induction cols as [|col rest IH]; intros df out; cbn [standardize_loop].
  - now intros [= <-].
  - destruct (Str.startswith col "source_" || Str.endswith col "_timestamp"); [apply IH|].
    destruct (get_series df col) as [[j s]|e]; cbn [bind]; [|discriminate].
    repeat match goal with
           | |- context [if ?b then _ else _] => destruct b
           end;
      intros H; apply IH in H; now rewrite ?len_set_series in H.
Qed.

Lemma len_enforce_string_loop cols : forall df out,
  enforce_string_loop cols df = Ok out -> len out = len df.
Proof.
  induction cols as [|col rest IH]; intros df out; cbn [enforce_string_loop].
  - now intros [= <-].
  - destruct (get_series df col) as [[j s]|e]; cbn [bind]; [|discriminate].
    destruct (dtype_eqb (s_dtype s) DObject);
      intros H; apply IH in H; now rewrite ?len_set_series in H.
Qed.

Lemma len_extract_fleet_info df source_file :
  len (extract_fleet_info df source_file) = len df.
Proof.
  unfold extract_fleet_info.
  destruct (fleet_match source_file), (bus_range_match source_file) as [[? ?]|];
    now rewrite ?len_set_scalar.
Qed.

Lemma dtype_eqb_eq a b : dtype_eqb a b = true <-> a = b.
Proof. destruct a, b; simpl; split; intros; congruence. Qed.

Lemma enforce_string_loop_dtypes cols : forall df out,
  enforce_string_loop cols df = Ok out ->
  forall j, j < List.length (columns df) ->
            nth j (dtypes df) DObject <> DObject \/ In (nth j (labels df) "") cols ->
            nth j (dtypes out) DObject <> DObject.
Proof.
  induction cols as [|col rest IH]; intros df out; cbn [enforce_string_loop].
  - intros [= <-] j _ [H | []]. exact H.
  - destruct (get_series df col) as [[j0 s]|e] eqn:E; cbn [bind]; [|discriminate].
    unfold get_series in E.
    destruct (positions df col) as [|j1 [|]] eqn:Ep; try discriminate.
    injection E as <- <-. cbn [s_dtype].
    intros H j Hj Hor.
    assert (Hcol : nth j (labels df) "" = col -> j = j1).
    { intros Hl.
      assert (Hin : In j (positions df col)).
      { apply positions_complete. rewrite <- Hl. apply nth_error_nth'.
        now rewrite length_labels. }
      rewrite Ep in Hin. destruct Hin as [-> | []]. reflexivity. }
    destruct (dtype_eqb (nth j1 (dtypes df) DObject) DObject) eqn:Ed.
    + apply (IH _ _ H).
      * now rewrite <- length_labels, labels_set_series, length_labels.
      * rewrite dtypes_set_series, nth_replace_nth. cbn [s_dtype astype_string].
        destruct ((j =? j1) && (j1 <? List.length (dtypes df))) eqn:Ej;
          [left; discriminate|].
        rewrite labels_set_series.
        destruct Hor as [Hd | [Hc | Hr]]; auto.
        symmetry in Hc. apply Hcol in Hc. subst j1.
        rewrite Nat.eqb_refl in Ej. simpl in Ej.
        apply Nat.ltb_ge in Ej. unfold dtypes in Ej. rewrite length_map in Ej. lia.
    + apply (IH _ _ H); auto.
      destruct Hor as [Hd | [Hc | Hr]]; auto.
      symmetry in Hc. apply Hcol in Hc. subst j1. left. intros Heq.
      rewrite Heq in Ed. discriminate.
Qed.

Lemma process_dataframe_dtypes (df : DataFrame) (source_file : string) (out : DataFrame) :
  process_dataframe df source_file = Ok out ->
  Forall (fun d => d <> DObject) (dtypes out).
Proof.
  unfold process_dataframe, standardize_data_types.
  destruct (standardize_loop _ _) as [df3|e] eqn:E3; cbn [bind]; [|discriminate].
  intros H. apply Forall_forall. intros d Hd.
  destruct (In_nth _ _ DObject Hd) as (j & Hj & <-).
  pose proof (labels_enforce_string_loop _ _ _ H) as Hl.
  assert (Hw : j < List.length (columns (extract_fleet_info df3 source_file))).
  { rewrite <- length_labels, <- Hl, length_labels.
    unfold dtypes in Hj. now rewrite length_map in Hj. }
  apply (enforce_string_loop_dtypes _ _ _ H j Hw). right.
  apply nth_In. now rewrite length_labels.
Qed.

(** X4. A normalized table has as many rows as the sheet has rows that are
    not empty, and none of its columns is left with the generic object
    dtype. *)
Theorem process_dataframe_shape (df : DataFrame) (source_file : string) (out : DataFrame) :
  process_dataframe df source_file = Ok out ->
  len out = len (remove_empty_rows_columns df)
  /\ Forall (fun d => d <> DObject) (dtypes out).
Proof.
  intros Hout. split; [|now apply (process_dataframe_dtypes df source_file)].
  revert Hout. unfold process_dataframe, standardize_data_types.
  destruct (standardize_loop _ _) as [df3|e] eqn:E3; cbn [bind]; [|discriminate].
  intros H.
  rewrite (len_enforce_string_loop _ _ _ H), len_extract_fleet_info.
  now rewrite (len_standardize_loop _ _ _ E3).
Qed.

Lemma labels_extract_fleet_info_In df source_file l :
  In l (labels (extract_fleet_info df source_file)) ->
  In l (labels df) \/ l = "fleet_number" \/ l = "bus_range_start" \/ l = "bus_range_end".
Proof.
  without_library.
  assert (S : forall a lab d v x, In x (labels (set_scalar a lab d v)) ->
                                  In x (labels a) \/ x = lab).
  { intros a lab d v x. rewrite labels_set_scalar.
    destruct (has_column a lab); auto. rewrite in_app_iff. simpl. intuition. }
  unfold extract_fleet_info.
  destruct (fleet_match source_file), (bus_range_match source_file) as [[? ?]|];
    intros H; repeat (apply S in H; destruct H as [H | ->]; auto).
Qed.

Lemma has_column_extract_fleet_info df source_file :
  has_column (extract_fleet_info df source_file) "fleet_number" = true.
Proof. apply (extract_fleet_info_columns df source_file). Qed.

Lemma canonical_not_blank s :
  canonical (Str.chars s) -> s <> "" ->
  is_nil (Str.strip Char.isspace (Str.chars s)) = false.
Proof.
  intros (Hw & _) Hne. rewrite strip_none.
  - destruct (Str.chars s) eqn:E; auto.
    apply (f_equal Str.of_chars) in E. rewrite of_chars_chars in E. now subst.
  - eapply Forall_impl; [|exact Hw]. intros c [H _]. now apply isword_not_isspace.
Qed.

(** X5. On a normalized table the rule [valid_columns] always passes, and so
    does [reasonable_data_types]: no column name is blank and no column is of
    the object dtype. *)
Theorem normalized_passes_column_rules
        (df : DataFrame) (source_file : string) (out : DataFrame) (ctx : context) :
  process_dataframe df source_file = Ok out ->
  has_valid_columns out ctx = Ok (true, "All column names are valid")
  /\ exists message, reasonable_data_types out ctx = Ok (true, message).
Proof.
  intros H. pose proof (process_dataframe_labels _ _ _ H) as Hl.
  pose proof (process_dataframe_dtypes _ _ _ H) as Hd. split.
  - unfold has_valid_columns.
    replace (filter _ (labels out)) with (@nil string); [reflexivity|].
    symmetry. rewrite Hl. clear.
    set (ls := labels (extract_fleet_info _ _)).
    assert (Hall : forall l, In l ls ->
                     is_nil (Str.strip Char.isspace (Str.chars l)) = false).
    { intros l Hin. apply labels_extract_fleet_info_In in Hin.
      destruct Hin as [Hin | [-> | [-> | ->]]]; try reflexivity.
      rewrite labels_clean_column_names in Hin.
      pose proof (clean_names_canonical (labels (remove_empty_rows_columns df))) as Hc.
      rewrite Forall_forall in Hc. destruct (Hc l Hin). now apply canonical_not_blank. }
    induction ls as [|l t IH]; simpl; auto.
    rewrite Hall by now left. apply IH. intros x Hx. apply Hall. now right.
  - unfold reasonable_data_types.
    assert (Hcols : List.length (columns out) <> 0).
    { pose proof (has_column_extract_fleet_info
                    (clean_column_names (remove_empty_rows_columns df)) source_file) as Hf.
      rewrite <- (has_column_labels out _ _ Hl) in Hf. apply has_column_In in Hf.
      rewrite <- length_labels. destruct (labels out); [destruct Hf | discriminate]. }
    apply Nat.eqb_neq in Hcols. rewrite Hcols.
    replace (filter (fun d => dtype_eqb d DObject) (dtypes out)) with (@nil dtype).
    + cbn [List.length Z.of_nat]. eexists. reflexivity.
    + symmetry. clear - Hd. induction Hd as [|d l Hne _ IH]; simpl; auto.
      destruct (dtype_eqb d DObject) eqn:E; auto.
      apply dtype_eqb_eq in E. congruence.
Qed.

(** ** Type standardization *)









(** ** Messages, history and registry of the validator *)

Lemma apply_rule_messages df ctx results name info :
  List.length (res_warnings (apply_rule df ctx results name info))
  + List.length (res_errors (apply_rule df ctx results name info))
  = List.length (res_warnings results) + List.length (res_errors results)
    + (if entry_passed (expected_entry df ctx info) then 0 else 1).
Proof.
  unfold apply_rule, expected_entry.
  destruct (func info df ctx) as [[passed message]|e]; cbn.
  - destruct passed; cbn; [lia|].
    destruct (Str.contains "error" (lower_str message)); cbn;
      rewrite length_app; simpl; lia.
  - rewrite length_app. simpl. lia.
Qed.

Lemma apply_rule_errors_grow df ctx results name info x :
  In x (res_errors results) -> In x (res_errors (apply_rule df ctx results name info)).
Proof.
  unfold apply_rule.
  destruct (func info df ctx) as [[passed message]|e]; cbn.
  - destruct passed; cbn; auto.
    destruct (Str.contains "error" (lower_str message)); cbn; auto.
    intros H. apply in_or_app. now left.
  - intros H. apply in_or_app. now left.
Qed.

Lemma run_rules_errors_grow df ctx rules x : forall results,
  In x (res_errors results) -> In x (res_errors (run_rules rules df ctx results)).
Proof.
  induction rules as [|[n i] rest IH]; intros results H; cbn [run_rules]; auto.
  now apply IH, apply_rule_errors_grow.
Qed.

Lemma run_rules_messages df ctx rules : forall results,
  List.length (res_warnings (run_rules rules df ctx results))
  + List.length (res_errors (run_rules rules df ctx results))
  = List.length (res_warnings results) + List.length (res_errors results)
    + List.length (filter (fun '(_, info) =>
                             negb (entry_passed (expected_entry df ctx info))) rules).
Proof.
  induction rules as [|[n i] rest IH]; intros results; cbn [run_rules filter].
  - simpl. lia.
  - rewrite IH, apply_rule_messages.
    destruct (entry_passed (expected_entry df ctx i)); simpl; lia.
Qed.

Lemma run_rules_raised df ctx rules name info e : forall results,
  In (name, info) rules -> func info df ctx = Raise e ->
  In (name ++ ": Rule execution failed")%string
     (res_errors (run_rules rules df ctx results)).
Proof.
  induction rules as [|[n i] rest IH]; intros results Hin Hr; [destruct Hin|].
  cbn [run_rules]. destruct Hin as [Heq | Hin].
  - injection Heq as -> ->. apply run_rules_errors_grow.
    unfold apply_rule. rewrite Hr. cbn. apply in_or_app. right. now left.
  - now apply IH.
Qed.

(** X7. A validation result carries one warning or error per rule that did
    not pass, a rule that raised being among the errors; it passed exactly
    when it carries neither warnings nor errors. *)
Theorem validate_dataframe_messages (self : DataValidator) (df : DataFrame)
        (ctx : option context) :
  NoDup (keys (validation_rules self)) ->
  let c := match ctx with Some c => c | None => [] end in
  let results := fst (validate_dataframe self df ctx) in
  List.length (res_warnings results) + List.length (res_errors results)
  = List.length (filter (fun '(_, entry) => negb (entry_passed entry)) (res_rules results))
  /\ (res_passed results = true <-> res_warnings results = [] /\ res_errors results = [])
  /\ (forall name info e,
        In (name, info) (validation_rules self) -> func info df c = Raise e ->
        In (name ++ ": Rule execution failed")%string (res_errors results)).
Proof.
  without_library.
  intros Hnd. cbv zeta.
  destruct (validate_dataframe_rules self df ctx Hnd) as [Hr Hp]. cbv zeta in Hr, Hp.
  set (c := match ctx with Some c => c | None => [] end) in *.
  assert (Hcount : List.length (res_warnings (fst (validate_dataframe self df ctx)))
                   + List.length (res_errors (fst (validate_dataframe self df ctx)))
                   = List.length (filter (fun '((_, info) : string * RuleInfo) =>
                                            negb (entry_passed (expected_entry df c info)))
                                         (validation_rules self))).
  { unfold validate_dataframe. cbn [fst]. fold c. rewrite run_rules_messages. reflexivity. }
  assert (Hfilter : forall rules,
            List.length (filter (fun '((_, entry) : string * RuleEntry) => negb (entry_passed entry))
                                (map (fun '((name, info) : string * RuleInfo) => (name, expected_entry df c info))
                                     rules))
            = List.length (filter (fun '((_, info) : string * RuleInfo) =>
                                     negb (entry_passed (expected_entry df c info))) rules)).
  { induction rules as [|[n i] rest IH]; simpl; auto.
    destruct (entry_passed (expected_entry df c i)); simpl; now rewrite IH. }
  split; [now rewrite Hr, Hfilter|]. split.
  - rewrite Hp. rewrite <- (Hfilter (validation_rules self)) in Hcount.
    clear Hfilter Hr Hp.
    assert (Hall : forall rules,
              forallb (fun '((_, info) : string * RuleInfo) => entry_passed (expected_entry df c info)) rules = true
              <-> List.length (filter (fun '((_, entry) : string * RuleEntry) => negb (entry_passed entry))
                    (map (fun '((name, info) : string * RuleInfo) => (name, expected_entry df c info)) rules)) = 0).
    { induction rules as [|[n i] rest IH]; simpl; [tauto|].
      destruct (entry_passed (expected_entry df c i)); simpl; [exact IH|].
      split; discriminate. }
    specialize (Hall (validation_rules self)). rewrite <- Hcount in Hall.
    destruct (res_warnings _), (res_errors _); simpl in Hall; split;
      try (intros [? ?]); try discriminate; auto;
      try (intros H; apply Hall in H; discriminate).
    now apply Hall.
  - intros name info e Hin He. unfold validate_dataframe. cbn [fst]. fold c.
    now apply (run_rules_raised df c _ name info e).
Qed.

Lemma Zpos_of_nat_succ n : Zpos (Pos.of_nat (S n)) = Z.of_nat (S n).
Proof. now rewrite <- Pos.of_nat_succ, Zpos_P_of_succ_nat, Nat2Z.inj_succ. Qed.

(** X8. After a validation the summary counts one validation more, the
    passed count grows exactly when the new result passed, passed and failed
    add up to the total, and the pass rate lies between 0 and 1. *)
Theorem summary_after_validation (self : DataValidator) (df : DataFrame)
        (ctx : option context) :
  let n := List.length (validation_results self) in
  let p := List.length (filter res_passed (validation_results self)) in
  let results := fst (validate_dataframe self df ctx) in
  let self' := snd (validate_dataframe self df ctx) in
  let p' := p + (if res_passed results then 1 else 0) in
  get_validation_summary self'
  = [("total_validations", PInt (Z.of_nat (n + 1)));
     ("passed", PInt (Z.of_nat p'));
     ("failed", PInt (Z.of_nat (n + 1 - p')));
     ("pass_rate", PFloat (Z.of_nat p' # Pos.of_nat (n + 1)))]
  /\ p' <= n + 1
  /\ (0 <= Z.of_nat p' # Pos.of_nat (n + 1))%Q
  /\ (Z.of_nat p' # Pos.of_nat (n + 1) <= 1)%Q.
Proof.
  cbv zeta. set (results := fst (validate_dataframe self df ctx)).
  set (n := List.length (validation_results self)).
  set (p := List.length (filter res_passed (validation_results self))).
  assert (Hp : p <= n) by apply filter_length_le.
  assert (Hp' : p + (if res_passed results then 1 else 0) <= n + 1)
    by (destruct (res_passed results); lia).
  split; [|split; [exact Hp'|split]].
  - unfold get_validation_summary. rewrite validate_dataframe_history. fold results.
    replace (is_nil (validation_results self ++ [results])) with false
      by now destruct (validation_results self).
    rewrite length_app, filter_app, length_app. fold n p. cbn [List.length filter].
    replace (List.length (if res_passed results then [results] else []))
      with (if res_passed results then 1 else 0) by now destruct (res_passed results).
    replace (0 <? n + 1) with true by (symmetry; apply Nat.ltb_lt; lia).
    now rewrite (Nat2Z.inj_sub _ _ Hp').
  - unfold Qle. simpl. lia.
  - unfold Qle. simpl. replace (n + 1) with (S n) by lia.
    rewrite Zpos_of_nat_succ. lia.
Qed.

Lemma dict_get_set_same (V : Type) (d : list (string * V)) k v :
  dict_get (dict_set d k v) k = Some v.
Proof.
  induction d as [|[k' v'] t IH]; simpl.
  - now rewrite String.eqb_refl.
  - destruct (String.eqb k' k) eqn:E; simpl.
    + now rewrite String.eqb_refl.
    + now rewrite E.
Qed.

Lemma dict_get_set_other (V : Type) (d : list (string * V)) k v k' :
  k' <> k -> dict_get (dict_set d k v) k' = dict_get d k'.
Proof.
  intros Hne. induction d as [|[k0 v0] t IH]; simpl.
  - apply String.eqb_neq in Hne. now rewrite String.eqb_sym, Hne.
  - destruct (String.eqb k0 k) eqn:E; simpl.
    + apply String.eqb_eq in E. subst k0.
      apply String.eqb_neq in Hne. now rewrite String.eqb_sym, Hne.
    + now rewrite IH.
Qed.

(** X9. Registering a rule makes it the rule found under its name and
    leaves the rules of other names alone; a name registered before keeps its
    place in the order of evaluation, a new name goes last.  The history is
    not touched. *)
Theorem add_rule_lookup (self : DataValidator) (name : string) (rule : rule_func)
        (description : string) :
  let self' := add_rule self name rule description in
  dict_get (validation_rules self') name = Some (mkRuleInfo rule description)
  /\ (forall other, other <> name ->
        dict_get (validation_rules self') other = dict_get (validation_rules self) other)
  /\ keys (validation_rules self')
     = (if existsb (String.eqb name) (keys (validation_rules self))
        then keys (validation_rules self)
        else keys (validation_rules self) ++ [name])
  /\ validation_results self' = validation_results self.
Proof.
  cbv zeta. unfold add_rule. cbn [validation_rules validation_results].
  split; [apply dict_get_set_same|].
  split; [intros other H; now apply dict_get_set_other|].
  split; [apply keys_dict_set | reflexivity].
Qed.

Lemma dict_get_map (V W : Type) (f : V -> W) (d : list (string * V)) k :
  dict_get (map (fun '(name, v) => (name, f v)) d) k = option_map f (dict_get d k).
Proof.
  induction d as [|[k' v'] t IH]; simpl; auto.
  now destruct (String.eqb k' k).
Qed.

Lemma forallb_failed_rule df c (rules : list (string * RuleInfo)) name info :
  In (name, info) rules ->
  entry_passed (expected_entry df c info) = false ->
  forallb (fun '(_, info) => entry_passed (expected_entry df c info)) rules = false.
Proof.
  intros Hin Hf. apply not_true_is_false. rewrite forallb_forall. intros H.
  specialize (H _ Hin). cbv beta iota in H. congruence.
Qed.

(** X10. On a table without columns the rule [reasonable_data_types] divides
    by zero: the fleet validator records it as a failed rule with the message
    "Rule execution failed: division by zero", lists it among the errors, and
    the table fails validation. *)
Theorem fleet_validator_no_columns (df : DataFrame) (ctx : option context) :
  columns df = [] ->
  let results := fst (validate_dataframe FleetDataValidator df ctx) in
  dict_get (res_rules results) "reasonable_data_types"
  = Some (mkRuleEntry false "Rule execution failed: division by zero"
                      "Check for reasonable data type distribution")
  /\ In "reasonable_data_types: Rule execution failed" (res_errors results)
  /\ res_passed results = false.
Proof.
  intros Hcols. cbv zeta.
  destruct (validate_dataframe_rules FleetDataValidator df ctx FleetDataValidator_NoDup)
    as [Hr Hp]. cbv zeta in Hr, Hp.
  set (c := match ctx with Some c => c | None => [] end) in *.
  set (info := mkRuleInfo reasonable_data_types
                          "Check for reasonable data type distribution").
  assert (Hraise : func info df c = Raise "division by zero").
  { unfold info. cbn [func]. unfold reasonable_data_types. now rewrite Hcols. }
  assert (Hin : In ("reasonable_data_types", info) (validation_rules FleetDataValidator)).
  { cbn. auto 10. }
  split; [|split].
  - rewrite Hr, (dict_get_map _ _ (expected_entry df c)).
    replace (dict_get (validation_rules FleetDataValidator) "reasonable_data_types")
      with (Some info) by reflexivity.
    cbn [option_map]. unfold expected_entry. now rewrite Hraise.
  - unfold validate_dataframe. cbn [fst]. fold c.
    now apply (run_rules_raised df c _ "reasonable_data_types" info "division by zero").
  - rewrite Hp. apply (forallb_failed_rule df c _ _ _ Hin).
    unfold expected_entry. now rewrite Hraise.
Qed.

(** ** The partitions written *)

Lemma distinct_keys_In l : forall seen k, In k (distinct_keys seen l) -> In k l.
Proof.
  induction l as [|x t IH]; intros seen k; cbn [distinct_keys]; auto.
  destruct (existsb (key_eqb x) seen).
  - intros H. right. now apply (IH seen).
  - intros [<- | H]; [now left | right; now apply (IH (x :: seen))].
Qed.

Lemma key_neq_sym a b : key_eqb a b = false -> key_eqb b a = false.
Proof.
  intros H. destruct (key_eqb b a) eqn:E; auto.
  apply key_eqb_sym in E. congruence.
Qed.

Lemma insert_key_distinct k l :
  Forall (fun b => key_eqb k b = false) l ->
  ForallOrdPairs (fun a b => key_eqb a b = false) l ->
  ForallOrdPairs (fun a b => key_eqb a b = false) (insert_key k l).
Proof.
  induction l as [|h t IH]; intros Hk Hl; cbn [insert_key].
  - repeat constructor.
  - destruct (key_leb k h); [now constructor|].
    inversion Hk as [|? ? Hkh Hkt]; subst. inversion Hl as [|? ? Hh Ht]; subst.
    constructor; [|now apply IH].
    eapply Permutation_Forall; [apply Permutation_sym, insert_key_permutation|].
    constructor; auto using key_neq_sym.
Qed.

Lemma sort_keys_distinct l :
  ForallOrdPairs (fun a b => key_eqb a b = false) l ->
  ForallOrdPairs (fun a b => key_eqb a b = false) (sort_keys l).
Proof.
  induction 1 as [|k t Hk Ht IH]; cbn [sort_keys]; [constructor|].
  apply insert_key_distinct; auto.
  eapply Permutation_Forall; [apply Permutation_sym, sort_keys_permutation | exact Hk].
Qed.

Lemma has_key_row_key js k r :
  has_key js k r = true <-> exists k', row_key js r = Some k' /\ key_eqb k k' = true.
Proof.
  unfold has_key. destruct (row_key js r) as [k'|].
  - split; eauto. now intros [? [[= ->] ?]].
  - split; [discriminate | now intros [? [? _]]].
Qed.

(** X11. Every partition written keeps the header of the dataset and has at
    least one row, all its rows are rows of the dataset with one and the same
    key, and rows of two different partitions never have the same key. *)
Theorem write_partitioned_partitions
        (output_dir : Path) (df : DataFrame) (partition_columns : list string)
        (filename_template : string) (js : list nat) :
  partition_columns <> [] ->
  key_positions df partition_columns = Ok js ->
  exists written,
    write_partitioned output_dir df partition_columns filename_template = Ok written
    /\ Forall (fun w =>
                 columns (snd w) = columns df
                 /\ rows (snd w) <> []
                 /\ (forall r, In r (rows (snd w)) -> In r (rows df))
                 /\ (forall r1 r2 k1 k2,
                       In r1 (rows (snd w)) -> In r2 (rows (snd w)) ->
                       row_key js r1 = Some k1 -> row_key js r2 = Some k2 ->
                       key_eqb k1 k2 = true)) written
    /\ ForallOrdPairs (fun w1 w2 =>
                         forall r1 r2 k1 k2,
                           In r1 (rows (snd w1)) -> In r2 (rows (snd w2)) ->
                           row_key js r1 = Some k1 -> row_key js r2 = Some k2 ->
                           key_eqb k1 k2 = false) written.
Proof.
  intros Hne Hjs. unfold write_partitioned, groupby.
  destruct partition_columns as [|c cs]; [congruence|]. cbn [is_nil].
  rewrite Hjs. cbn [bind].
  set (present := flat_map _ (rows df)).
  eexists. split; [reflexivity|].
  destruct (distinct_keys_spec present []) as (Hd & _ & _).
  apply sort_keys_distinct in Hd.
  assert (Hsome : forall k, In k (sort_keys (distinct_keys [] present)) ->
                    exists r, In r (rows df) /\ has_key js k r = true).
  { intros k Hk.
    apply (Permutation_in _ (sort_keys_permutation _)), distinct_keys_In in Hk.
    unfold present in Hk. apply in_flat_map in Hk. destruct Hk as [r [Hr Hk]].
    exists r. split; auto. apply has_key_row_key.
    destruct (row_key js r) as [k'|]; [|destruct Hk].
    destruct Hk as [<- | []]. eauto using key_eqb_refl. }
  revert Hd Hsome. generalize (sort_keys (distinct_keys [] present)) as ks.
  induction ks as [|k ks IH]; intros Hd Hsome; cbn [map].
  - split; constructor.
  - inversion Hd as [|? ? Hk Hd']; subst.
    destruct (IH Hd') as [IH1 IH2]; [intros; apply Hsome; now right|].
    split; constructor; auto; cbn [write_group snd rows columns].
    + split; [reflexivity|]. split; [|split].
      * destruct (Hsome k (or_introl eq_refl)) as [r [Hr Hkr]].
        intros E. assert (Hin : In r (filter (has_key js k) (rows df)))
          by (apply filter_In; auto).
        rewrite E in Hin. destruct Hin.
      * intros r Hr. now apply filter_In in Hr.
      * intros r1 r2 k1 k2 H1 H2 E1 E2.
        apply filter_In in H1, H2. destruct H1 as [_ H1], H2 as [_ H2].
        apply has_key_row_key in H1, H2.
        destruct H1 as [k1' [E1' H1]], H2 as [k2' [E2' H2]].
        assert (k1' = k1) by congruence. assert (k2' = k2) by congruence. subst.
        eapply key_eqb_trans; eauto using key_eqb_sym.
    + apply Forall_forall. intros w Hw r1 r2 k1 k2 H1 H2 E1 E2.
      apply in_map_iff in Hw. destruct Hw as [[k' d'] [<- Hw]].
      apply in_map_iff in Hw. destruct Hw as [k0 [[= <- <-] Hk0]].
      cbn [write_group snd rows] in H2.
      apply filter_In in H1, H2. destruct H1 as [_ H1], H2 as [_ H2].
      apply has_key_row_key in H1, H2.
      destruct H1 as [k1' [E1' H1]], H2 as [k2' [E2' H2]].
      assert (k1' = k1) by congruence. assert (k2' = k2) by congruence. subst.
      rewrite Forall_forall in Hk. specialize (Hk _ Hk0).
      destruct (key_eqb k1 k2) eqn:E; auto.
      rewrite <- Hk. symmetry.
      eapply key_eqb_trans; [exact H1|].
      eapply key_eqb_trans; [exact E|]. now apply key_eqb_sym.
Qed.

(** ** The fleet rule on derived keys *)



















(** ** Grouping the discovered files *)

Lemma dict_append_get_same (V : Type) (d : list (string * list V)) k v :
  dict_get (dict_append d k v) k =
  Some (match dict_get d k with Some vs => vs ++ [v] | None => [v] end).
Proof.
  induction d as [|[k' vs] t IH]; simpl.
  - now rewrite String.eqb_refl.
  - destruct (String.eqb k' k) eqn:E; simpl; now rewrite E.
Qed.

Lemma dict_append_get_other (V : Type) (d : list (string * list V)) k v k' :
  k' <> k -> dict_get (dict_append d k v) k' = dict_get d k'.
Proof.
  intros Hne. apply String.eqb_neq in Hne.
  induction d as [|[k0 vs] t IH]; simpl.
  - now rewrite String.eqb_sym, Hne.
  - destruct (String.eqb k0 k) eqn:E; simpl.
    + apply String.eqb_eq in E. subst k0. now rewrite String.eqb_sym, Hne.
    + now rewrite IH.
Qed.

Lemma keys_dict_append (V : Type) (d : list (string * list V)) k v :
  keys (dict_append d k v) =
  if existsb (String.eqb k) (keys d) then keys d else keys d ++ [k].
Proof.
  induction d as [|[k' vs] t IH]; cbn [dict_append keys map existsb fst]; auto.
  rewrite (String.eqb_sym k k').
  destruct (String.eqb k' k) eqn:E; cbn [orb keys map fst]; auto.
  fold (keys (dict_append t k v)). rewrite IH. fold (keys t).
  now destruct (existsb (String.eqb k) (keys t)).
Qed.

Lemma dict_append_NoDup (V : Type) (d : list (string * list V)) k v :
  NoDup (keys d) -> NoDup (keys (dict_append d k v)).
Proof.
  intros H. rewrite keys_dict_append.
  destruct (existsb (String.eqb k) (keys d)) eqn:E; auto.
  apply NoDup_app; auto.
  - repeat constructor. intros [].
  - intros x Hx [Hk|[]]. subst x.
    assert (existsb (String.eqb k) (keys d) = true); [|congruence].
    apply existsb_exists. exists k. split; auto. apply String.eqb_refl.
Qed.

Lemma dict_append_members (V : Type) (d : list (string * list V)) k v :
  Permutation (flat_map snd (dict_append d k v)) (flat_map snd d ++ [v]).
Proof.
  induction d as [|[k' vs] t IH]; simpl; auto.
  destruct (String.eqb k' k); simpl.
  - rewrite <- !app_assoc. apply Permutation_app_head. apply Permutation_app_comm.
  - rewrite <- app_assoc. now apply Permutation_app_head.
Qed.

Lemma group_files_by_fleet_snoc files f :
  group_files_by_fleet (files ++ [f]) =
  dict_append (group_files_by_fleet files) (fleet_name_of f) f.
Proof. unfold group_files_by_fleet. now rewrite fold_left_app. Qed.

Lemma filter_snoc (A : Type) (p : A -> bool) l a :
  filter p (l ++ [a]) = filter p l ++ (if p a then [a] else []).
Proof. rewrite filter_app. simpl. now destruct (p a). Qed.

(** X13. Grouping by fleet loses and repeats no file: every fleet name is a
    key once, its group is exactly the files that have this fleet name, in
    the order they were discovered, and a name no file has is no key. *)
Theorem group_files_by_fleet_spec (files : list FilePath) :
  let fleet_groups := group_files_by_fleet files in
  NoDup (keys fleet_groups)
  /\ (forall fleet_name,
        dict_get fleet_groups fleet_name =
        match filter (fun f => String.eqb (fleet_name_of f) fleet_name) files with
        | [] => None
        | group => Some group
        end)
  /\ Permutation (flat_map snd fleet_groups) files.
Proof.
  without_library. cbv zeta.
  induction files as [|f files IH] using rev_ind.
  - repeat split; auto. constructor.
  - destruct IH as (Hnd & Hget & Hperm). rewrite group_files_by_fleet_snoc.
    split; [|split].
    + now apply dict_append_NoDup.
    + intros fleet_name. rewrite filter_snoc.
      destruct (String.eqb (fleet_name_of f) fleet_name) eqn:E.
      * apply String.eqb_eq in E. subst fleet_name.
        rewrite dict_append_get_same, Hget.
        destruct (filter _ files); reflexivity.
      * rewrite dict_append_get_other, Hget, app_nil_r; auto.
        intros ->. now rewrite String.eqb_refl in E.
    + rewrite dict_append_members. now apply Permutation_app_tail.
Qed.

(** ** The suffix of a file name, the check before reading and the reader *)

Lemma of_chars_app l m : Str.of_chars (l ++ m) = (Str.of_chars l ++ Str.of_chars m)%string.
Proof. unfold Str.of_chars. induction l as [|c l IH]; simpl; auto. now rewrite IH. Qed.

Lemma length_chars s : List.length (Str.chars s) = String.length s.
Proof. unfold Str.chars. induction s as [|c s IH]; simpl; auto. Qed.

Lemma chars_nil s : Str.chars s = [] -> s = "".
Proof. now destruct s. Qed.

Lemma is_dot_lower (c : ascii) : Ascii.eqb (Char.lower c) "." = Ascii.eqb c ".".
Proof. destruct c as [[] [] [] [] [] [] [] []]; reflexivity. Qed.

Lemma rfind_dot_app l : forall m k found,
  rfind_dot (l ++ m) k found = rfind_dot m (k + List.length l) (rfind_dot l k found).
Proof.
  induction l as [|c l IH]; intros m k found; simpl.
  - now rewrite Nat.add_0_r.
  - rewrite IH. now rewrite Nat.add_succ_r.
Qed.

Lemma rfind_dot_lower l : forall k found,
  rfind_dot (Str.lower l) k found = rfind_dot l k found.
Proof.
  induction l as [|c l IH]; intros k found; simpl; auto.
  now rewrite is_dot_lower, IH.
Qed.

Lemma rfind_dot_bound l : forall k found i,
  rfind_dot l k found = Some i -> found = Some i \/ k <= i < k + List.length l.
Proof.
  induction l as [|c l IH]; intros k found i; simpl; auto.
  intros H. apply IH in H. destruct H as [H|H]; [|right; lia].
  destruct (Ascii.eqb c "."); auto. injection H as <-. right. lia.
Qed.

Lemma lower_str_app s t : lower_str (s ++ t) = (lower_str s ++ lower_str t)%string.
Proof.
  unfold lower_str, Str.lower. now rewrite chars_app, map_app, of_chars_app.
Qed.

Lemma length_lower_str s : String.length (lower_str s) = String.length s.
Proof.
  unfold lower_str, Str.lower.
  now rewrite <- !length_chars, chars_of_chars, length_map.
Qed.

(** A name that ends with an Excel suffix in any letter case, after a stem
    that is not empty, has this ending as its suffix. *)
Lemma suffix_of_name_excel stem ext :
  stem <> "" -> In (lower_str ext) excel_suffixes ->
  suffix_of_name (stem ++ ext) = ext.
Proof.
  without_library.
  intros Hstem Hext. unfold suffix_of_name. cbv zeta.
  assert (Hfind : rfind_dot (Str.chars (stem ++ ext)) 0 None
                  = Some (List.length (Str.chars stem))
                  /\ 2 <= List.length (Str.chars ext)).
  { rewrite chars_app, rfind_dot_app, Nat.add_0_l.
    rewrite <- (rfind_dot_lower (Str.chars ext)).
    assert (Hlen : List.length (Str.chars ext) = String.length (lower_str ext))
      by now rewrite length_lower_str, length_chars.
    rewrite Hlen.
    replace (Str.lower (Str.chars ext)) with (Str.chars (lower_str ext))
      by (unfold lower_str; apply chars_of_chars).
    destruct Hext as [<-|[<-|[]]]; simpl; split; auto; lia. }
  destruct Hfind as [-> Hlen].
  assert (Hpos : 0 < List.length (Str.chars stem)).
  { destruct (Str.chars stem) eqn:E; simpl; try lia.
    apply chars_nil in E. contradiction. }
  rewrite chars_app, length_app.
  replace (0 <? List.length (Str.chars stem)) with true
    by (symmetry; now apply Nat.ltb_lt).
  replace (List.length (Str.chars stem)
           <? List.length (Str.chars stem) + List.length (Str.chars ext) - 1)
    with true by (symmetry; apply Nat.ltb_lt; lia).
  cbn [andb].
  rewrite skipn_app, skipn_all, Nat.sub_diag. simpl. apply of_chars_chars.
Qed.

(** A suffix that is not empty leaves a stem that is not empty before it. *)
Lemma suffix_of_name_stem name :
  suffix_of_name name <> "" ->
  exists stem, name = (stem ++ suffix_of_name name)%string /\ stem <> "".
Proof.
  without_library.
  unfold suffix_of_name. cbv zeta.
  destruct (rfind_dot (Str.chars name) 0 None) as [i|]; [|congruence].
  destruct (0 <? i) eqn:E0; cbn [andb]; [|congruence].
  destruct (i <? List.length (Str.chars name) - 1) eqn:E1; [|congruence].
  intros _. apply Nat.ltb_lt in E0, E1.
  exists (Str.of_chars (firstn i (Str.chars name))). split.
  - now rewrite <- of_chars_app, firstn_skipn, of_chars_chars.
  - intros H. apply (f_equal String.length) in H.
    rewrite <- length_chars, chars_of_chars, length_firstn in H. simpl in H. lia.
Qed.

Lemma excel_suffix_iff name :
  existsb (String.eqb (lower_str (suffix_of_name name))) excel_suffixes = true <->
  exists stem ext, name = (stem ++ ext)%string /\ stem <> ""
                   /\ In (lower_str ext) excel_suffixes.
Proof.
  without_library.
  rewrite existsb_exists. split.
  - intros (x & Hin & Heq). apply String.eqb_eq in Heq. subst x.
    destruct (suffix_of_name_stem name) as (stem & Hname & Hstem).
    { intros H. rewrite H in Hin. destruct Hin as [Hin|[Hin|[]]]; discriminate. }
    now exists stem, (suffix_of_name name).
  - intros (stem & ext & -> & Hstem & Hin).
    rewrite (suffix_of_name_excel _ _ Hstem Hin).
    exists (lower_str ext). split; auto. apply String.eqb_refl.
Qed.

(** X14. The check before reading accepts a file exactly when it exists, is
    not empty, and its name is a stem that is not empty followed by .xlsx or
    .xls in any letter case; it reports no issue for an accepted file and
    exactly one for a refused one. *)
Theorem validate_file_before_processing_spec (file : FileFacts) :
  let '(is_valid, issues) := validate_file_before_processing file in
  (is_valid = true <->
     file_exists file = true /\ 0 < st_size file
     /\ exists stem ext,
          path_name (file_path file) = (stem ++ ext)%string /\ stem <> ""
          /\ In (lower_str ext) [".xlsx"; ".xls"])
  /\ List.length issues = (if is_valid then 0 else 1).
Proof.
  without_library.
  unfold validate_file_before_processing, file_suffix.
  pose proof (excel_suffix_iff (path_name (file_path file))) as Hsuffix.
  fold excel_suffixes.
  destruct (file_exists file); cbn [negb].
  2: { split; auto. split; [discriminate | now intros (H & _)]. }
  destruct (0 <? st_size file) eqn:Esize; cbn [negb].
  2: { split; auto. split; [discriminate |].
       intros (_ & H & _). apply Nat.ltb_lt in H. congruence. }
  apply Nat.ltb_lt in Esize.
  destruct (existsb _ excel_suffixes); cbn [negb].
  - split; auto. split; auto. intros _. repeat split; auto. now apply Hsuffix.
  - split; auto. split; [discriminate |].
    intros (_ & _ & H). apply Hsuffix in H. discriminate.
Qed.

(** X15. The reader agrees with the check before reading: a file the check
    accepts is handed to the Excel library, with the engine xlrd when its
    name ends with .xls in any letter case and openpyxl otherwise; a file
    that exists, is not empty and is refused raises the error for an
    unsupported format, and the library is not asked. *)
Theorem reader_read_file_agrees (file : FileFacts) (sheet_name : option string) :
  file_exists file = true -> 0 < st_size file ->
  reader_read_file file sheet_name =
  if fst (validate_file_before_processing file)
  then read_excel (if Str.endswith (lower_str (path_name (file_path file))) ".xls"
                   then "xlrd" else "openpyxl") file sheet_name
  else Raise ("Unsupported file format: "
              ++ lower_str (suffix_of_name (path_name (file_path file))))%string.
Proof.
  intros Hexists Hsize.
  unfold reader_read_file, validate_file_before_processing, excel_read_file,
    get_engine, file_suffix.
  cbv zeta. rewrite Hexists. apply Nat.ltb_lt in Hsize. rewrite Hsize. cbn [negb].
  destruct (existsb _ excel_suffixes) eqn:E; cbn [negb fst]; auto.
  f_equal.
  apply excel_suffix_iff in E. destruct E as (stem & ext & Hname & Hstem & Hin).
  rewrite Hname, (suffix_of_name_excel _ _ Hstem Hin), lower_str_app.
  unfold Str.endswith. rewrite chars_app, rev_app_distr.
  destruct Hin as [<-|[<-|[]]]; reflexivity.
Qed.

(** ** Writing a table *)






Lemma eqb_empty s : s <> "" -> String.eqb s "" = false.
Proof. intros H. now apply String.eqb_neq. Qed.

Lemma append_empty_r s : (s ++ "")%string = s.
Proof. induction s as [|c s IH]; simpl; auto. now rewrite IH. Qed.

(** The name that [with_suffix] gives to a file of a directory. *)
Lemma with_suffix_name (output_dir : Path) filename ext :
  filename <> "" ->
  exists stem,
    with_suffix (output_dir ++ [filename]) ext = Ok (output_dir ++ [(stem ++ ext)%string])
    /\ stem <> ""
    /\ filename = (stem ++ suffix_of_name filename)%string.
Proof.
  without_library.
  intros Hname. unfold with_suffix. cbv zeta.
  rewrite last_last, removelast_last, (eqb_empty _ Hname).
  destruct (String.eqb (suffix_of_name filename) "") eqn:E.
  - apply String.eqb_eq in E. exists filename. rewrite E, append_empty_r. auto.
  - apply String.eqb_neq in E.
    destruct (suffix_of_name_stem filename E) as (stem & Heq & Hstem).
    exists stem. repeat split; auto.
    do 3 f_equal.
    rewrite <- !length_chars. rewrite Heq at 1 3.
    rewrite chars_app, length_app, Nat.add_sub, firstn_app, Nat.sub_diag, firstn_all.
    simpl. now rewrite app_nil_r, of_chars_chars.
Qed.





(** ** The counters of the pipeline *)

Lemma failed_validations_app l m :
  failed_validations (l ++ m) = failed_validations l + failed_validations m.
Proof. unfold failed_validations. now rewrite filter_app, length_app. Qed.

Lemma process_sheet_accounted self acc sheet_df file_name sheet_label summary_key
      fleet_name :
  exists new,
    accounted self
      (snd (process_sheet self acc sheet_df file_name sheet_label summary_key fleet_name))
      acc
      (fst (process_sheet self acc sheet_df file_name sheet_label summary_key fleet_name))
      new 1.
Proof.
  unfold process_sheet.
  destruct (process_dataframe sheet_df file_name) as [processed_df|e].
  2: { exists []. unfold accounted. cbn [fst snd]. rewrite app_nil_r.
       repeat split; auto. exists 0. simpl. lia. }
  unfold validate_dataframe. cbv zeta.
  set (v := run_rules _ _ _ _).
  exists [v]. unfold accounted.
  assert (Hfail : forall n, (if negb (res_passed v) then n + 1 else n)
                            = n + failed_validations [v]).
  { intros n. unfold failed_validations. simpl. destruct (res_passed v); simpl; lia. }
  destruct (calculate_summary_stats processed_df (Some "fleet_number"))
    as [sheet_summaries|e];
    cbn [fst snd validator processing_stats validation_rules validation_results
         files_processed errors validation_failures sheets_processed total_rows
         data file_validation_results];
    destruct (res_passed v) eqn:Ev; cbn [negb files_processed errors validation_failures
                                         sheets_processed total_rows];
    unfold failed_validations; cbn [filter]; rewrite Ev; cbn [negb List.length];
    repeat split; auto; try lia.
  all: try (exists [processed_df]; simpl; repeat split; auto; lia).
  all: exists 0; simpl; lia.
Qed.

Lemma accounted_step before middle after acc acc' res new new' bound :
  accounted before middle acc (Ok acc') new 1 ->
  accounted middle after acc' res new' bound ->
  accounted before after acc res (new ++ new') (S bound).
Proof.
  without_library.
  unfold accounted.
  intros (F1 & E1 & R1 & H1 & V1 & A1 & tables & D1 & L1 & B1 & S1 & T1)
         (F2 & E2 & R2 & H2 & V2 & Hres).
  rewrite F2, E2, R2, H2, V2, F1, E1, R1, H1, V1, failed_validations_app, !app_assoc.
  repeat split; auto; try lia.
  destruct res as [r|e].
  - destruct Hres as (A2 & tables' & D2 & L2 & B2 & S2 & T2).
    rewrite A2, A1, <- ?app_assoc. split; auto.
    exists (tables ++ tables').
    rewrite D2, D1, S2, S1, T2, T1, map_app, list_sum_app, !length_app, <- ?app_assoc.
    repeat split; auto; lia.
  - destruct Hres as (done & S2 & L2 & T2).
    exists (List.length tables + done). rewrite S2, S1, length_app.
    repeat split; lia.
Qed.

Lemma accounted_bound before after acc res new bound bound' :
  bound <= bound' -> accounted before after acc res new bound ->
  accounted before after acc res new bound'.
Proof.
  without_library.
  unfold accounted. intros Hb (F & E & R & H & V & Hres).
  repeat split; auto. destruct res as [r|e]; auto.
  destruct Hres as (A & tables & D & L & B & S & T).
  split; auto. exists tables. repeat split; auto. lia.
Qed.

Lemma accounted_refl self acc : accounted self self acc (Ok acc) [] 0.
Proof.
  without_library.
  unfold accounted. rewrite !app_nil_r. repeat split; auto.
  exists []. rewrite app_nil_r. simpl. repeat split; auto.
Qed.

Lemma process_sheets_accounted file_name fleet_name sheets : forall self acc,
  exists new,
    accounted self (snd (process_sheets self acc sheets file_name fleet_name)) acc
              (fst (process_sheets self acc sheets file_name fleet_name))
              new (List.length sheets).
Proof.
  induction sheets as [|[sheet_name sheet_df] rest IH]; intros self acc.
  - exists []. apply accounted_refl.
  - cbn [process_sheets List.length].
    destruct (empty sheet_df).
    { destruct (IH self acc) as [new H]. exists new.
      apply (accounted_bound _ _ _ _ _ (List.length rest)); auto. }
    destruct (process_sheet_accounted self acc sheet_df file_name sheet_name
                (sheet_name ++ "_summary") fleet_name) as [new H].
    destruct (process_sheet self acc sheet_df file_name sheet_name
                (sheet_name ++ "_summary") fleet_name) as [[acc'|e] middle];
      cbn [fst snd] in *.
    + destruct (IH middle acc') as [new' H']. exists (new ++ new').
      now apply (accounted_step self middle _ acc acc').
    + exists new. apply (accounted_bound _ _ _ _ _ 1); auto. lia.
Qed.

Lemma process_single_file_accounted self file_name excel_data fleet_name :
  exists new,
    accounted self (snd (process_single_file self file_name excel_data fleet_name))
              (mkFileResult [] [] [])
              (fst (process_single_file self file_name excel_data fleet_name))
              new (List.length (sheets_of excel_data)).
Proof.
  unfold process_single_file. destruct excel_data as [sheets|df]; cbn [sheets_of].
  - rewrite length_map. apply process_sheets_accounted.
  - apply process_sheet_accounted.
Qed.

(** X18. Processing a file counts no file and records no error, keeps the
    rules, and adds one validation to the history per normalized sheet,
    counting those that failed. When it returns, it returns these
    validations and as many tables, at most one per sheet of the workbook,
    and has counted one sheet per table and the rows of the tables; when it
    raises, at most one validation stands without a counted sheet. *)
Theorem process_single_file_accounting (self : Pipeline) (file_name : string)
        (excel_data : decoded) (fleet_name : string) :
  let res := fst (process_single_file self file_name excel_data fleet_name) in
  let after := snd (process_single_file self file_name excel_data fleet_name) in
  let before := processing_stats self in
  let stats := processing_stats after in
  files_processed stats = files_processed before
  /\ errors stats = errors before
  /\ validation_rules (validator after) = validation_rules (validator self)
  /\ exists new,
       validation_results (validator after) = validation_results (validator self) ++ new
       /\ validation_failures stats
          = validation_failures before
            + List.length (filter (fun v => negb (res_passed v)) new)
       /\ match res with
          | Ok r =>
              file_validation_results r = new
              /\ List.length (data r) = List.length new
              /\ List.length (data r) <= List.length (sheets_of excel_data)
              /\ sheets_processed stats = sheets_processed before + List.length (data r)
              /\ total_rows stats = total_rows before + list_sum (map len (data r))
          | Raise _ =>
              exists done,
                sheets_processed stats = sheets_processed before + done
                /\ done <= List.length new <= done + 1
                /\ total_rows before <= total_rows stats
          end.
Proof.
  cbv zeta.
  destruct (process_single_file_accounted self file_name excel_data fleet_name)
    as (new & F & E & R & H & V & Hres).
  repeat split; auto. exists new. repeat split; auto.
  destruct (fst (process_single_file self file_name excel_data fleet_name)) as [r|e]; auto.
  cbn [data file_validation_results app] in Hres.
  destruct Hres as (A & tables & D & L & B & S & T). rewrite D. auto.
Qed.

Lemma fleet_rules_fail self df source_file out ctx :
  validation_rules self = validation_rules FleetDataValidator ->
  process_dataframe df source_file = Ok out ->
  lacks_source_file df ->
  res_passed (fst (validate_dataframe self out ctx)) = false.
Proof.
  intros Hrules Hout Hlacks.
  assert (Hnd : NoDup (keys (validation_rules self)))
    by (rewrite Hrules; apply FleetDataValidator_NoDup).
  destruct (validate_dataframe_rules self out ctx Hnd) as [_ Hp]. cbv zeta in Hp.
  rewrite Hp, Hrules.
  set (c := match ctx with Some c => c | None => [] end).
  destruct (normalized_fails_required_columns df source_file out c Hout Hlacks)
    as [message Hmsg].
  apply (forallb_failed_rule out c _ "required_columns"
           (mkRuleInfo has_required_columns
                       "Check that all required metadata columns are present")).
  - now left.
  - unfold expected_entry. cbn [func]. now rewrite Hmsg.
Qed.

Lemma process_sheet_fails self acc sheet_df file_name sheet_label summary_key fleet_name :
  validation_rules (validator self) = validation_rules FleetDataValidator ->
  lacks_source_file sheet_df ->
  let after :=
    snd (process_sheet self acc sheet_df file_name sheet_label summary_key fleet_name) in
  validation_rules (validator after) = validation_rules (validator self)
  /\ exists new,
       validation_results (validator after) = validation_results (validator self) ++ new
       /\ Forall (fun v => res_passed v = false) new.
Proof.
  intros Hrules Hlacks. cbv zeta. unfold process_sheet.
  destruct (process_dataframe sheet_df file_name) as [processed_df|e] eqn:E.
  2: { split; auto. exists []. now rewrite app_nil_r. }
  pose proof (fleet_rules_fail (validator self) sheet_df file_name processed_df
                (Some [("file", file_name); ("sheet", sheet_label); ("fleet", fleet_name)])
                Hrules E Hlacks) as Hfail.
  pose proof (validate_dataframe_history (validator self) processed_df
                (Some [("file", file_name); ("sheet", sheet_label); ("fleet", fleet_name)]))
    as Hhist.
  assert (Hkeep : validation_rules (snd (validate_dataframe (validator self) processed_df
                (Some [("file", file_name); ("sheet", sheet_label); ("fleet", fleet_name)])))
                  = validation_rules (validator self)) by reflexivity.
  destruct (validate_dataframe _ _ _) as [v validator']. cbn [fst snd] in *.
  destruct (calculate_summary_stats processed_df (Some "fleet_number"));
    cbn [snd validator]; (split; [assumption|]); exists [v]; split; auto.
Qed.

Lemma process_sheets_fail file_name fleet_name sheets : forall self acc,
  validation_rules (validator self) = validation_rules FleetDataValidator ->
  Forall lacks_source_file (map snd sheets) ->
  let after := snd (process_sheets self acc sheets file_name fleet_name) in
  validation_rules (validator after) = validation_rules (validator self)
  /\ exists new,
       validation_results (validator after) = validation_results (validator self) ++ new
       /\ Forall (fun v => res_passed v = false) new.
Proof.
  induction sheets as [|[sheet_name sheet_df] rest IH]; intros self acc Hrules Hall.
  - cbn. split; auto. exists []. now rewrite app_nil_r.
  - cbn [map snd] in Hall. inversion Hall as [|? ? Hhead Hrest]; subst.
    cbn [process_sheets]. cbv zeta.
    destruct (empty sheet_df); [now apply IH|].
    destruct (process_sheet_fails self acc sheet_df file_name sheet_name
                (sheet_name ++ "_summary") fleet_name Hrules Hhead)
      as (Hkeep & new & Hhist & Hnew).
    destruct (process_sheet self acc sheet_df file_name sheet_name
                (sheet_name ++ "_summary") fleet_name) as [[acc'|e] middle];
      cbn [snd] in *.
    + destruct (IH middle acc') as (Hkeep' & new' & Hhist' & Hnew'); auto.
      { now rewrite Hkeep. }
      split; [now rewrite Hkeep'|].
      exists (new ++ new'). rewrite Hhist', Hhist, app_assoc. split; auto.
      apply Forall_app. now split.
    + split; auto. now exists new.
Qed.

(** X19. With the rules of the fleet validator, a workbook none of whose
    sheets has a column called source_file once cleaned passes no
    validation: every validation that processing the file adds to the
    history has failed, and each is counted as a validation failure. *)
Theorem process_single_file_validations_fail (self : Pipeline) (file_name : string)
        (excel_data : decoded) (fleet_name : string) :
  validation_rules (validator self) = validation_rules FleetDataValidator ->
  Forall lacks_source_file (sheets_of excel_data) ->
  let after := snd (process_single_file self file_name excel_data fleet_name) in
  exists new,
    validation_results (validator after) = validation_results (validator self) ++ new
    /\ Forall (fun v => res_passed v = false) new
    /\ validation_failures (processing_stats after)
       = validation_failures (processing_stats self) + List.length new.
Proof.
  intros Hrules Hall. cbv zeta.
  assert (H : exists new,
             validation_results
               (validator (snd (process_single_file self file_name excel_data fleet_name)))
             = validation_results (validator self) ++ new
             /\ Forall (fun v => res_passed v = false) new).
  { unfold process_single_file. destruct excel_data as [sheets|df]; cbn [sheets_of] in Hall.
    - now apply process_sheets_fail.
    - inversion Hall; subst. now apply process_sheet_fails. }
  destruct H as (new & Hhist & Hnew). exists new. repeat split; auto.
  destruct (process_single_file_accounted self file_name excel_data fleet_name)
    as (new' & _ & _ & _ & Hhist' & Hcount & _).
  rewrite Hhist in Hhist'. apply app_inv_head in Hhist'. subst new'.
  rewrite Hcount. f_equal. unfold failed_validations.
  clear - Hnew. induction Hnew as [|v l Hv _ IH]; simpl; auto.
  rewrite Hv. simpl. now rewrite IH.
Qed.

(** ** The files of a fleet *)

Lemma read_and_process_accounted self file fleet_name :
  exists res new bound,
    read_and_process self file fleet_name
    = (res, snd (read_and_process self file fleet_name))
    /\ accounted self (snd (read_and_process self file fleet_name))
                 (mkFileResult [] [] []) res new bound.
Proof.
  unfold read_and_process.
  destruct (negb (file_exists file)).
  { exists (Raise (os_error (file_path file))), [], 0. split; auto.
    unfold accounted. cbn [snd]. rewrite app_nil_r. repeat split; auto.
    exists 0. simpl. lia. }
  destruct (reader_read_file file None) as [excel_data|e].
  - destruct (process_single_file_accounted self (path_name (file_path file))
                excel_data fleet_name) as [new H].
    eexists _, new, _. split; [apply surjective_pairing | exact H].
  - exists (Raise e), [], 0. split; auto.
    unfold accounted. cbn [snd]. rewrite app_nil_r. repeat split; auto.
    exists 0. simpl. lia.
Qed.

Lemma process_files_accounting fleet_name files : forall self fleet_data fleet_summaries,
  let after := snd (process_files self fleet_data fleet_summaries files fleet_name) in
  let before := processing_stats self in
  let stats := processing_stats after in
  files_processed stats + List.length (errors stats)
  = files_processed before + List.length (errors before) + List.length files
  /\ files_processed before <= files_processed stats
  /\ (exists failed, errors stats = errors before ++ failed)
  /\ validation_rules (validator after) = validation_rules (validator self)
  /\ (exists new,
        validation_results (validator after) = validation_results (validator self) ++ new
        /\ validation_failures stats
           = validation_failures before
             + List.length (filter (fun v => negb (res_passed v)) new))
  /\ sheets_processed before <= sheets_processed stats
  /\ total_rows before <= total_rows stats.
Proof.
  induction files as [|file rest IH]; intros self fleet_data fleet_summaries; cbv zeta.
  - cbn [process_files snd List.length]. repeat split; auto; try lia.
    + exists []. now rewrite app_nil_r.
    + exists []. rewrite app_nil_r. simpl. split; auto.
  - cbn [process_files List.length].
    destruct (read_and_process_accounted self file fleet_name)
      as (res & new & bound & Heq & F & E & R & H & V & Hres).
    rewrite Heq. set (middle := snd (read_and_process self file fleet_name)) in *.
    assert (Hsheets : sheets_processed (processing_stats self)
                      <= sheets_processed (processing_stats middle)
                      /\ total_rows (processing_stats self)
                         <= total_rows (processing_stats middle)).
    { destruct res as [r|e].
      - destruct Hres as (_ & tables & _ & _ & _ & S & T). lia.
      - destruct Hres as (done & S & _ & T). lia. }
    destruct res as [file_result|e]; cbv zeta;
      match goal with
      | |- context [process_files ?s ?d ?m rest fleet_name] =>
          specialize (IH s d m); cbv zeta in IH;
          destruct IH as (I1 & I2 & (failed & I3) & I4 & (new' & I5 & I6) & I7 & I8);
          cbn [processing_stats validator files_processed errors validation_failures
               sheets_processed total_rows] in I1, I2, I3, I4, I5, I6, I7, I8
      end.
    + rewrite F, E in *. repeat split; try lia.
      * now exists failed.
      * now rewrite I4.
      * exists (new ++ new'). rewrite I5, H, <- app_assoc. split; auto.
        rewrite I6, V. unfold failed_validations. rewrite filter_app, length_app. lia.
    + rewrite F, E in *. rewrite length_app in I1. cbn [List.length] in I1.
      repeat split; try lia.
      * rewrite I3, <- app_assoc. eauto.
      * now rewrite I4.
      * exists (new ++ new'). rewrite I5, H, <- app_assoc. split; auto.
        rewrite I6, V. unfold failed_validations. rewrite filter_app, length_app. lia.
Qed.

Lemma process_fleet_files_state self output_dir fleet_name files :
  snd (process_fleet_files self output_dir fleet_name files)
  = snd (process_files self [] [] files fleet_name).
Proof.
  unfold process_fleet_files.
  destruct (process_files self [] [] files fleet_name) as [[fleet_data fleet_summaries] after].
  now destruct (negb (is_nil fleet_data)).
Qed.

(** X20. Processing the files of a fleet accounts for each file once:
    whether the method returns or its last write raises, every file has
    either been counted as processed or left one error, the errors of
    before are kept, the rules stay, and the validation failures counted
    are those of the validations added to the history. *)
Theorem process_fleet_files_accounting (self : Pipeline) (output_dir : Path)
        (fleet_name : string) (files : list FileFacts) :
  let after := snd (process_fleet_files self output_dir fleet_name files) in
  let before := processing_stats self in
  let stats := processing_stats after in
  files_processed stats + List.length (errors stats)
  = files_processed before + List.length (errors before) + List.length files
  /\ files_processed before <= files_processed stats
  /\ (exists failed, errors stats = errors before ++ failed)
  /\ validation_rules (validator after) = validation_rules (validator self)
  /\ (exists new,
        validation_results (validator after) = validation_results (validator self) ++ new
        /\ validation_failures stats
           = validation_failures before
             + List.length (filter (fun v => negb (res_passed v)) new))
  /\ sheets_processed before <= sheets_processed stats
  /\ total_rows before <= total_rows stats.
Proof.
  cbv zeta. rewrite process_fleet_files_state.
  apply (process_files_accounting fleet_name files self [] []).
Qed.

Lemma write_summary_report_mappings (output_dir : Path)
      (fleet_summaries : list (string * list (string * Stats))) fleet_name :
  write_summary_report output_dir
    (map (fun '(key, sheet_summaries) => (key, Mapping sheet_summaries)) fleet_summaries)
    fleet_name
  = Ok None.
Proof.
  unfold write_summary_report.
  assert (H : forall report_data,
             fold_left (fun report_data '(summary_type, summary_df) =>
                          match summary_df with
                          | Frame summary_df =>
                              dict_set report_data summary_type (flatten_columns summary_df)
                          | Mapping _ => report_data
                          end)
                       (map (fun '(key, sheet_summaries) => (key, Mapping sheet_summaries))
                            fleet_summaries) report_data
             = report_data).
  { induction fleet_summaries as [|[key m] rest IH]; intros report_data; simpl; auto. }
  now rewrite H.
Qed.

(** X21. A fleet that is completed has no summary report: the summaries the
    pipeline collects are mappings, none of them a table, so the workbook of
    the report is never written and the summary path is None. The combined
    table is the concatenation of the tables collected, of which there is at
    least one, its length is the row count reported, and it was written as
    parquet to a file of the output directory. *)
Theorem process_fleet_files_completed (self : Pipeline) (output_dir : Path)
        (fleet_name : string) (files : list FileFacts)
        (rows_processed : nat) (output_path : Path) (summary_path : option Path)
        (combined : list DataFrame) :
  fst (process_fleet_files self output_dir fleet_name files)
  = Ok (Completed rows_processed output_path summary_path combined) ->
  summary_path = None
  /\ (exists fleet_data combined_df,
        fleet_data <> [] /\ concat fleet_data = Ok combined_df
        /\ combined = [combined_df] /\ rows_processed = len combined_df)
  /\ exists stem table,
       output_path = output_dir ++ [(stem ++ ".parquet")%string]
       /\ write_table "parquet" output_path table = Ok tt.
Proof.
  unfold process_fleet_files.
  destruct (process_files self [] [] files fleet_name) as [[fleet_data fleet_summaries] after].
  destruct fleet_data as [|first more]; cbn [is_nil negb fst]; [discriminate|].
  destruct (concat (first :: more)) as [combined_df|e] eqn:Ec; cbn [bind]; [|discriminate].
  unfold write_dataframe.
  change (String.eqb (lower_str "parquet") "parquet") with true. cbv iota.
  destruct (enforce_string_loop (labels combined_df) combined_df) as [table|e];
    cbn [bind]; [|discriminate].
  destruct (with_suffix_name output_dir (fleet_name ++ "_combined") ".parquet")
    as (stem & Hpath & _ & _).
  { destruct fleet_name; discriminate. }
  rewrite Hpath. cbn [bind].
  destruct (write_table "parquet" _ table) as [[]|e] eqn:Ew; cbn [bind]; [|discriminate].
  assert (Hsummary : (if negb (is_nil fleet_summaries)
                      then write_summary_report output_dir
                             (map (fun '(key, sheet_summaries) =>
                                     (key, Mapping sheet_summaries)) fleet_summaries)
                             fleet_name
                      else Ok None) = Ok None).
  { destruct (negb (is_nil fleet_summaries)); auto. apply write_summary_report_mappings. }
  rewrite Hsummary. cbn [bind]. intros [= <- <- <- <-].
  split; auto. split.
  - exists (first :: more), combined_df. repeat split; auto. discriminate.
  - now exists stem, table.
Qed.

Lemma read_and_process_unsupported self file fleet_name :
  file_exists file = true ->
  ~ In (lower_str (file_suffix file)) excel_suffixes ->
  read_and_process self file fleet_name
  = (Raise ("Unsupported file format: " ++ lower_str (file_suffix file))%string, self).
Proof.
  intros Hexists Hsuffix. unfold read_and_process, reader_read_file. cbv zeta.
  rewrite Hexists. cbn [negb].
  destruct (existsb _ excel_suffixes) eqn:E; auto.
  apply existsb_exists in E. destruct E as (x & Hin & Heq).
  apply String.eqb_eq in Heq. subst x. contradiction.
Qed.

(** X22. Files that exist and whose suffix is neither .xlsx nor .xls in any
    letter case reach neither the library nor the processor: a fleet made of
    such files has no data, nothing is written, and the only change to the
    pipeline is one error per file, in order, with the path and the suffix
    refused. *)
Theorem process_fleet_files_unsupported (self : Pipeline) (output_dir : Path)
        (fleet_name : string) (files : list FileFacts) :
  Forall (fun file => file_exists file = true
                      /\ ~ In (lower_str (file_suffix file)) [".xlsx"; ".xls"]) files ->
  process_fleet_files self output_dir fleet_name files
  = (Ok NoData,
     mkPipeline (validator self)
       (mkStats (files_processed (processing_stats self))
                (sheets_processed (processing_stats self))
                (total_rows (processing_stats self))
                (errors (processing_stats self)
                 ++ map (fun file =>
                           (path_str (file_path file) ++ ": Unsupported file format: "
                            ++ lower_str (file_suffix file))%string) files)
                (validation_failures (processing_stats self)))).
Proof.
  intros Hall. unfold process_fleet_files.
  assert (H : forall self,
             process_files self [] [] files fleet_name
             = ([], [],
                mkPipeline (validator self)
                  (mkStats (files_processed (processing_stats self))
                     (sheets_processed (processing_stats self))
                     (total_rows (processing_stats self))
                     (errors (processing_stats self)
                      ++ map (fun file =>
                                (path_str (file_path file) ++ ": Unsupported file format: "
                                 ++ lower_str (file_suffix file))%string) files)
                     (validation_failures (processing_stats self))))).
  { clear self. induction Hall as [|file rest [Hexists Hsuffix] _ IH]; intros self.
    - cbn [process_files map]. rewrite app_nil_r. now destruct self as [v []].
    - cbn [process_files]. rewrite (read_and_process_unsupported _ _ _ Hexists Hsuffix).
      cbv zeta. rewrite IH.
      cbn [validator processing_stats files_processed sheets_processed total_rows errors
           validation_failures map].
      now rewrite <- app_assoc. }
  now rewrite H.
Qed.

(** ** The metadata columns through normalization *)

Lemma dropna_rows_all_filled df j v :
  j < List.length (columns df) ->
  (forall r, In r (rows df) -> cell_at j r = Some v) ->
  dropna_rows_all df = df.
Proof.
  intros Hj Hall. unfold dropna_rows_all. destruct df as [cols rs]. cbn [columns rows] in *.
  f_equal. apply filter_id. intros r Hr.
  apply negb_true_iff, forallb_isnull_false. exists v.
  rewrite <- (Hall r Hr), <- (nth_read_row (List.length cols) r j Hj).
  apply nth_In. now rewrite length_read_row.
Qed.

Lemma remove_empty_keeps_filled df label v :
  column_is df label (Some v) -> 0 < len df ->
  In label (labels (remove_empty_rows_columns df)).
Proof.
  without_library.
  intros [Hhas Hcol] Hlen. apply has_column_In in Hhas.
  destruct (In_nth_error _ _ Hhas) as [j Hj].
  assert (Hw : j < List.length (columns df)).
  { rewrite <- length_labels. apply nth_error_Some. congruence. }
  unfold remove_empty_rows_columns.
  rewrite (dropna_rows_all_filled df j v Hw) by (intros r Hr; now apply Hcol).
  rewrite dropna_columns_all_spec. cbv zeta. unfold labels at 1. cbn [columns].
  rewrite map_map. apply in_map_iff. exists j. split.
  - destruct (nth_error_labels df j label Hj) as [d Hd].
    now rewrite (nth_error_nth _ _ _ Hd).
  - apply filter_In. split; [apply in_seq; lia|].
    apply negb_true_iff, forallb_isnull_false. exists v.
    unfold column_cells, len in *. destruct (rows df) as [|r t]; [simpl in Hlen; lia|].
    left. apply Hcol; auto. now left.
Qed.

Lemma remove_empty_no_rows df :
  len df = 0 -> labels (remove_empty_rows_columns df) = [].
Proof.
  intros Hlen. unfold remove_empty_rows_columns.
  rewrite dropna_columns_all_spec. cbv zeta. unfold labels. cbn [columns].
  unfold len in Hlen. apply length_zero_iff_nil in Hlen.
  unfold column_cells, dropna_rows_all. cbn [rows columns]. rewrite Hlen. cbn [filter map forallb negb].
  now induction (seq 0 (List.length (columns df))).
Qed.

Lemma clean_names_keeps cols s :
  canonical (Str.chars s) -> s <> "" -> In s cols -> In s (clean_names cols).
Proof.
  intros Hc Hne Hin. destruct (In_nth _ _ "" Hin) as (i & Hi & Hnth).
  rewrite <- (name_at_fixed i s Hc Hne), <- Hnth, <- (clean_names_nth cols i Hi).
  apply nth_In. now rewrite clean_names_length.
Qed.

Lemma canonical_source_file : canonical (Str.chars "source_file").
Proof. repeat split; vm_compute; auto; repeat constructor. Qed.

Lemma canonical_ingestion_timestamp : canonical (Str.chars "ingestion_timestamp").
Proof. repeat split; vm_compute; auto; repeat constructor. Qed.

Lemma existsb_eqb_In label ls :
  existsb (String.eqb label) ls = true <-> In label ls.
Proof.
  rewrite existsb_exists. split.
  - intros [x [Hx E]]. apply String.eqb_eq in E. now subst.
  - intros H. exists label. split; auto. apply String.eqb_refl.
Qed.

(** X23. A sheet read with its metadata and then normalized passes the rule
    of the required columns exactly when it has a row: with a row the
    required metadata columns are filled and survive the trimming and the
    cleaning of the names; without one, trimming drops every column, the
    metadata with them, and the rule reports both required columns
    missing. *)
Theorem metadata_required_columns (df : DataFrame)
        (file_name sheet_name file_path : string) (now : Z)
        (source_file : string) (out : DataFrame) (ctx : context) :
  process_dataframe (add_metadata df file_name sheet_name file_path now) source_file
  = Ok out ->
  has_required_columns out ctx
  = if 0 <? len df
    then Ok (true, "All required columns present")
    else Ok (false, ("Missing required columns: "
                     ++ repr_list ["source_file"; "ingestion_timestamp"])%string).
Proof.
  intros Hout. unfold has_required_columns. cbn [filter].
  rewrite !(process_dataframe_has_column _ source_file out _ Hout) by discriminate.
  set (md := add_metadata df file_name sheet_name file_path now).
  assert (Hlen : len md = len df).
  { unfold md, add_metadata. now rewrite !len_set_scalar. }
  assert (Hfile : column_is md "source_file" (Some (VStr file_name))).
  { unfold md, add_metadata.
    repeat (apply set_scalar_preserves; [discriminate|]). apply set_scalar_column_is. }
  assert (Htime : column_is md "ingestion_timestamp" (Some (VTime now))).
  { unfold md, add_metadata. apply set_scalar_column_is. }
  destruct (0 <? len df) eqn:E.
  - apply Nat.ltb_lt in E. rewrite <- Hlen in E.
    rewrite !(proj2 (existsb_eqb_In _ _)); auto.
    + apply clean_names_keeps;
        [apply canonical_ingestion_timestamp | discriminate |].
      now apply (remove_empty_keeps_filled md _ _ Htime).
    + apply clean_names_keeps; [apply canonical_source_file | discriminate |].
      now apply (remove_empty_keeps_filled md _ _ Hfile).
  - apply Nat.ltb_ge in E. rewrite <- Hlen in E.
    rewrite remove_empty_no_rows by lia. reflexivity.
Qed.

End Pipeline.

(** * Instances and counterexamples *)

(** C2 at three validations of which two passed: the pass rate is 2/3. *)
Lemma get_validation_summary_witness :
  0 < List.length (validation_results history_example)
  /\ get_validation_summary history_example
     = [("total_validations", PInt 3); ("passed", PInt 2); ("failed", PInt 1);
        ("pass_rate", PFloat (2 # 3))].
Proof.
  split; [simpl; lia|].
  apply (proj1 (get_validation_summary_spec history_example)). simpl. lia.
Defined.

(** C2 as stated fails on the empty history: the summary has no [pass_rate]
    entry at all, so it does not return [pass_rate = 0]. *)
Lemma get_validation_summary_counterexample :
  validation_results new_validator = []
  /\ get_validation_summary new_validator = [("total_validations", PInt 0)]
  /\ dict_get (get_validation_summary new_validator) "pass_rate" = None.
Proof. repeat split. Qed.

(** C3 at a table with two columns. *)
Lemma valid_fleet_numbers_witness :
  positions fleet_numbers_example "fleet_number" = [1]
  /\ dropna (column_cells 1 fleet_numbers_example)
     = [Some (VStr "5"); Some (VStr "1000"); Some (VStr "abc")]
  /\ valid_fleet_numbers number_stub fleet_numbers_example []
     = Ok (false, "Invalid fleet number format in 1 rows").
Proof.
  split; [reflexivity|]. split; [reflexivity|].
  apply (valid_fleet_numbers_example number_stub fleet_numbers_example [] 1);
    reflexivity.
Defined.

(** C3 as stated fails: on "5", "1000", "abc" the rule reports one row, and
    neither of its two failure messages with the count 2. *)
Lemma valid_fleet_numbers_counterexample :
  valid_fleet_numbers number_stub fleet_numbers_example []
  <> Ok (false, "Invalid fleet number format in 2 rows")
  /\ valid_fleet_numbers number_stub fleet_numbers_example []
     <> Ok (false, "Fleet numbers out of range (1-999): 2 rows")
  /\ exists message,
       valid_fleet_numbers number_stub fleet_numbers_example [] = Ok (false, message)
       /\ Str.contains "1 rows" message = true
       /\ Str.contains "2 rows" message = false.
Proof.
  split; [vm_compute; discriminate|]. split; [vm_compute; discriminate|].
  eexists. split; [vm_compute; reflexivity|]. split; reflexivity.
Qed.

(** C4 at a table whose only metric column is text, with no group column. *)
Lemma calculate_summary_stats_witness :
  numeric_metric_columns fuel_type_example = []
  /\ calculate_summary_stats unit (fun _ => tt) (fun _ _ _ => Ok tt)
                             fuel_type_example None
     = Ok [].
Proof.
  split; [reflexivity|].
  apply (calculate_summary_stats_no_numeric
           unit (fun _ => tt) (fun _ _ _ => Ok tt) fuel_type_example None);
    reflexivity.
Defined.

(** C4 as stated fails: the same table grouped by [fleet_number], as the
    pipeline calls it, yields the "by_group" entry when the grouped
    statistics are computed, and the error when they are not; in neither
    case the empty mapping. *)
Lemma calculate_summary_stats_counterexample :
  numeric_metric_columns fuel_type_example = []
  /\ identify_performance_metrics fuel_type_example = ["fuel_type"]
  /\ calculate_summary_stats unit (fun _ => tt) (fun _ _ _ => Ok tt)
                             fuel_type_example (Some "fleet_number")
     = Ok [("by_group", tt)]
  /\ calculate_summary_stats unit (fun _ => tt) (fun _ _ _ => Raise "TypeError")
                             fuel_type_example (Some "fleet_number")
     = Raise "TypeError".
Proof. repeat split. Qed.

(** C5 at a header with an empty label in third place. *)
Lemma clean_column_names_witness :
  2 < List.length (labels raw_header_example)
  /\ nth 2 (labels (clean_column_names raw_header_example)) "" = "col_2".
Proof.
  split; [simpl; lia|].
  apply (proj1 (proj2 (clean_column_names_labels raw_header_example)) 2).
  simpl. lia.
Defined.

(** C5 as stated fails: the distinct labels "A" and "a" both become "a". *)
Lemma clean_column_names_counterexample :
  nth 0 (labels raw_header_example) "" <> nth 1 (labels raw_header_example) ""
  /\ nth 0 (labels (clean_column_names raw_header_example)) "" = "a"
  /\ nth 1 (labels (clean_column_names raw_header_example)) "" = "a"
  /\ ~ NoDup (labels (clean_column_names raw_header_example)).
Proof.
  split; [discriminate|]. split; [reflexivity|]. split; [reflexivity|].
  intros H. inversion H as [|? ? Hnotin _]; subst. apply Hnotin. now left.
Qed.

(** C6 at a registry whose second rule raises. *)
Lemma validate_dataframe_witness :
  NoDup (keys (validation_rules registry_example))
  /\ keys (res_rules (fst (validate_dataframe registry_example sheet_example None)))
     = ["first"; "second"; "third"]
  /\ dict_get (res_rules (fst (validate_dataframe registry_example sheet_example None)))
              "second"
     = Some (mkRuleEntry false "Rule execution failed: boom" "raises")
  /\ res_passed (fst (validate_dataframe registry_example sheet_example None)) = false.
Proof.
  assert (Hnd : NoDup (keys (validation_rules registry_example))).
  { repeat (constructor; [simpl; intuition discriminate|]). constructor. }
  split; [exact Hnd|].
  destruct (validate_dataframe_spec registry_example sheet_example None Hnd)
    as (Hrules & Hraise & Hpassed & _).
  split; [now rewrite Hrules|].
  split; [|now rewrite Hpassed, Hrules].
  apply (Hraise "second" (mkRuleInfo (fun _ _ => Raise "boom") "raises") "boom").
  - simpl. auto.
  - reflexivity.
Defined.

(** C8 at a dataset whose fleet numbers come in the order "1", "2", "1". *)
Lemma write_partitioned_example_witness :
  positions dataset_example "fleet_number" = [0]
  /\ Permutation (column_cells 0 dataset_example)
                 [Some (VStr "1"); Some (VStr "1"); Some (VStr "2")]
  /\ exists rows1 rows2,
       write_partitioned str_stub template_stub ["processed"; "partitioned"]
                         dataset_example ["fleet_number"] "fleet_data"
       = Ok [(["processed"; "partitioned"; "fleet_number=1"; "fleet_data.parquet"],
              mkDataFrame (columns dataset_example) rows1);
             (["processed"; "partitioned"; "fleet_number=2"; "fleet_data.parquet"],
              mkDataFrame (columns dataset_example) rows2)]
       /\ List.length rows1 = 2
       /\ List.length rows2 = 1
       /\ Permutation (rows1 ++ rows2) (rows dataset_example).
Proof.
  assert (Hperm : Permutation (column_cells 0 dataset_example)
                              [Some (VStr "1"); Some (VStr "1"); Some (VStr "2")]).
  { apply perm_skip, perm_swap. }
  split; [reflexivity|]. split; [exact Hperm|].
  exact (write_partitioned_example str_stub template_stub ["processed"; "partitioned"]
                                   dataset_example "fleet_data" 0 eq_refl Hperm).
Defined.

(** C10 at a dataset of two rows, one with a null fleet number: one
    partition, one row. *)
Lemma write_partitioned_drops_null_keys_witness :
  ["fleet_number"] <> []
  /\ key_positions dataset_with_null ["fleet_number"] = Ok [0]
  /\ exists written,
       write_partitioned str_stub template_stub ["processed"; "partitioned"]
                         dataset_with_null ["fleet_number"] "fleet_data"
       = Ok written
       /\ Permutation (partition_rows written)
                      (filter (keyed [0]) (rows dataset_with_null))
       /\ (forall r j, In j [0] -> cell_at j r = None ->
                       ~ In r (partition_rows written))
       /\ ((exists r j, In r (rows dataset_with_null) /\ In j [0]
                        /\ cell_at j r = None) ->
           List.length (partition_rows written) < List.length (rows dataset_with_null)).
Proof.
  split; [discriminate|]. split; [reflexivity|].
  apply (write_partitioned_drops_null_keys
           str_stub template_stub ["processed"; "partitioned"]
           dataset_with_null ["fleet_number"] "fleet_data" [0]).
  - discriminate.
  - reflexivity.
Defined.

(** C7 at the file name "Fleet 12 - data.xlsx": the match starts at the first
    character and captures "12". *)
Lemma extract_fleet_info_witness :
  fleet_match_after (Str.lower (Str.chars "Fleet 12 - data.xlsx")) [] (Str.chars "12")
  /\ column_is (extract_fleet_info sheet_example "Fleet 12 - data.xlsx")
               "fleet_number" (Some (VStr "12")).
Proof.
  assert (Hm : fleet_match_after (Str.lower (Str.chars "Fleet 12 - data.xlsx")) []
                                 (Str.chars "12")).
  { exists [" "%char], (Str.chars " - data.xlsx").
    split; [reflexivity|]. split; [repeat constructor|].
    split; [repeat constructor|]. split; [discriminate | reflexivity]. }
  split; [exact Hm|].
  apply (proj1 (extract_fleet_info_spec sheet_example "Fleet 12 - data.xlsx")
               [] (Str.chars "12") Hm).
  intros pre' d' _. simpl. lia.
Defined.

(** The file names of the specification's examples. *)
Example fleet_match_found : fleet_match "Fleet 12 - data.xlsx" = Some "12".
Proof. reflexivity. Qed.

Example fleet_match_absent : fleet_match "report.xlsx" = None.
Proof. reflexivity. Qed.

Example bus_range_match_found :
  bus_range_match "Fleet3_1000-1050.xlsx" = Some ("1000", "1050").
Proof. reflexivity. Qed.

Example clean_col_fuel_cost : clean_col "Fuel Cost (USD)" = "fuel_cost_usd".
Proof. reflexivity. Qed.

(** X4 at the example sheet: two rows stay two rows and no column is left
    with the object dtype. *)
Lemma process_dataframe_shape_witness :
  exists out,
    process_dataframe series_stub str_stub sheet_example "Fleet 12 - data.xlsx" = Ok out
    /\ len out = len (remove_empty_rows_columns sheet_example)
    /\ Forall (fun d => d <> DObject) (dtypes out).
Proof.
  destruct (process_dataframe series_stub str_stub sheet_example "Fleet 12 - data.xlsx")
    as [out|e] eqn:E.
  - exists out. split; [reflexivity|].
    apply (process_dataframe_shape series_stub str_stub sheet_example
                                   "Fleet 12 - data.xlsx" out E).
  - vm_compute in E. discriminate.
Defined.

(** X5 at the example sheet. *)
Lemma normalized_passes_column_rules_witness :
  exists out,
    process_dataframe series_stub str_stub sheet_example "Fleet 12 - data.xlsx" = Ok out
    /\ has_valid_columns repr_stub out [] = Ok (true, "All column names are valid")
    /\ exists message,
         reasonable_data_types number_stub counts_stub out [] = Ok (true, message).
Proof.
  destruct (process_dataframe series_stub str_stub sheet_example "Fleet 12 - data.xlsx")
    as [out|e] eqn:E.
  - exists out. split; [reflexivity|].
    apply (normalized_passes_column_rules series_stub str_stub repr_stub number_stub
             counts_stub sheet_example "Fleet 12 - data.xlsx" out [] E).
  - vm_compute in E. discriminate.
Defined.


(** X7 at the registry whose second rule raises: two messages for two
    failed rules, the raised one among the errors. *)
Lemma validate_dataframe_messages_witness :
  NoDup (keys (validation_rules registry_example))
  /\ (let results := fst (validate_dataframe registry_example sheet_example None) in
      List.length (res_warnings results) + List.length (res_errors results) = 2
      /\ In "second: Rule execution failed" (res_errors results)).
Proof.
  assert (Hnd : NoDup (keys (validation_rules registry_example))).
  { repeat (constructor; [simpl; intuition discriminate|]). constructor. }
  split; [exact Hnd|].
  destruct (validate_dataframe_messages registry_example sheet_example None Hnd)
    as (Hcount & _ & Hraise).
  split.
  - rewrite Hcount. reflexivity.
  - apply (Hraise "second" (mkRuleInfo (fun _ _ => Raise "boom") "raises") "boom").
    + simpl. auto.
    + reflexivity.
Defined.

(** X10 at a table of two rows without columns. *)
Lemma fleet_validator_no_columns_witness :
  columns no_columns_example = []
  /\ res_passed (fst (validate_dataframe
                        (FleetDataValidator repr_stub number_stub number_stub counts_stub)
                        no_columns_example None)) = false.
Proof.
  split; [reflexivity|].
  apply (fleet_validator_no_columns repr_stub number_stub number_stub counts_stub
                                    no_columns_example None eq_refl).
Defined.

(** X11 at the dataset with a null fleet number: one partition, with the
    header of the dataset and its one keyed row. *)
Lemma write_partitioned_partitions_witness :
  ["fleet_number"] <> []
  /\ key_positions dataset_with_null ["fleet_number"] = Ok [0]
  /\ exists written,
       write_partitioned str_stub template_stub ["processed"; "partitioned"]
                         dataset_with_null ["fleet_number"] "fleet_data"
       = Ok written
       /\ Forall (fun w => columns (snd w) = columns dataset_with_null
                           /\ rows (snd w) <> []) written.
Proof.
  split; [discriminate|]. split; [reflexivity|].
  destruct (write_partitioned_partitions
              str_stub template_stub ["processed"; "partitioned"]
              dataset_with_null ["fleet_number"] "fleet_data" [0])
    as (written & Hw & Hall & _).
  - discriminate.
  - reflexivity.
  - exists written. split; [exact Hw|].
    apply (Forall_impl _ (fun w H => conj (proj1 H) (proj1 (proj2 H))) Hall).
Defined.


(** X15 at "raw/Fleet 12/data.XLS": the check accepts it and the reader
    asks the library with the engine xlrd. *)
Lemma reader_read_file_agrees_witness :
  file_exists xls_file_example = true
  /\ 0 < st_size xls_file_example
  /\ fst (validate_file_before_processing xls_file_example) = true
  /\ reader_read_file read_stub xls_file_example None
     = Ok (Sheets [("xlrd", sheet_example)]).
Proof.
  split; [reflexivity|]. split; [apply Nat.lt_0_succ|]. split; [reflexivity|].
  exact (reader_read_file_agrees read_stub xls_file_example None eq_refl
                                 (Nat.lt_0_succ 9)).
Defined.



(** X19 at the workbook of the example sheet, from a fresh pipeline: one
    validation, failed and counted. *)
Lemma process_single_file_validations_fail_witness :
  Forall lacks_source_file (sheets_of (Sheets [("Sheet1", sheet_example)]))
  /\ exists new,
       validation_results
         (validator
            (snd (process_single_file series_stub str_stub unit (fun _ => tt)
                    (fun _ _ _ => Ok tt)
                    (new_pipeline repr_stub number_stub number_stub counts_stub)
                    "Fleet 12 - data.xlsx" (Sheets [("Sheet1", sheet_example)])
                    "fleet12")))
       = new
       /\ Forall (fun v => res_passed v = false) new.
Proof.
  assert (Hall : Forall lacks_source_file (sheets_of (Sheets [("Sheet1", sheet_example)]))).
  { constructor; [reflexivity | constructor]. }
  split; [exact Hall|].
  destruct (process_single_file_validations_fail
              series_stub str_stub repr_stub number_stub number_stub counts_stub
              unit (fun _ => tt) (fun _ _ _ => Ok tt)
              (new_pipeline repr_stub number_stub number_stub counts_stub)
              "Fleet 12 - data.xlsx" (Sheets [("Sheet1", sheet_example)]) "fleet12"
              eq_refl Hall)
    as (new & Hhist & Hfail & _).
  exists new. split; [exact Hhist | exact Hfail].
Defined.

(** X21 at a fleet of one workbook: the fleet is completed and has no
    summary report. *)
Lemma process_fleet_files_completed_witness :
  exists rows_processed output_path summary_path combined,
    fst (process_fleet_files series_stub str_stub unit (fun _ => tt)
           (fun _ _ _ => Ok tt) read_stub write_stub workbook_stub (fun s => s)
           concat_stub os_error_stub
           (new_pipeline repr_stub number_stub number_stub counts_stub)
           ["processed"] "Fleet 12" [xls_file_example])
    = Ok (Completed rows_processed output_path summary_path combined)
    /\ summary_path = None.
Proof.
  destruct (fst (process_fleet_files series_stub str_stub unit (fun _ => tt)
                   (fun _ _ _ => Ok tt) read_stub write_stub workbook_stub (fun s => s)
                   concat_stub os_error_stub
                   (new_pipeline repr_stub number_stub number_stub counts_stub)
                   ["processed"] "Fleet 12" [xls_file_example]))
    as [[rows_processed output_path summary_path combined|]|e] eqn:E.
  - exists rows_processed, output_path, summary_path, combined.
    split; [reflexivity|].
    apply (proj1 (process_fleet_files_completed
                    series_stub str_stub unit (fun _ => tt) (fun _ _ _ => Ok tt)
                    read_stub write_stub workbook_stub (fun s => s) concat_stub
                    os_error_stub
                    (new_pipeline repr_stub number_stub number_stub counts_stub)
                    ["processed"] "Fleet 12" [xls_file_example]
                    rows_processed output_path summary_path combined E)).
  - vm_compute in E. discriminate.
  - vm_compute in E. discriminate.
Defined.

(** X22 at a fleet whose only file is "raw/notes.csv". *)
Lemma process_fleet_files_unsupported_witness :
  Forall (fun file => file_exists file = true
                      /\ ~ In (lower_str (file_suffix file)) [".xlsx"; ".xls"])
         [csv_file_example]
  /\ (let out :=
        process_fleet_files series_stub str_stub unit (fun _ => tt)
          (fun _ _ _ => Ok tt) read_stub write_stub workbook_stub (fun s => s)
          concat_stub os_error_stub
          (new_pipeline repr_stub number_stub number_stub counts_stub)
          ["processed"] "raw" [csv_file_example] in
      fst out = Ok NoData
      /\ errors (processing_stats (snd out))
         = ["raw/notes.csv: Unsupported file format: .csv"]
      /\ files_processed (processing_stats (snd out)) = 0).
Proof.
  assert (Hall : Forall (fun file => file_exists file = true
                                     /\ ~ In (lower_str (file_suffix file))
                                             [".xlsx"; ".xls"])
                        [csv_file_example]).
  { constructor; [|constructor]. split; [reflexivity|].
    intros [H|[H|[]]]; discriminate. }
  split; [exact Hall|]. cbv zeta.
  rewrite (process_fleet_files_unsupported
             series_stub str_stub unit (fun _ => tt) (fun _ _ _ => Ok tt)
             read_stub write_stub workbook_stub (fun s => s) concat_stub os_error_stub
             (new_pipeline repr_stub number_stub number_stub counts_stub)
             ["processed"] "raw" [csv_file_example] Hall).
  repeat split.
Defined.

(** X23 at the example sheet read with its metadata. *)
Lemma metadata_required_columns_witness :
  exists out,
    process_dataframe series_stub str_stub
      (add_metadata sheet_example "Fleet 12 - data.xlsx" "Sheet1"
                    "raw/Fleet 12 - data.xlsx" 0%Z)
      "Fleet 12 - data.xlsx"
    = Ok out
    /\ has_required_columns repr_stub out [] = Ok (true, "All required columns present").
Proof.
  destruct (process_dataframe series_stub str_stub
              (add_metadata sheet_example "Fleet 12 - data.xlsx" "Sheet1"
                            "raw/Fleet 12 - data.xlsx" 0%Z)
              "Fleet 12 - data.xlsx") as [out|e] eqn:E.
  - exists out. split; [reflexivity|].
    exact (metadata_required_columns series_stub str_stub repr_stub sheet_example
             "Fleet 12 - data.xlsx" "Sheet1" "raw/Fleet 12 - data.xlsx" 0%Z
             "Fleet 12 - data.xlsx" out [] E).
  - vm_compute in E. discriminate.
Defined.
